(** * joplin2notion: the URL canonicalizer of [src/lib/urls.js] and the
    scripts around it

    A shallow embedding of [looksLikeTracking], [canUseHttps] and [cleanUrl],
    together with the part of the platform they run on: JavaScript strings and
    regular expressions, and the WHATWG [URL] and [URLSearchParams] classes.

    Strings are [string]s whose characters stand for UTF-16 code units below
    128; on such strings the byte order of [String.compare] is the code-unit
    order of JavaScript and [toLowerCase] is the ASCII case mapping.

    The scripts that tidy the URLs of a database, look for duplicates and
    import markdown files follow: [src/tidy-urls.js], [src/miscellany.js],
    [src/bookmarks.js] and the files of [src/unnamed].  The service they
    talk to is a parameter of the model.  The titles and the markdown they
    handle are strings of code units below 256, see [Text]. *)

From Stdlib Require Import Bool Arith Lia List Ascii String NArith.
From Stdlib Require Import DecimalString DecimalN.
From Stdlib Require Import Sorted Permutation.
Import ListNotations.
Open Scope string_scope.
Open Scope nat_scope.

(* ================================================================== *)
(** * JavaScript strings *)

Module Str.

Definition lower_char (c : ascii) : ascii :=
  let n := nat_of_ascii c in
  if (65 <=? n) && (n <=? 90) then ascii_of_nat (n + 32) else c.

(** [String.prototype.toLowerCase]. *)
Fixpoint toLowerCase (s : string) : string :=
  match s with
  | EmptyString => EmptyString
  | String c s' => String (lower_char c) (toLowerCase s')
  end.

(** [String.prototype.startsWith]. *)
Fixpoint startsWith (s p : string) : bool :=
  match p, s with
  | EmptyString, _ => true
  | String _ _, EmptyString => false
  | String c p', String c' s' => Ascii.eqb c c' && startsWith s' p'
  end.

(** [String.prototype.endsWith]. *)
Fixpoint endsWith (s p : string) : bool :=
  String.eqb s p ||
  match s with
  | EmptyString => false
  | String _ s' => endsWith s' p
  end.

(** [String.prototype.includes]. *)
Fixpoint includes (s p : string) : bool :=
  startsWith s p ||
  match s with
  | EmptyString => false
  | String _ s' => includes s' p
  end.

(** [s.slice(0, -1)]: the string without its last character. *)
Fixpoint slice_0_m1 (s : string) : string :=
  match s with
  | EmptyString => EmptyString
  | String c EmptyString => EmptyString
  | String c s' => String c (slice_0_m1 s')
  end.

(** [s.slice(n)] for [n >= 0]. *)
Fixpoint drop (n : nat) (s : string) : string :=
  match n, s with
  | O, _ => s
  | S n', String _ s' => drop n' s'
  | S _, EmptyString => EmptyString
  end.

(** [Set.prototype.has] on a table of strings. *)
Definition has (table : list string) (x : string) : bool :=
  existsb (String.eqb x) table.

Fixpoint forallb (p : ascii -> bool) (s : string) : bool :=
  match s with
  | EmptyString => true
  | String c s' => p c && forallb p s'
  end.

(** The longest prefix whose characters satisfy [p], and the rest. *)
Fixpoint span (p : ascii -> bool) (s : string) : string * string :=
  match s with
  | EmptyString => (EmptyString, EmptyString)
  | String c s' =>
      if p c then let (a, b) := span p s' in (String c a, b)
      else (EmptyString, s)
  end.

End Str.

(* ================================================================== *)
(** * Regular expressions

    The fragment of ECMAScript patterns that [urls.js] uses with
    [RegExp.prototype.test]: literals, [.], [*], [?], sequencing and the
    assertions [^] and [$] (no flags, so [.] excludes line terminators and the
    assertions are those of the whole input).  The matcher is the
    backtracking matcher of the language specification, in continuation
    passing style. *)

Module RegExp.

Inductive regex : Type :=
| Empty
| Chr (c : ascii)
| Dot
| Seq (r1 r2 : regex)
| Opt (r : regex)
| Star (r : regex)
| Bol
| Eol.

(** A literal run of characters. *)
Fixpoint Lit (s : string) : regex :=
  match s with
  | EmptyString => Empty
  | String c s' => Seq (Chr c) (Lit s')
  end.

Definition line_terminator (c : ascii) : bool :=
  Ascii.eqb c "010" || Ascii.eqb c "013".

(** A continuation receives whether the position is still the start of the
    input, and the input that is left. *)
Definition cont : Type := bool -> string -> bool.

Fixpoint m (r : regex) (k : cont) (bos : bool) (s : string) {struct r} : bool :=
  match r with
  | Empty => k bos s
  | Chr c =>
      match s with
      | String c' s' => Ascii.eqb c c' && k false s'
      | EmptyString => false
      end
  | Dot =>
      match s with
      | String c' s' => negb (line_terminator c') && k false s'
      | EmptyString => false
      end
  | Seq r1 r2 => m r1 (m r2 k) bos s
  | Opt r' => m r' k bos s || k bos s
  | Star r' =>
      (fix star (fuel : nat) (bos : bool) (s : string) {struct fuel} : bool :=
         match fuel with
         | O => k bos s
         | S fuel' =>
             m r' (fun bos' s' =>
                     (String.length s' <? String.length s) && star fuel' bos' s')
               bos s
             || k bos s
         end) (S (String.length s)) bos s
  | Bol => bos && k bos s
  | Eol =>
      match s with
      | EmptyString => k bos s
      | String _ _ => false
      end
  end.

Fixpoint search (r : regex) (bos : bool) (s : string) : bool :=
  m r (fun _ _ => true) bos s ||
  match s with
  | EmptyString => false
  | String _ s' => search r false s'
  end.

(** [r.test(s)]: some position of [s] starts a match. *)
Definition test (r : regex) (s : string) : bool := search r true s.

End RegExp.

(* ================================================================== *)
(** * [src/lib/urls.js]: the tracking-parameter classifier *)

Import RegExp.

Definition PARAMS_TO_REMOVE : list string :=
  [ "utm_source"; "utm_medium"; "utm_campaign"; "utm_term"; "utm_content";
    "fbclid"; "ref"; "ref_src"; "source";
    "_ga"; "_gl"; "_tracking";
    "gclid"; "gclsrc"; "dclid"; "affiliate_id"; "affiliate";
    "mc_cid"; "mc_eid"; "zanpid"; "msclkid"; "_hsenc"; "_hsmi"; "igshid";
    "mkt_tok";
    "session_id"; "user_id"; "visitor_id";
    "platform"; "device"; "device_id";
    "timestamp"; "ts"; "time";
    "cache"; "nocache"; "bust"; "cb" ].

Definition PARAMS_TO_KEEP : list string :=
  [ "page"; "q"; "search"; "id"; "category"; "type"; "sort"; "filter" ].

Definition trackingPatterns : list regex :=
  [ Seq Bol (Seq (Lit "_") (Star Dot));                      (* /^_.*/ *)
    Seq (Star Dot) (Seq (Lit "id") Eol);                     (* /.*id$/ *)
    Seq (Star Dot) (Seq (Lit "click") (Star Dot));           (* /.*click.*/ *)
    Seq (Lit "track") (Opt (Lit "ing"));                     (* /track(ing)?/ *)
    Seq (Lit "ref") (Opt (Seq (Lit "er") (Opt (Lit "r"))));  (* /ref(er(r)?)?/ *)
    Lit "campaign";                                          (* /campaign/ *)
    Seq Bol (Seq (Lit "src") Eol);                           (* /^src$/ *)
    Lit "affiliate";                                         (* /affiliate/ *)
    Seq Bol (Seq (Lit "s_") (Star Dot)) ].                   (* /^s_.*/ *)

Definition looksLikeTracking (param : string) : bool :=
  if Str.has PARAMS_TO_KEEP (Str.toLowerCase param) then false
  else existsb (fun pattern => test pattern (Str.toLowerCase param))
               trackingPatterns.

(* ================================================================== *)
(** * Percent-encoding (WHATWG URL Standard, section 1.3) *)

Module Percent.

Definition hex_digit (n : nat) : ascii :=
  if n <? 10 then ascii_of_nat (48 + n) else ascii_of_nat (55 + n).

(** [%XX], with upper-case hexadecimal digits. *)
Definition encode_byte (c : ascii) : string :=
  let n := nat_of_ascii c in
  String "%" (String (hex_digit (n / 16)) (String (hex_digit (n mod 16)) "")).

Definition hex_value (c : ascii) : option nat :=
  let n := nat_of_ascii c in
  if (48 <=? n) && (n <=? 57) then Some (n - 48)
  else if (65 <=? n) && (n <=? 70) then Some (n - 55)
  else if (97 <=? n) && (n <=? 102) then Some (n - 87)
  else None.

(** Percent-decode: [%] followed by two hexadecimal digits is one byte, any
    other character stands for itself. *)
Fixpoint decode (s : string) : string :=
  match s with
  | EmptyString => EmptyString
  | String c s1 =>
      if Ascii.eqb c "%" then
        match s1 with
        | String a (String b rest) =>
            match hex_value a, hex_value b with
            | Some h, Some l => String (ascii_of_nat (16 * h + l)) (decode rest)
            | _, _ => String c (decode s1)
            end
        | _ => String c (decode s1)
        end
      else String c (decode s1)
  end.

(** Percent-encode after encoding: every character of the set [inset]
    becomes [%XX]. *)
Fixpoint encode (inset : ascii -> bool) (s : string) : string :=
  match s with
  | EmptyString => EmptyString
  | String c s' =>
      if inset c then encode_byte c ++ encode inset s'
      else String c (encode inset s')
  end.

Definition code_in (codes : list nat) (c : ascii) : bool :=
  existsb (Nat.eqb (nat_of_ascii c)) codes.

(** C0 controls and everything above [~]. *)
Definition c0_control_set (c : ascii) : bool :=
  (nat_of_ascii c <? 32) || (126 <? nat_of_ascii c).

(** space, double quote, [<], [>] and back quote. *)
Definition fragment_set (c : ascii) : bool :=
  c0_control_set c || code_in [32; 34; 60; 62; 96] c.

(** space, double quote, [#], [<] and [>]. *)
Definition query_set (c : ascii) : bool :=
  c0_control_set c || code_in [32; 34; 35; 60; 62] c.

(** The query set and the single quote. *)
Definition special_query_set (c : ascii) : bool :=
  query_set c || code_in [39] c.

(** The query set and [?], [^], back quote, [{] and [}]. *)
Definition path_set (c : ascii) : bool :=
  query_set c || code_in [63; 94; 96; 123; 125] c.

Definition alphanumeric (c : ascii) : bool :=
  let n := nat_of_ascii c in
  ((48 <=? n) && (n <=? 57)) || ((65 <=? n) && (n <=? 90))
  || ((97 <=? n) && (n <=? 122)).

(** The application/x-www-form-urlencoded set leaves the alphanumerics and
    [*], [-], [.], [_] alone. *)
Definition urlencoded_set (c : ascii) : bool :=
  negb (alphanumeric c || code_in [42; 45; 46; 95] c).

End Percent.

(* ================================================================== *)
(** * [URLSearchParams] (WHATWG URL Standard, sections 5 and 6.2)

    The object is its list of name-value pairs in order. *)

Module URLSearchParams.

Definition t : Type := list (string * string).

(** Strictly split [s] on the character [sep]. *)
Fixpoint split_on (sep : ascii) (s : string) : list string :=
  match s with
  | EmptyString => [EmptyString]
  | String c s' =>
      let r := split_on sep s' in
      if Ascii.eqb c sep then EmptyString :: r
      else String c (hd EmptyString r) :: tl r
  end.

(** The part before the first [sep], and the part after it when there is
    one. *)
Fixpoint cut (sep : ascii) (s : string) : string * option string :=
  match s with
  | EmptyString => (EmptyString, None)
  | String c s' =>
      if Ascii.eqb c sep then (EmptyString, Some s')
      else let (a, b) := cut sep s' in (String c a, b)
  end.

Fixpoint plus_to_space (s : string) : string :=
  match s with
  | EmptyString => EmptyString
  | String c s' =>
      String (if Ascii.eqb c "+" then " "%char else c) (plus_to_space s')
  end.

Definition parse_pair (bytes : string) : string * string :=
  let (name, value) := cut "=" bytes in
  (Percent.decode (plus_to_space name),
   Percent.decode (plus_to_space
                     (match value with Some v => v | None => EmptyString end))).

(** The application/x-www-form-urlencoded parser. *)
Definition parse_urlencoded (input : string) : t :=
  map parse_pair
      (filter (fun bytes => negb (String.eqb bytes EmptyString))
              (split_on "&" input)).

(** [new URLSearchParams(init)] for a string [init]: one leading [?] is
    dropped. *)
Definition parse (init : string) : t :=
  match init with
  | String "?" rest => parse_urlencoded rest
  | _ => parse_urlencoded init
  end.

(** [new URLSearchParams(init)] for a sequence of pairs. *)
Definition of_entries (init : list (string * string)) : t := init.

Definition entries (p : t) : list (string * string) := p.

Definition append (p : t) (name value : string) : t :=
  (p ++ [(name, value)])%list.

Fixpoint encode_component (s : string) : string :=
  match s with
  | EmptyString => EmptyString
  | String c s' =>
      if Ascii.eqb c " " then String "+" (encode_component s')
      else if Percent.urlencoded_set c
           then Percent.encode_byte c ++ encode_component s'
           else String c (encode_component s')
  end.

Definition serialize_pair (e : string * string) : string :=
  encode_component (fst e) ++ "=" ++ encode_component (snd e).

(** [toString]: the application/x-www-form-urlencoded serializer. *)
Definition toString (p : t) : string :=
  String.concat "&" (map serialize_pair p).

End URLSearchParams.

(* ================================================================== *)
(** * [Array.prototype.sort] without a comparator

    Elements are compared by their string conversions, in code-unit order;
    the sort is stable.  The entries sorted by [cleanUrl] are two-element
    arrays [[key, value]], whose string conversion is [key + "," + value]. *)

Module JsArray.

Definition entry : Type := (string * string)%type.

(** [Array.prototype.toString] of [[key, value]]. *)
Definition toString (e : entry) : string := fst e ++ "," ++ snd e.

(** The default comparison puts [x] no later than [y]. *)
Definition le (x y : entry) : bool := String.leb (toString x) (toString y).

Fixpoint insert (x : entry) (l : list entry) : list entry :=
  match l with
  | [] => [x]
  | y :: l' => if le x y then x :: y :: l' else y :: insert x l'
  end.

(** A stable sort: an element goes in front of the elements that came after
    it and do not compare smaller. *)
Definition sort (l : list entry) : list entry := fold_right insert [] l.

End JsArray.

(* ================================================================== *)
(** * The [URL] class (WHATWG URL Standard, sections 4 and 6.1)

    A URL record with a special scheme, no credentials and a domain host:
    scheme, host, port, path segments, query and fragment.  The constructor is
    the basic URL parser without a base URL.  It is modelled on ASCII input
    with scheme [http] or [https] whose host is a plain domain; on the rest
    of what the platform accepts (other schemes, credentials, IP addresses,
    percent-escaped or internationalized hosts, non-ASCII characters, and [^]
    in a path, which platforms treat differently) the model answers
    [OutOfModel] and claims nothing. *)

Module URL.

Record t : Type := mk {
  scheme : string;
  host : string;
  port : option N;
  path : list string;
  query : option string;
  fragment : option string
}.

(** ** Getters *)

Definition decimal (n : N) : string :=
  NilEmpty.string_of_uint (N.to_uint n).

Definition protocol (u : t) : string := scheme u ++ ":".

Definition hostname (u : t) : string := host u.

Definition port_string (u : t) : string :=
  match port u with
  | None => EmptyString
  | Some n => decimal n
  end.

Fixpoint serialize_path (segments : list string) : string :=
  match segments with
  | [] => EmptyString
  | seg :: rest => "/" ++ seg ++ serialize_path rest
  end.

Definition pathname (u : t) : string := serialize_path (path u).

Definition search (u : t) : string :=
  match query u with
  | None => EmptyString
  | Some EmptyString => EmptyString
  | Some q => "?" ++ q
  end.

Definition hash (u : t) : string :=
  match fragment u with
  | None => EmptyString
  | Some EmptyString => EmptyString
  | Some f => "#" ++ f
  end.

(** The URL serializer. *)
Definition href (u : t) : string :=
  scheme u ++ "://" ++ host u
  ++ match port u with
     | None => EmptyString
     | Some n => ":" ++ decimal n
     end
  ++ serialize_path (path u)
  ++ match query u with
     | None => EmptyString
     | Some q => "?" ++ q
     end
  ++ match fragment u with
     | None => EmptyString
     | Some f => "#" ++ f
     end.

(** ** Schemes and ports *)

Definition special_schemes : list (string * option N) :=
  [ ("ftp", Some 21%N); ("file", None); ("http", Some 80%N);
    ("https", Some 443%N); ("ws", Some 80%N); ("wss", Some 443%N) ].

Fixpoint assoc {A : Type} (k : string) (l : list (string * A)) : option A :=
  match l with
  | [] => None
  | (k', v) :: l' => if String.eqb k k' then Some v else assoc k l'
  end.

Definition is_special (s : string) : bool :=
  match assoc s special_schemes with Some _ => true | None => false end.

Definition default_port (s : string) : option N :=
  match assoc s special_schemes with Some p => p | None => None end.

Definition is_default_port (s : string) (p : option N) : bool :=
  match p, default_port s with
  | Some n, Some d => N.eqb n d
  | _, _ => false
  end.

Definition is_alpha (c : ascii) : bool :=
  let n := nat_of_ascii c in
  ((65 <=? n) && (n <=? 90)) || ((97 <=? n) && (n <=? 122)).

Definition is_digit (c : ascii) : bool :=
  let n := nat_of_ascii c in (48 <=? n) && (n <=? 57).

Definition is_scheme_char (c : ascii) : bool :=
  is_alpha c || is_digit c || Percent.code_in [43; 45; 46] c.

(** Scheme start state and scheme state: an ASCII letter, then letters,
    digits, [+], [-] and [.] up to a colon.  The result is the lower-cased
    scheme and what follows the colon. *)
Definition scheme_state (s : string) : option (string * string) :=
  match s with
  | String c _ =>
      if is_alpha c then
        match Str.span is_scheme_char s with
        | (buffer, String ":" rest) => Some (Str.toLowerCase buffer, rest)
        | _ => None
        end
      else None
  | EmptyString => None
  end.

(** Port state: decimal digits, at most 65535. *)
Fixpoint port_value (s : string) (acc : N) : option N :=
  match s with
  | EmptyString => Some acc
  | String c s' =>
      if is_digit c then
        let acc' := (acc * 10 + N.of_nat (nat_of_ascii c - 48))%N in
        if (65535 <? acc')%N then None else port_value s' acc'
      else None
  end.

(** ** The host parser *)

Inductive host_result : Type :=
| HostOk (h : string)
| HostFailure
| HostOutOfModel.

Definition forbidden_host_code_point (c : ascii) : bool :=
  Percent.code_in [0; 9; 10; 13; 32; 35; 47; 58; 60; 62; 63; 64;
                   91; 92; 93; 94; 124] c.

Definition forbidden_domain_code_point (c : ascii) : bool :=
  forbidden_host_code_point c || (nat_of_ascii c <? 32)
  || Percent.code_in [37; 127] c.

Definition is_hex_digit (c : ascii) : bool :=
  match Percent.hex_value c with Some _ => true | None => false end.

(** The last label reads as a number: decimal digits, or [0x] and
    hexadecimal digits. *)
Definition numeric_label (l : string) : bool :=
  (negb (String.eqb l EmptyString) && Str.forallb is_digit l)
  || (Str.startsWith l "0x" && Str.forallb is_hex_digit (Str.drop 2 l)).

(** The ends-in-a-number checker, on the labels of a lower-cased domain. *)
Definition ends_in_number (labels : list string) : bool :=
  match rev labels with
  | EmptyString :: l :: _ => numeric_label l
  | EmptyString :: [] => false
  | l :: _ => numeric_label l
  | [] => false
  end.

Definition ascii_only (s : string) : bool :=
  Str.forallb (fun c => nat_of_ascii c <? 128) s.

(** The host parser for a special scheme.  An ASCII domain without
    percent-escapes and punycode labels is lower-cased and checked for
    forbidden code points. *)
Definition host_parse (input : string) : host_result :=
  if Str.startsWith input "[" || Str.includes input "%"
     || negb (ascii_only input) then HostOutOfModel
  else
    let domain := Str.toLowerCase input in
    let labels := URLSearchParams.split_on "." domain in
    if existsb (fun l => Str.startsWith l "xn--") labels then HostOutOfModel
    else if String.eqb domain EmptyString then HostFailure
    else if negb (Str.forallb (fun c => negb (forbidden_domain_code_point c))
                              domain) then HostFailure
    else if ends_in_number labels then HostOutOfModel
    else HostOk domain.

(** ** The path state *)

Definition is_single_dot (buffer : string) : bool :=
  Str.has ["."; "%2e"] (Str.toLowerCase buffer).

Definition is_double_dot (buffer : string) : bool :=
  Str.has [".."; ".%2e"; "%2e."; "%2e%2e"] (Str.toLowerCase buffer).

Definition is_slash (c : ascii) : bool :=
  Ascii.eqb c "/" || Ascii.eqb c "\".

(** Strictly split on [/] and [\]. *)
Fixpoint split_slashes (s : string) : list string :=
  match s with
  | EmptyString => [EmptyString]
  | String c s' =>
      let r := split_slashes s' in
      if is_slash c then EmptyString :: r
      else String c (hd EmptyString r) :: tl r
  end.

(** The path state over the buffers between separators; the last buffer is
    the one ended by the end of the input. *)
Fixpoint path_state (buffers : list string) (acc : list string) : list string :=
  match buffers with
  | [] => acc
  | raw :: rest =>
      let buffer := Percent.encode Percent.path_set raw in
      let at_end := match rest with [] => true | _ => false end in
      if is_double_dot buffer then
        path_state rest
          (if at_end then (removelast acc ++ [EmptyString])%list
           else removelast acc)
      else if is_single_dot buffer then
        path_state rest (if at_end then (acc ++ [EmptyString])%list else acc)
      else path_state rest (acc ++ [buffer])%list
  end.

(** Path start state and path state: one leading separator is consumed. *)
Definition path_parse (input : string) : list string :=
  match input with
  | String c rest =>
      if is_slash c then path_state (split_slashes rest) []
      else path_state (split_slashes input) []
  | EmptyString => path_state [EmptyString] []
  end.

(** ** The constructor *)

Inductive parse_result : Type :=
| ParseOk (u : t)
| ParseFailure
| ParseOutOfModel.

Definition is_c0_or_space (c : ascii) : bool := nat_of_ascii c <=? 32.

Fixpoint ltrim (s : string) : string :=
  match s with
  | String c s' => if is_c0_or_space c then ltrim s' else s
  | EmptyString => EmptyString
  end.

Fixpoint rtrim (s : string) : string :=
  match s with
  | EmptyString => EmptyString
  | String c s' =>
      match rtrim s' with
      | EmptyString => if is_c0_or_space c then EmptyString else String c EmptyString
      | r => String c r
      end
  end.

Definition is_tab_or_newline (c : ascii) : bool :=
  Percent.code_in [9; 10; 13] c.

Fixpoint remove_tab_newline (s : string) : string :=
  match s with
  | EmptyString => EmptyString
  | String c s' =>
      if is_tab_or_newline c then remove_tab_newline s'
      else String c (remove_tab_newline s')
  end.

Fixpoint skip_slashes (s : string) : string :=
  match s with
  | String c s' => if is_slash c then skip_slashes s' else s
  | EmptyString => EmptyString
  end.

Definition authority_end (c : ascii) : bool :=
  is_slash c || Ascii.eqb c "?" || Ascii.eqb c "#".

(** A name or value that [URLSearchParams] reads from the query and that
holds a byte above 127 is decoded as UTF-8; such queries are left out. *)
Definition query_in_model (q : string) : bool :=
forallb (fun e : string * string => ascii_only (fst e) && ascii_only (snd e))
        (URLSearchParams.parse_urlencoded q).

(** Query state and fragment state. *)
Definition query_fragment (s : string) : option string * option string :=
  match s with
  | String "?" rest =>
      let (q, f) := URLSearchParams.cut "#" rest in
      (Some (Percent.encode Percent.special_query_set q),
       option_map (Percent.encode Percent.fragment_set) f)
  | String "#" f => (None, Some (Percent.encode Percent.fragment_set f))
  | _ => (None, None)
  end.

(** [new URL(input)]. *)
Definition parse (input : string) : parse_result :=
  let input := remove_tab_newline (rtrim (ltrim input)) in
  match scheme_state input with
  | None => ParseFailure
  | Some (scheme, rest) =>
      if negb (String.eqb scheme "http" || String.eqb scheme "https")
         || negb (ascii_only input)
      then ParseOutOfModel
      else
        let (authority, rest) :=
          Str.span (fun c => negb (authority_end c)) (skip_slashes rest) in
        if Str.includes authority "@" then ParseOutOfModel
        else
          let (hostname, port) := URLSearchParams.cut ":" authority in
          if String.eqb hostname EmptyString then ParseFailure
          else
            match host_parse hostname with
            | HostOutOfModel => ParseOutOfModel
            | HostFailure => ParseFailure
            | HostOk host =>
                match port_value
                        (match port with Some p => p | None => EmptyString end)
                        0%N with
                | None => ParseFailure
                | Some n =>
                    let port :=
                      match port with
                      | None | Some EmptyString => None
                      | Some _ =>
                          if is_default_port scheme (Some n) then None
                          else Some n
                      end in
                    let (p, rest) :=
                      Str.span (fun c => negb (Ascii.eqb c "?" || Ascii.eqb c "#"))
                               rest in
                    let (query, fragment) := query_fragment rest in
                    if Str.includes p "^"
                       || negb (query_in_model
                                  (match query with Some q => q | None => EmptyString end))
                    then ParseOutOfModel
                    else ParseOk (mk scheme host port (path_parse p) query fragment)
                end
            end
  end.

(** ** Setters *)

(** [url.protocol = value]: the scheme state with a state override. *)
Definition set_protocol (u : t) (value : string) : t :=
  match scheme_state (remove_tab_newline value ++ ":") with
  | None => u
  | Some (buffer, _) =>
      if negb (Bool.eqb (is_special (scheme u)) (is_special buffer)) then u
      else if String.eqb buffer "file"
              && match port u with Some _ => true | None => false end then u
      else if String.eqb (scheme u) "file" && String.eqb (host u) EmptyString
      then u
      else mk buffer (host u)
              (if is_default_port buffer (port u) then None else port u)
              (path u) (query u) (fragment u)
  end.

(** [url.hostname = value]: the hostname state with a state override.  The
    result is [None] where the host parser is out of the model. *)
Definition set_hostname (u : t) (value : string) : option t :=
  let (buffer, rest) :=
    Str.span (fun c => negb (authority_end c || Ascii.eqb c ":"))
             (remove_tab_newline value) in
  if Str.startsWith rest ":" then Some u
  else if String.eqb buffer EmptyString then Some u
  else
    match host_parse buffer with
    | HostOutOfModel => None
    | HostFailure => Some u
    | HostOk h => Some (mk (scheme u) h (port u) (path u) (query u) (fragment u))
    end.

(** [url.port = value]: the port state with a state override. *)
Definition set_port (u : t) (value : string) : t :=
  if String.eqb value EmptyString
  then mk (scheme u) (host u) None (path u) (query u) (fragment u)
  else
    let (digits, _) := Str.span is_digit (remove_tab_newline value) in
    if String.eqb digits EmptyString then u
    else
      match port_value digits 0%N with
      | None => u
      | Some n =>
          mk (scheme u) (host u)
             (if is_default_port (scheme u) (Some n) then None else Some n)
             (path u) (query u) (fragment u)
      end.

(** [url.search = value]: the query state with a state override. *)
Definition set_search (u : t) (value : string) : t :=
  if String.eqb value EmptyString
  then mk (scheme u) (host u) (port u) (path u) None (fragment u)
  else
    let input := match value with String "?" rest => rest | _ => value end in
    mk (scheme u) (host u) (port u) (path u)
       (Some (Percent.encode Percent.special_query_set (remove_tab_newline input)))
       (fragment u).

(** [url.hash = value]: the fragment state with a state override. *)
Definition set_hash (u : t) (value : string) : t :=
  if String.eqb value EmptyString
  then mk (scheme u) (host u) (port u) (path u) (query u) None
  else
    let input := match value with String "#" rest => rest | _ => value end in
    mk (scheme u) (host u) (port u) (path u) (query u)
       (Some (Percent.encode Percent.fragment_set (remove_tab_newline input))).

(** [url.pathname = value]: the path start state with a state override. *)
Definition set_pathname (u : t) (value : string) : t :=
  mk (scheme u) (host u) (port u) (path_parse (remove_tab_newline value))
     (query u) (fragment u).

End URL.

(* ================================================================== *)
(** * [src/lib/urls.js]: [canUseHttps] and [cleanUrl] *)

(** The [options] argument: an object on which any of the flags may be
    missing. *)
Record Options : Type := {
  opt_tryHttps : option bool;
  opt_removeWww : option bool;
  opt_removeTrailingSlash : option bool;
  opt_removeFragment : option bool;
  opt_removeTracking : option bool;
  opt_sortParams : option bool;
  opt_removeEmptyParams : option bool;
  opt_removeDefaultPorts : option bool
}.

(** The object [{}]. *)
Definition no_options : Options :=
  Build_Options None None None None None None None None.

(** The flags, once destructured. *)
Record Flags : Type := {
  tryHttps : bool;
  removeWww : bool;
  removeTrailingSlash : bool;
  removeFragment : bool;
  removeTracking : bool;
  sortParams : bool;
  removeEmptyParams : bool;
  removeDefaultPorts : bool
}.

Definition or_default (d : bool) (v : option bool) : bool :=
  match v with Some b => b | None => d end.

(** [const { tryHttps = true, ... } = options], where [options = {}] when
    the argument is missing. *)
Definition destructure (options : option Options) : Flags :=
  let options := match options with Some o => o | None => no_options end in
  {| tryHttps := or_default true (opt_tryHttps options);
     removeWww := or_default true (opt_removeWww options);
     removeTrailingSlash := or_default true (opt_removeTrailingSlash options);
     removeFragment := or_default true (opt_removeFragment options);
     removeTracking := or_default true (opt_removeTracking options);
     sortParams := or_default true (opt_sortParams options);
     removeEmptyParams := or_default true (opt_removeEmptyParams options);
     removeDefaultPorts := or_default true (opt_removeDefaultPorts options) |}.

Record CleaningResult : Type := {
  original : string;
  cleaned : string;
  changes : list string
}.

(** What a call of [cleanUrl] comes to: the promise is fulfilled with a
    result or rejected with an [Error]; [OutOfModel] stands for the inputs on
    which the model of the platform is silent. *)
Inductive outcome : Type :=
| Returned (r : CleaningResult)
| Thrown (message : string)
| OutOfModel.

(** The local variables [url] and [changes]. *)
Record state : Type := {
  url : URL.t;
  log : list string
}.

Definition push (st : state) (u : URL.t) (change : string) : state :=
  {| url := u; log := (log st ++ [change])%list |}.

(** A string used as a condition is true when it is not empty. *)
Definition truthy (s : string) : bool := negb (String.eqb s EmptyString).

(** [s.replace(/^http:/, "https:")]. *)
Definition replace_http (s : string) : string :=
  if Str.startsWith s "http:" then "https:" ++ Str.drop 5 s else s.

(** [s.replace(/^www\./, "")]. *)
Definition replace_www (s : string) : string :=
  if Str.startsWith s "www." then Str.drop 4 s else s.

(** [s.replace(/\/+/g, "/")]: [after_slash] tells that the character before
    was a [/] of the same run. *)
Fixpoint replace_slashes_from (after_slash : bool) (s : string) : string :=
  match s with
  | EmptyString => EmptyString
  | String c s' =>
      if Ascii.eqb c "/" then
        if after_slash then replace_slashes_from true s'
        else String "/" (replace_slashes_from true s')
      else String c (replace_slashes_from false s')
  end.

Definition replace_slashes (s : string) : string := replace_slashes_from false s.

Section Canonicalizer.

(** [fetch(url, {method: "HEAD", timeout: 5000, redirect: "follow"})]:
    [Some ok] when the promise is fulfilled with a response whose [ok]
    property is [ok], [None] when it is rejected (time-out, connection
    error, malformed response). *)
Variable fetch : string -> option bool.

Definition canUseHttps (u : string) : bool :=
  let httpsUrl := replace_http u in
  match fetch httpsUrl with
  | Some ok => ok
  | None => false
  end.

Variable o : Flags.

(** Try HTTPS upgrade if requested and currently using HTTP. *)
Definition upgrade_https (st : state) : state :=
  if tryHttps o && String.eqb (URL.protocol (url st)) "http:" then
    let httpsAvailable := canUseHttps (URL.href (url st)) in
    if httpsAvailable
    then push st (URL.set_protocol (url st) "https:") "Upgraded to HTTPS"
    else st
  else st.

(** Remove www if requested. *)
Definition remove_www (st : state) : option state :=
  if removeWww o && Str.startsWith (URL.hostname (url st)) "www." then
    match URL.set_hostname (url st) (replace_www (URL.hostname (url st))) with
    | Some u => Some (push st u "Removed www prefix")
    | None => None
    end
  else Some st.

(** Remove default ports. *)
Definition remove_default_port (st : state) : state :=
  if removeDefaultPorts o then
    if (String.eqb (URL.protocol (url st)) "http:"
        && String.eqb (URL.port_string (url st)) "80")
       || (String.eqb (URL.protocol (url st)) "https:"
           && String.eqb (URL.port_string (url st)) "443")
    then push st (URL.set_port (url st) "") "Removed default port"
    else st
  else st.

Definition shouldRemove (key : string) : bool :=
  removeTracking o
  && (Str.has PARAMS_TO_REMOVE (Str.toLowerCase key) || looksLikeTracking key).

(** The body of the loop over [searchParams.entries()]. *)
Definition keep_entry (cleanedParams : URLSearchParams.t)
           (e : string * string) : URLSearchParams.t :=
  let (key, value) := e in
  if negb (shouldRemove key) then
    if negb (removeEmptyParams o) || (0 <? String.length value)
    then URLSearchParams.append cleanedParams key value
    else cleanedParams
  else cleanedParams.

(** Clean up search parameters. *)
Definition clean_search (st : state) : state :=
  if truthy (URL.search (url st)) then
    let searchParams := URLSearchParams.parse (URL.search (url st)) in
    let originalParamCount :=
      String.length (URLSearchParams.toString searchParams) in
    let cleanedParams :=
      fold_left keep_entry (URLSearchParams.entries searchParams) [] in
    let u :=
      if sortParams o then
        let sortedParams :=
          URLSearchParams.of_entries
            (JsArray.sort (URLSearchParams.entries cleanedParams)) in
        URL.set_search (url st) (URLSearchParams.toString sortedParams)
      else URL.set_search (url st) (URLSearchParams.toString cleanedParams) in
    if negb (String.length (URL.search u) =? originalParamCount)
    then push st u "Removed tracking parameters"
    else {| url := u; log := log st |}
  else st.

(** Remove fragment if requested. *)
Definition remove_fragment (st : state) : state :=
  if removeFragment o && truthy (URL.hash (url st))
  then push st (URL.set_hash (url st) "") "Removed URL fragment"
  else st.

(** Normalize path and remove trailing slash if requested. *)
Definition normalize_path (st : state) : state :=
  let path := URL.pathname (url st) in
  if negb (String.eqb path "/") then
    let path := replace_slashes path in
    let path :=
      if removeTrailingSlash o && Str.endsWith path "/"
      then Str.slice_0_m1 path else path in
    if negb (String.eqb path (URL.pathname (url st)))
    then push st (URL.set_pathname (url st) path) "Normalized path"
    else st
  else st.

(** The body of [cleanUrl] after the URL has been parsed. *)
Definition clean_parsed (u : URL.t) : option state :=
  let st := {| url := u; log := [] |} in
  let st := upgrade_https st in
  match remove_www st with
  | None => None
  | Some st =>
      let st := remove_default_port st in
      let st := clean_search st in
      let st := remove_fragment st in
      Some (normalize_path st)
  end.

End Canonicalizer.

Definition cleanUrl (fetch : string -> option bool) (inputUrl : string)
           (options : option Options) : outcome :=
  let o := destructure options in
  match URL.parse inputUrl with
  | URL.ParseFailure => Thrown ("Invalid URL: " ++ inputUrl)
  | URL.ParseOutOfModel => OutOfModel
  | URL.ParseOk u =>
      let originalUrl := URL.href u in
      match clean_parsed fetch o u with
      | None => OutOfModel
      | Some st =>
          Returned {| original := originalUrl;
                      cleaned := URL.href (url st);
                      changes := log st |}
      end
  end.

(* ================================================================== *)
(** * The specification's reading of the classifier and of the sort *)

(** The structural patterns as the specification lists them: begins with [_];
    ends with [id]; contains [click]; contains [track] or [tracking];
    matches (has an occurrence of) one of the referrer tokens [ref], [refer],
    [referr], [referrer]; contains [campaign]; equals [src]; contains
    [affiliate]; begins with [s_]. *)
Definition matches_structural_pattern (name : string) : bool :=
  Str.startsWith name "_"
  || Str.endsWith name "id"
  || Str.includes name "click"
  || (Str.includes name "track" || Str.includes name "tracking")
  || (Str.includes name "ref" || Str.includes name "refer"
      || Str.includes name "referr" || Str.includes name "referrer")
  || Str.includes name "campaign"
  || String.eqb name "src"
  || Str.includes name "affiliate"
  || Str.startsWith name "s_".

(** Some suffix of [s] satisfies [f]. *)
Fixpoint any_suffix (f : string -> bool) (s : string) : bool :=
  f s ||
  match s with
  | EmptyString => false
  | String _ s' => any_suffix f s'
  end.

(** The iteration of [RegExp.m] on [Star r], by itself. *)
Definition star_loop (r : regex) (k : cont) : nat -> bool -> string -> bool :=
  fix star (fuel : nat) (bos : bool) (s : string) {struct fuel} : bool :=
    match fuel with
    | O => k bos s
    | S fuel' =>
        m r (fun bos' s' =>
               (String.length s' <? String.length s) && star fuel' bos' s')
          bos s
        || k bos s
    end.

(** A continuation that does not look at the start-of-input flag. *)
Definition blind (k : cont) : Prop := forall b b' t, k b t = k b' t.

(* ================================================================== *)
(** * Well-formed URL records

    What the constructor builds and the setters keep: a lower-case domain
    without forbidden code points, a port that is not the default one, path
    segments, query and fragment already percent-encoded. *)

Definition all_ascii : list ascii := map ascii_of_nat (seq 0 256).

Definition host_char (c : ascii) : bool :=
  negb (URL.forbidden_domain_code_point c)
  && (nat_of_ascii c <? 128)
  && Ascii.eqb (Str.lower_char c) c.

Definition wf_host (h : string) : bool :=
  negb (String.eqb h EmptyString)
  && Str.forallb host_char h
  && negb (existsb (fun l => Str.startsWith l "xn--")
                   (URLSearchParams.split_on "." h))
  && negb (URL.ends_in_number (URLSearchParams.split_on "." h)).

Definition wf_port (scheme : string) (p : option N) : bool :=
  match p with
  | None => true
  | Some n => (n <=? 65535)%N && negb (URL.is_default_port scheme p)
  end.

Definition segment_char (c : ascii) : bool :=
  negb (Percent.path_set c) && negb (URL.is_slash c).

Definition wf_segment (seg : string) : bool :=
  Str.forallb segment_char seg
  && negb (URL.is_single_dot seg) && negb (URL.is_double_dot seg).

Definition query_char (c : ascii) : bool := negb (Percent.special_query_set c).

Definition wf_query (q : option string) : bool :=
  match q with
  | None => true
  | Some q => Str.forallb query_char q && URL.query_in_model q
  end.

Definition fragment_char (c : ascii) : bool := negb (Percent.fragment_set c).

Definition wf_fragment (f : option string) : bool :=
  match f with
  | None => true
  | Some f => Str.forallb fragment_char f
  end.

Definition wf (u : URL.t) : bool :=
  (String.eqb (URL.scheme u) "http" || String.eqb (URL.scheme u) "https")
  && wf_host (URL.host u)
  && wf_port (URL.scheme u) (URL.port u)
  && match URL.path u with [] => false | _ :: _ => true end
  && forallb wf_segment (URL.path u)
  && wf_query (URL.query u)
  && wf_fragment (URL.fragment u).

(* ================================================================== *)
(** * What the steps of [cleanUrl] come to on a well-formed URL *)

(** The HTTPS upgrade happens when it is asked for, the scheme is [http] and
    the probe succeeds; it drops a port 443. *)
Definition upgrades (fetch : string -> option bool) (o : Flags) (u : URL.t)
  : bool :=
  tryHttps o && String.eqb (URL.scheme u) "http"
  && canUseHttps fetch (URL.href u).

Definition upgraded (u : URL.t) : URL.t :=
  URL.mk "https" (URL.host u)
         (if URL.is_default_port "https" (URL.port u) then None else URL.port u)
         (URL.path u) (URL.query u) (URL.fragment u).

(** The first label is dropped when it is [www] and something follows. *)
Definition strips_www (o : Flags) (u : URL.t) : bool :=
  removeWww o && Str.startsWith (URL.host u) "www.".

Definition stripped (u : URL.t) : URL.t :=
  if String.eqb (Str.drop 4 (URL.host u)) EmptyString then u
  else URL.mk (URL.scheme u) (Str.drop 4 (URL.host u)) (URL.port u)
              (URL.path u) (URL.query u) (URL.fragment u).

(** The pairs that the loop over the parameters keeps. *)
Definition keeps (o : Flags) (e : string * string) : bool :=
  negb (shouldRemove o (fst e))
  && (negb (removeEmptyParams o) || (0 <? String.length (snd e))).

Definition cleaned_entries (o : Flags) (q : string) : list (string * string) :=
  let kept := filter (keeps o) (URLSearchParams.parse_urlencoded q) in
  if sortParams o then JsArray.sort kept else kept.

(** The query after the parameters have been cleaned up. *)
Definition cleaned_query (o : Flags) (q : option string) : option string :=
  match q with
  | None => None
  | Some EmptyString => Some EmptyString
  | Some q =>
      let s := URLSearchParams.toString (cleaned_entries o q) in
      if String.eqb s EmptyString then None else Some s
  end.

(** The characters that the serializer of [URLSearchParams] writes. *)
Definition form_char (c : ascii) : bool :=
  Percent.alphanumeric c || Percent.code_in [42; 45; 46; 95; 43; 37; 61; 38] c.

(** Empty segments are dropped, except the last one: what
    [replace(/\/+/g, "/")] does to a serialized path. *)
Fixpoint collapse (segs : list string) : list string :=
  match segs with
  | [] => []
  | s :: rest =>
      match rest with
      | [] => [s]
      | _ :: _ => if String.eqb s EmptyString then collapse rest
                  else s :: collapse rest
      end
  end.

(** The path after the path step. *)
Definition normalized_path (o : Flags) (segs : list string) : list string :=
  let c := collapse segs in
  if removeTrailingSlash o && String.eqb (last c "/") EmptyString
  then match removelast c with [] => [EmptyString] | r => r end
  else c.

Definition slash_free (s : string) : bool :=
  Str.forallb (fun c => negb (Ascii.eqb c "/")) s.

Definition nonempty (s : string) : bool := negb (String.eqb s EmptyString).

(** The fragment after the fragment step. *)
Definition cleaned_fragment (o : Flags) (f : option string) : option string :=
  match f with
  | Some (String _ _) => if removeFragment o then None else f
  | _ => f
  end.

(** The URL that [cleanUrl] serializes as [cleaned]. *)
Definition cleaned_url (fetch : string -> option bool) (o : Flags) (u : URL.t)
  : URL.t :=
  let u1 := if upgrades fetch o u then upgraded u else u in
  let u2 := if strips_www o u1 then stripped u1 else u1 in
  URL.mk (URL.scheme u2) (URL.host u2) (URL.port u2)
         (normalized_path o (URL.path u2))
         (cleaned_query o (URL.query u2))
         (cleaned_fragment o (URL.fragment u2)).

(** The query step logs a change when the length of [url.search], which
    starts with [?], differs from the length of the serialized parameters,
    which does not. *)
Definition search_changed (o : Flags) (q : option string) : bool :=
  match q with
  | Some (String _ _ as q0) =>
      negb (String.length
              (match cleaned_query o q with
               | Some (String _ _ as q') => "?" ++ q'
               | _ => EmptyString
               end)
            =? String.length
                 (URLSearchParams.toString (URLSearchParams.parse_urlencoded q0)))
  | _ => false
  end.

Definition fragment_changed (o : Flags) (f : option string) : bool :=
  match f with
  | Some (String _ _) => removeFragment o
  | _ => false
  end.

Definition path_changed (o : Flags) (segs : list string) : bool :=
  let p := URL.serialize_path segs in
  negb (String.eqb p "/")
  && negb (String.eqb
             (let p1 := replace_slashes p in
              if removeTrailingSlash o && Str.endsWith p1 "/"
              then Str.slice_0_m1 p1 else p1)
             p).

Definition entry_if (b : bool) (change : string) : list string :=
  if b then [change] else [].

(** The change log that [cleanUrl] returns. *)
Definition change_log (fetch : string -> option bool) (o : Flags) (u : URL.t)
  : list string :=
  let u1 := if upgrades fetch o u then upgraded u else u in
  (entry_if (upgrades fetch o u) "Upgraded to HTTPS"
   ++ entry_if (strips_www o u1) "Removed www prefix"
   ++ entry_if (search_changed o (URL.query u)) "Removed tracking parameters"
   ++ entry_if (fragment_changed o (URL.fragment u)) "Removed URL fragment"
   ++ entry_if (path_changed o (URL.path u)) "Normalized path")%list.

(** The sort as the specification words it: stable, by key only. *)
Definition key_le (x y : string * string) : bool := String.leb (fst x) (fst y).

Fixpoint insert_by_key (x : string * string) (l : list (string * string))
  : list (string * string) :=
  match l with
  | [] => [x]
  | y :: l' => if key_le x y then x :: y :: l' else y :: insert_by_key x l'
  end.

Definition stable_sort_by_key (l : list (string * string))
  : list (string * string) :=
  fold_right insert_by_key [] l.

(** The order of [Array.prototype.sort] on the entries, and the entries that
    it cannot tell apart. *)
Definition entry_le (x y : string * string) : Prop := JsArray.le x y = true.

Definition same_string (x e : string * string) : bool :=
  String.eqb (JsArray.toString e) (JsArray.toString x).

(** The characters that the serializer writes for a name or a value. *)
Definition component_char (c : ascii) : bool :=
  Percent.alphanumeric c || Percent.code_in [42; 45; 46; 95; 43; 37] c.

(** [%XX] is decoded into the byte it encodes. *)
Definition escape_decodes (c : ascii) : bool :=
  match Percent.encode_byte c with
  | String p (String h (String l EmptyString)) =>
      Ascii.eqb p "%"
      && match Percent.hex_value h, Percent.hex_value l with
         | Some a, Some b => Ascii.eqb (ascii_of_nat (16 * a + b)) c
         | _, _ => false
         end
  | _ => false
  end.

(** The decimal form of a port is made of digits and is read back. *)
Definition port_ok (n : N) : bool :=
  match URL.port_value (URL.decimal n) 0%N with
  | Some m => N.eqb m n
  | None => false
  end
  && Str.forallb URL.is_digit (URL.decimal n)
  && nonempty (URL.decimal n).

(** [port_ok] on the [count] numbers from [n] on. *)
Fixpoint ports_ok_from (count : nat) (n : N) : bool :=
  match count with
  | O => true
  | S count' => port_ok n && ports_ok_from count' (N.succ n)
  end.

(** The characters of a serialized URL. *)
Definition href_char (c : ascii) : bool :=
  negb (URL.is_c0_or_space c) && negb (URL.is_tab_or_newline c)
  && (nat_of_ascii c <? 128).

Definition port_part (p : option N) : string :=
  match p with
  | None => EmptyString
  | Some n => ":" ++ URL.decimal n
  end.

Definition query_part (q : option string) : string :=
  match q with
  | None => EmptyString
  | Some q => "?" ++ q
  end.

Definition fragment_part (f : option string) : string :=
  match f with
  | None => EmptyString
  | Some f => "#" ++ f
  end.

(** The entries that [cleanUrl] can push, in the order of its steps. *)
Definition change_vocabulary : list string :=
  [ "Upgraded to HTTPS"; "Removed www prefix"; "Removed tracking parameters";
    "Removed URL fragment"; "Normalized path" ].

(** [l] is [m] with some of its elements left out. *)
Fixpoint subsequence (l m : list string) : bool :=
  match l, m with
  | [], _ => true
  | _ :: _, [] => false
  | x :: l', y :: m' =>
      if String.eqb x y then subsequence l' m' else subsequence l m'
  end.

(* ================================================================== *)
(** * [src/unnamed/part_000], [src/unnamed/part_001]: [normalizeUrl]

    The two duplicate detectors share this function, line for line. *)

(** [s.replace(/^https?:\/\//, "")]. *)
Definition replace_scheme (s : string) : string :=
  if Str.startsWith s "https://" then Str.drop 8 s
  else if Str.startsWith s "http://" then Str.drop 7 s
  else s.

(** [s.replace(/\/$/, "")]. *)
Definition replace_last_slash (s : string) : string :=
  if Str.endsWith s "/" then Str.slice_0_m1 s else s.

Definition paramsToRemove : list string :=
  [ "utm_source"; "utm_medium"; "utm_campaign"; "utm_term"; "utm_content";
    "fbclid"; "ref" ].

(** [URLSearchParams.prototype.delete]: every pair of that name goes. *)
Definition searchParams_delete (p : URLSearchParams.t) (name : string)
  : URLSearchParams.t :=
  filter (fun e => negb (String.eqb (fst e) name)) p.

(** The [try] block returns [normalized]; the search parameters are deleted
    on a second URL object, [cleanUrl], that is not read again.  The [catch]
    block returns the argument.  [None] stands for the inputs on which the
    model of the constructor is silent. *)
Definition normalizeUrl (url : string) : option string :=
  match URL.parse url with
  | URL.ParseFailure => Some url
  | URL.ParseOutOfModel => None
  | URL.ParseOk urlObj =>
      let normalized :=
        replace_last_slash (replace_www (replace_scheme (URL.href urlObj))) in
      match URL.parse url with
      | URL.ParseFailure => Some url
      | URL.ParseOutOfModel => None
      | URL.ParseOk cleanUrl =>
          let searchParams := URLSearchParams.parse (URL.search cleanUrl) in
          let searchParams :=
            fold_left searchParams_delete paramsToRemove searchParams in
          let cleanUrl :=
            URL.set_search cleanUrl (URLSearchParams.toString searchParams) in
          Some normalized
      end
  end.

(** What follows the host in a serialized URL. *)
Definition after_host (u : URL.t) : string :=
  port_part (URL.port u) ++ URL.serialize_path (URL.path u)
  ++ query_part (URL.query u) ++ fragment_part (URL.fragment u).


(* ================================================================== *)
(** * Text: trimming and splitting

    The importers read files and titles, whose characters are not all below
    128.  In what follows a character stands for a code unit below 256; the
    functions modelled here work code unit by code unit, and the white space
    of the language has one code unit in that range besides the ASCII ones,
    the no-break space. *)

Module Text.

(** The line feed, [\n]. *)
Definition LF : string := String "010" EmptyString.

(** White space and line terminators: what [trim] strips and [\s]
    matches. *)
Definition is_white_space (c : ascii) : bool :=
  Percent.code_in [9; 10; 11; 12; 13; 32; 160] c.

Fixpoint trimStart (s : string) : string :=
  match s with
  | String c s' => if is_white_space c then trimStart s' else s
  | EmptyString => EmptyString
  end.

Fixpoint trimEnd (s : string) : string :=
  match s with
  | EmptyString => EmptyString
  | String c s' =>
      match trimEnd s' with
      | EmptyString =>
          if is_white_space c then EmptyString else String c EmptyString
      | r => String c r
      end
  end.

(** [String.prototype.trim]. *)
Definition trim (s : string) : string := trimEnd (trimStart s).

(** The lower-case mapping of the code units below 256: the ASCII capitals
    and the capitals from 192 to 222, the multiplication sign left out. *)
Definition lower_char (c : ascii) : ascii :=
  let n := nat_of_ascii c in
  if ((65 <=? n) && (n <=? 90))
     || ((192 <=? n) && (n <=? 222) && negb (n =? 215))
  then ascii_of_nat (n + 32) else c.

(** [String.prototype.toLowerCase]. *)
Fixpoint toLowerCase (s : string) : string :=
  match s with
  | EmptyString => EmptyString
  | String c s' => String (lower_char c) (toLowerCase s')
  end.

(** [s.split(sep)] for a separator that is not empty: the pieces between
    the occurrences of [sep], found from left to right.  [skip] counts the
    characters of an occurrence that are still to be passed over. *)
Fixpoint split_from (sep : string) (skip : nat) (s : string) : list string :=
  match s with
  | EmptyString => [EmptyString]
  | String c s' =>
      match skip with
      | S k => split_from sep k s'
      | O =>
          if Str.startsWith s sep
          then EmptyString :: split_from sep (String.length sep - 1) s'
          else
            let r := split_from sep 0 s' in
            String c (hd EmptyString r) :: tl r
      end
  end.

Definition split (sep s : string) : list string := split_from sep 0 s.

(** The text before the first occurrence of [sep] and the text after it. *)
Fixpoint splitFirst (sep s : string) : option (string * string) :=
  if Str.startsWith s sep then Some (EmptyString, Str.drop (String.length sep) s)
  else
    match s with
    | EmptyString => None
    | String c s' =>
        match splitFirst sep s' with
        | Some (a, b) => Some (String c a, b)
        | None => None
        end
    end.

End Text.

(* ================================================================== *)
(** * [src/miscellany.js]: [markdownToNotionBlocks] *)

(** An item of a [rich_text] array: [{type: "text", text: {content}}], with
    [annotations: {bold: true}] on the key of a pair.  [undefined_text] is
    an item whose content is [undefined]. *)
Inductive rich_text : Type :=
| text (content : string)
| bold_text (content : string)
| undefined_text.

Inductive block : Type :=
| heading_1 (items : list rich_text)
| paragraph (items : list rich_text).

(** [const [key, value] = parts] and the paragraph made of them; a missing
    element is [undefined]. *)
Definition key_value_block (parts : list string) : block :=
  match parts with
  | key :: value :: _ => paragraph [bold_text (key ++ ": "); text value]
  | [key] => paragraph [bold_text (key ++ ": "); undefined_text]
  | [] => paragraph [bold_text ("undefined" ++ ": "); undefined_text]
  end.

(** The body of the loop over the lines. *)
Definition push_line (blocks : list block) (line : string) : list block :=
  let line := Text.trim line in
  if String.eqb line EmptyString then blocks
  else if Str.startsWith line "# "
  then (blocks ++ [heading_1 [text (Str.drop 2 line)]])%list
  else if Str.includes line ": "
  then (blocks
        ++ [key_value_block (map Text.trim (Text.split ": " line))])%list
  else (blocks ++ [paragraph [text line]])%list.

Definition markdownToNotionBlocks (content : string) : list block :=
  fold_left push_line (Text.split Text.LF content) [].

(** A string without a line feed. *)
Definition one_line (s : string) : bool :=
  Str.forallb (fun c => negb (Ascii.eqb c "010")) s.

(** The blocks that the conversion can build: a heading or a paragraph of
    one text that is not empty, or a paragraph of a bold key, which ends
    with [": "], and a value; each text on one line. *)
Definition block_shape (b : block) : bool :=
  match b with
  | heading_1 [text s] => nonempty s && one_line s
  | paragraph [text s] => nonempty s && one_line s
  | paragraph [bold_text k; text v] =>
      Str.endsWith k ": " && one_line k && one_line v
  | _ => false
  end.

Definition blank (line : string) : bool :=
  String.eqb (Text.trim line) EmptyString.

(* ================================================================== *)
(** * The markdown files: [parseMarkdownFile] and the title of a page *)

(** The two groups that [content.match] captures with the pattern of the
    front matter: the input starts with a line [---], a lazy group of any
    characters goes up to the first line [---] that a line feed follows, and
    a greedy group of any characters is the rest of the file.
    [src/bookmarks.js], [src/miscellany.js] and [src/unnamed/part_002] share
    the pattern. *)
Definition frontMatterMatch (content : string) : option (string * string) :=
  if Str.startsWith content ("---" ++ Text.LF)
  then Text.splitFirst (Text.LF ++ "---" ++ Text.LF) (Str.drop 4 content)
  else None.

(** [/\s+[a-f0-9]{32}$/i] matches at the start of [s]: white space, as much
    as there is, then thirty-two hexadecimal digits and the end. *)
Definition id_suffix_here (s : string) : bool :=
  let (ws, rest) := Str.span Text.is_white_space s in
  negb (String.eqb ws EmptyString)
  && (String.length rest =? 32)
  && Str.forallb URL.is_hex_digit rest.

(** [s.replace(/\s+[a-f0-9]{32}$/i, "")]: the leftmost match, which runs to
    the end of [s], is removed. *)
Fixpoint replace_id_suffix (s : string) : string :=
  if id_suffix_here s then EmptyString
  else
    match s with
    | EmptyString => EmptyString
    | String c s' => String c (replace_id_suffix s')
    end.

(** [src/miscellany.js], [createNotionPage]: the content of the title,
    [(data.frontMatter.title || "Untitled").replace(...)], for a title that
    is a string or is missing. *)
Definition title_content (title : option string) : string :=
  replace_id_suffix
    match title with
    | Some (String c t) => String c t
    | _ => "Untitled"
    end.

(* ================================================================== *)
(** * The database: its schema and its pages

    [src/tidy-urls.js], [src/unnamed/part_000] and [src/unnamed/part_001]
    read a database through the client of the service, which is a
    parameter of the model. *)

(** A property of the schema: [property.type] and [property.name]. *)
Record property : Type := {
  property_type : string;
  property_name : string
}.

(** [Object.entries(schema)]: the schema, entry by entry. *)
Definition schema : Type := list (string * property).

(** [{id: propertyId, name: property.name}]. *)
Record urlProp : Type := {
  prop_id : string;
  prop_name : string
}.

(** [src/tidy-urls.js], [findUrlProperties]: the body of the loop over the
    entries, and the loop. *)
Definition push_url_property (urlProps : list urlProp)
           (entry : string * property) : list urlProp :=
  let (propertyId, property) := entry in
  if String.eqb (property_type property) "url"
  then (urlProps
        ++ [{| prop_id := propertyId; prop_name := property_name property |}])%list
  else urlProps.

Definition findUrlProperties (s : schema) : list urlProp :=
  fold_left push_url_property s [].

(** [src/unnamed/part_000], [src/unnamed/part_001]: the first property of
    type [url], or [null]. *)
Fixpoint findUrlProperty (s : schema) : option string :=
  match s with
  | [] => None
  | (propertyId, property) :: rest =>
      if String.eqb (property_type property) "url" then Some propertyId
      else findUrlProperty rest
  end.

(** The [start_cursor] of a query: [undefined] on the first one, then the
    [next_cursor] of the response before, a string or [null]. *)
Inductive cursor : Type :=
| undefined
| null
| cursor_at (c : string).

Record response (page : Type) : Type := {
  results : list page;
  has_more : bool;
  next_cursor : cursor
}.

Arguments results {page}.
Arguments has_more {page}.
Arguments next_cursor {page}.

(** What a call of [getAllPages] comes to: the pages, a rejected promise, or
    a loop that the fuel did not see the end of. *)
Inductive fetched (page : Type) : Type :=
| Fetched (pages : list page)
| Rejected
| OutOfFuel.

Arguments Fetched {page}.
Arguments Rejected {page}.
Arguments OutOfFuel {page}.

Section Pagination.

Variable page : Type.

(** [notion.databases.query({database_id, start_cursor})]: the response, or
    [None] when the promise is rejected. *)
Variable query : string -> cursor -> option (response page).

(** The loop [while (hasMore)] on its variables. *)
Fixpoint getAllPages_loop (fuel : nat) (databaseId : string)
         (pages : list page) (hasMore : bool) (startCursor : cursor)
  : fetched page :=
  if hasMore then
    match fuel with
    | O => OutOfFuel
    | S fuel' =>
        match query databaseId startCursor with
        | None => Rejected
        | Some response =>
            getAllPages_loop fuel' databaseId
                             (pages ++ results response)%list
                             (has_more response) (next_cursor response)
        end
    end
  else Fetched pages.

Definition getAllPages (fuel : nat) (databaseId : string) : fetched page :=
  getAllPages_loop fuel databaseId [] true undefined.

(** The pages that the service lists from a cursor on: the results of the
    response, and those from its [next_cursor] on when it has more. *)
Inductive listing (databaseId : string) : cursor -> list page -> Prop :=
| listing_last (c : cursor) (r : response page) :
    query databaseId c = Some r -> has_more r = false ->
    listing databaseId c (results r)
| listing_more (c : cursor) (r : response page) (l : list page) :
    query databaseId c = Some r -> has_more r = true ->
    listing databaseId (next_cursor r) l ->
    listing databaseId c (results r ++ l)%list.

End Pagination.

(* ================================================================== *)
(** * [src/unnamed/part_001]: [detectDuplicates] *)

(** The value of a property on a page: [title], the [plain_text] of each of
    its items, and [url]; a field that the object does not have is
    [None]. *)
Record property_value : Type := {
  value_title : option (list string);
  value_url : option string
}.

(** A page: [page.id], [page.url] and [page.properties], entry by entry. *)
Record notion_page : Type := {
  page_id : string;
  page_url : string;
  page_properties : list (string * property_value)
}.

(** [{title, pages: [first, second]}]. *)
Record title_duplicate : Type := {
  dup_title : string;
  dup_title_pages : string * string
}.

(** [{originalUrls: [first, second], normalizedUrl, pages: [first,
    second]}]. *)
Record url_duplicate : Type := {
  dup_originalUrls : string * string;
  dup_normalizedUrl : string;
  dup_url_pages : string * string
}.

(** The variables of the scan: the two maps, entry by entry in the order
    they were set, and the two lists of [duplicates]. *)
Record scan : Type := {
  titleMap : list (string * string);
  urlMap : list (string * (string * string));
  dup_titles : list title_duplicate;
  dup_urls : list url_duplicate
}.

(** What a scan comes to: its variables, a [TypeError] on a page that lacks
    the property or its field, or an input of [normalizeUrl] that the model
    of the URL constructor is silent on. *)
Inductive scanned : Type :=
| Scanned (s : scan)
| TypeError
| ScanOutOfModel.

(** [page.properties[titlePropertyId].title.map(text =>
    text.plain_text).join("").toLowerCase().trim()]. *)
Definition titleContent (titlePropertyId : string) (page : notion_page)
  : option string :=
  match URL.assoc titlePropertyId (page_properties page) with
  | None => None
  | Some value =>
      match value_title value with
      | None => None
      | Some items =>
          Some (Text.trim (Text.toLowerCase (String.concat "" items)))
      end
  end.

(** Check title duplicates. *)
Definition scan_title (titlePropertyId : string) (s : scan)
           (page : notion_page) : scanned :=
  match titleContent titlePropertyId page with
  | None => TypeError
  | Some titleContent =>
      if truthy titleContent then
        match URL.assoc titleContent (titleMap s) with
        | Some first =>
            Scanned {| titleMap := titleMap s;
                       urlMap := urlMap s;
                       dup_titles :=
                         (dup_titles s
                          ++ [{| dup_title := titleContent;
                                 dup_title_pages := (first, page_url page) |}])%list;
                       dup_urls := dup_urls s |}
        | None =>
            Scanned {| titleMap :=
                         (titleMap s ++ [(titleContent, page_url page)])%list;
                       urlMap := urlMap s;
                       dup_titles := dup_titles s;
                       dup_urls := dup_urls s |}
        end
      else Scanned s
  end.

(** Check URL duplicates if the URL property exists. *)
Definition scan_url (urlPropertyId : option string) (s : scan)
           (page : notion_page) : scanned :=
  match urlPropertyId with
  | Some (String c i) =>
      match URL.assoc (String c i) (page_properties page) with
      | None => TypeError
      | Some value =>
          match value_url value with
          | Some (String c' u) =>
              let url := String c' u in
              match normalizeUrl url with
              | None => ScanOutOfModel
              | Some normalizedUrl =>
                  match URL.assoc normalizedUrl (urlMap s) with
                  | Some first =>
                      Scanned
                        {| titleMap := titleMap s;
                           urlMap := urlMap s;
                           dup_titles := dup_titles s;
                           dup_urls :=
                             (dup_urls s
                              ++ [{| dup_originalUrls := (fst first, url);
                                     dup_normalizedUrl := normalizedUrl;
                                     dup_url_pages :=
                                       (snd first, page_url page) |}])%list |}
                  | None =>
                      Scanned
                        {| titleMap := titleMap s;
                           urlMap :=
                             (urlMap s
                              ++ [(normalizedUrl, (url, page_url page))])%list;
                           dup_titles := dup_titles s;
                           dup_urls := dup_urls s |}
                  end
              end
          | _ => Scanned s
          end
      end
  | _ => Scanned s
  end.

(** The body of [pages.forEach]. *)
Definition scan_page (titlePropertyId : string)
           (urlPropertyId : option string) (s : scanned)
           (page : notion_page) : scanned :=
  match s with
  | Scanned s =>
      match scan_title titlePropertyId s page with
      | Scanned s => scan_url urlPropertyId s page
      | stop => stop
      end
  | stop => stop
  end.

Definition scan_pages (titlePropertyId : string)
           (urlPropertyId : option string) (pages : list notion_page)
  : scanned :=
  fold_left (scan_page titlePropertyId urlPropertyId) pages
            (Scanned {| titleMap := []; urlMap := [];
                        dup_titles := []; dup_urls := [] |}).

(** The titles that the scan compares: of each page that has one, the
    title in lower case, trimmed. *)
Definition title_keys (titlePropertyId : string) (pages : list notion_page)
  : list string :=
  flat_map
    (fun page =>
       match titleContent titlePropertyId page with
       | Some (String c t) => [String c t]
       | _ => []
       end)
    pages.

(** The URL of a page, when the schema has a URL property and the page a
    URL that is not empty. *)
Definition page_link (urlPropertyId : option string) (page : notion_page)
  : option string :=
  match urlPropertyId with
  | Some (String c i) =>
      match URL.assoc (String c i) (page_properties page) with
      | Some value =>
          match value_url value with
          | Some (String c' u) => Some (String c' u)
          | _ => None
          end
      | None => None
      end
  | _ => None
  end.

(** The URLs that the scan compares: of each page that has one, the
    normalized URL. *)
Definition url_keys (urlPropertyId : option string)
           (pages : list notion_page) : list string :=
  flat_map
    (fun page =>
       match page_link urlPropertyId page with
       | Some url =>
           match normalizeUrl url with
           | Some normalizedUrl => [normalizedUrl]
           | None => []
           end
       | None => []
       end)
    pages.

(** The keys of a map agree with a list of keys: they are the different
    keys of the list, once each, and [dups] counts the other elements of the
    list. *)
Definition counted {V : Type} (map : list (string * V)) (dups : nat)
           (keys : list string) : Prop :=
  NoDup (List.map fst map)
  /\ (forall k, In k (List.map fst map) <-> In k keys)
  /\ dups + List.length map = List.length keys.

(** What the scan has done on the pages [done]. *)
Definition scan_counted (t : string) (u : option string)
           (s : scan) (done : list notion_page) : Prop :=
  counted (titleMap s) (List.length (dup_titles s)) (title_keys t done)
  /\ counted (urlMap s) (List.length (dup_urls s)) (url_keys u done).

(* ================================================================== *)
(** * [src/tidy-urls.js]: [processNotionUrls], the loop over the pages

    The pages of a database are processed in batches.  A batch starts one
    asynchronous closure for each page and URL property and waits for all of
    them.  A closure runs in segments, from one [await] to the next, and the
    segments of the closures of a batch are interleaved.  What a segment does
    to the counters and what it asks of the service is a list of actions;
    what is written to the console is left out. *)

Definition CLEANING_OPTIONS : Options :=
  Build_Options (Some true) (Some true) (Some true) (Some true)
                (Some true) (Some true) (Some true) (Some true).

Record stats : Type := {
  totalDatabases : nat;
  totalPages : nat;
  totalUrlsProcessed : nat;
  totalUrlsChanged : nat;
  errors : nat
}.

Inductive action : Type :=
| count_processed                                   (* stats.totalUrlsProcessed++ *)
| count_changed                                     (* stats.totalUrlsChanged++ *)
| count_error                                       (* stats.errors++ *)
| update_page (pageId propertyId newUrl : string).   (* notion.pages.update *)

Definition apply_action (s : stats) (a : action) : stats :=
  match a with
  | count_processed =>
      {| totalDatabases := totalDatabases s; totalPages := totalPages s;
         totalUrlsProcessed := S (totalUrlsProcessed s);
         totalUrlsChanged := totalUrlsChanged s; errors := errors s |}
  | count_changed =>
      {| totalDatabases := totalDatabases s; totalPages := totalPages s;
         totalUrlsProcessed := totalUrlsProcessed s;
         totalUrlsChanged := S (totalUrlsChanged s); errors := errors s |}
  | count_error =>
      {| totalDatabases := totalDatabases s; totalPages := totalPages s;
         totalUrlsProcessed := totalUrlsProcessed s;
         totalUrlsChanged := totalUrlsChanged s; errors := S (errors s) |}
  | update_page _ _ _ => s
  end.

(** The counters after a run of actions. *)
Definition tally (trace : list action) (s : stats) : stats :=
  fold_left apply_action trace s.

(** The updates that a run of actions asks for. *)
Definition updates (trace : list action) : list (string * string * string) :=
  flat_map
    (fun a =>
       match a with
       | update_page pageId propertyId newUrl => [(pageId, propertyId, newUrl)]
       | _ => []
       end)
    trace.

Fixpoint sequence {A : Type} (l : list (option A)) : option (list A) :=
  match l with
  | [] => Some []
  | x :: rest =>
      match x, sequence rest with
      | Some a, Some r => Some (a :: r)
      | _, _ => None
      end
  end.

(** [batch.flatMap((page) => urlProperties.map((prop) => ...))]: the pairs
    that the closures are started on, in the order they are started. *)
Definition links (urlProperties : list urlProp) (batch : list notion_page)
  : list (notion_page * urlProp) :=
  flat_map (fun page => List.map (fun prop => (page, prop)) urlProperties)
           batch.

(** The batches of the loop [for (let i = 0; i < pages.length; i +=
    batchSize)], each [pages.slice(i, i + batchSize)]; [pages] is what is
    left from [i] on.  [None] when the fuel does not see the end of the
    loop. *)
Fixpoint batches (fuel batchSize : nat) (pages : list notion_page)
  : option (list (list notion_page)) :=
  match pages with
  | [] => Some []
  | _ :: _ =>
      match fuel with
      | O => None
      | S fuel' =>
          match batches fuel' batchSize (skipn batchSize pages) with
          | Some rest => Some (firstn batchSize pages :: rest)
          | None => None
          end
      end
  end.

(** The segments of closures, interleaved: any closure that has a segment
    left may run it next.  The runtime picks one of these orders; what is
    proved of all of them holds of the one it picks. *)
Inductive interleaved : list (list (list action)) -> list action -> Prop :=
| interleaved_done (closures : list (list (list action))) :
    Forall (fun c => c = []) closures -> interleaved closures []
| interleaved_step (before : list (list (list action)))
                   (segment : list action) (c : list (list action))
                   (after : list (list (list action)))
                   (trace : list action) :
    interleaved (before ++ c :: after) trace ->
    interleaved (before ++ (segment :: c) :: after) (segment ++ trace).

Section Tidy.

Variable fetch : string -> option bool.

(** [notion.pages.update] on a page, a property and a URL: whether the
    promise is fulfilled. *)
Variable update_ok : string -> string -> string -> bool.

Variable dryRun : bool.

(** [page.properties[prop.id]?.url]. *)
Definition currentUrl (page : notion_page) (prop : urlProp) : option string :=
  match URL.assoc (prop_id prop) (page_properties page) with
  | Some value => value_url value
  | None => None
  end.

(** The closure on a page and a property, segment by segment: up to
    [await cleanUrl], then up to [await updatePageUrl], then the rest.
    [None] stands for a URL on which the model of [cleanUrl] is silent. *)
Definition closure (link : notion_page * urlProp)
  : option (list (list action)) :=
  let (page, prop) := link in
  match currentUrl page prop with
  | Some (String c u) =>
      let currentUrl := String c u in
      match cleanUrl fetch currentUrl (Some CLEANING_OPTIONS) with
      | OutOfModel => None
      | Thrown _ => Some [[count_processed]; [count_error]]
      | Returned result =>
          if negb (String.eqb (cleaned result) currentUrl) then
            if negb dryRun then
              Some [ [count_processed];
                     [count_changed;
                      update_page (page_id page) (prop_id prop)
                                  (cleaned result)];
                     if update_ok (page_id page) (prop_id prop)
                                  (cleaned result)
                     then [] else [count_error] ]
            else Some [[count_processed]; [count_changed]]
          else Some [[count_processed]; []]
      end
  | _ => Some []
  end.

(** The runs of actions of the loop over the batches. *)
Inductive page_loop (urlProperties : list urlProp)
  : list (list notion_page) -> list action -> Prop :=
| page_loop_end : page_loop urlProperties [] []
| page_loop_batch (batch : list notion_page)
                  (rest : list (list notion_page))
                  (closures : list (list (list action)))
                  (trace trace' : list action) :
    sequence (List.map closure (links urlProperties batch)) = Some closures ->
    interleaved closures trace ->
    page_loop urlProperties rest trace' ->
    page_loop urlProperties (batch :: rest) (trace ++ trace')%list.

(** The runs of actions of the loop over the pages of a database. *)
Definition process_pages (fuel batchSize : nat) (urlProperties : list urlProp)
           (pages : list notion_page) (trace : list action) : Prop :=
  exists bs, batches fuel batchSize pages = Some bs
             /\ page_loop urlProperties bs trace.

(** A link whose URL is not empty. *)
Definition has_url (link : notion_page * urlProp) : bool :=
  match currentUrl (fst link) (snd link) with
  | Some (String _ _) => true
  | _ => false
  end.

(** A link whose URL is cleaned into another string. *)
Definition is_changed (link : notion_page * urlProp) : bool :=
  match currentUrl (fst link) (snd link) with
  | Some (String c u) =>
      match cleanUrl fetch (String c u) (Some CLEANING_OPTIONS) with
      | Returned result => negb (String.eqb (cleaned result) (String c u))
      | _ => false
      end
  | _ => false
  end.

(** A link whose URL is not valid, or whose update fails. *)
Definition is_error (link : notion_page * urlProp) : bool :=
  match currentUrl (fst link) (snd link) with
  | Some (String c u) =>
      match cleanUrl fetch (String c u) (Some CLEANING_OPTIONS) with
      | Returned result =>
          negb (String.eqb (cleaned result) (String c u))
          && negb dryRun
          && negb (update_ok (page_id (fst link)) (prop_id (snd link))
                             (cleaned result))
      | Thrown _ => true
      | OutOfModel => false
      end
  | _ => false
  end.

(** The counters after the closure of a link has run. *)
Definition bump (s : stats) (link : notion_page * urlProp) : stats :=
  {| totalDatabases := totalDatabases s;
     totalPages := totalPages s;
     totalUrlsProcessed := totalUrlsProcessed s + Nat.b2n (has_url link);
     totalUrlsChanged := totalUrlsChanged s + Nat.b2n (is_changed link);
     errors := errors s + Nat.b2n (is_error link) |}.

(** The update that the closure of a link asks for. *)
Definition update_of (link : notion_page * urlProp)
  : list (string * string * string) :=
  match currentUrl (fst link) (snd link) with
  | Some (String c u) =>
      match cleanUrl fetch (String c u) (Some CLEANING_OPTIONS) with
      | Returned result =>
          if negb (String.eqb (cleaned result) (String c u)) && negb dryRun
          then [(page_id (fst link), prop_id (snd link), cleaned result)]
          else []
      | _ => []
      end
  | _ => []
  end.

End Tidy.

(** A page with one property, [URL], for the examples. *)
Definition example_property : urlProp :=
  {| prop_id := "URL"; prop_name := "URL" |}.

Definition example_page (id url : string) : notion_page :=
  {| page_id := id;
     page_url := "https://www.notion.so/" ++ id;
     page_properties :=
       [("URL", {| value_title := None; value_url := Some url |})] |}.

Definition count_if {A : Type} (f : A -> bool) (l : list A) : nat :=
  List.length (filter f l).

(** [src/bookmarks.js] and [src/unnamed/part_002], [parseMarkdownFile]: the
    URL of a bookmark, [markdownContent.trim().split("\n")[0]]. *)
Definition bookmark_url (markdownContent : string) : string :=
  hd EmptyString (Text.split Text.LF (Text.trim markdownContent)).

(* ================================================================== *)
(** * Facts about strings and patterns *)

Lemma m_Star (r : regex) (k : cont) (bos : bool) (s : string) :
  m (Star r) k bos s = star_loop r k (S (String.length s)) bos s.
Proof. reflexivity. Qed.

Lemma m_Seq (r1 r2 : regex) (k : cont) :
  m (Seq r1 r2) k = m r1 (m r2 k).
Proof. reflexivity. Qed.

Lemma includes_any_suffix (p s : string) :
  Str.includes s p = any_suffix (fun t => Str.startsWith t p) s.
Proof.
  induction s as [|c s IH]; simpl; [reflexivity|].
  now rewrite IH.
Qed.

Lemma endsWith_any_suffix (p s : string) :
  Str.endsWith s p = any_suffix (fun t => String.eqb t p) s.
Proof.
  induction s as [|c s IH]; simpl; [reflexivity|].
  now rewrite IH.
Qed.

Lemma any_suffix_here (f : string -> bool) (t : string) :
  f t = true -> any_suffix f t = true.
Proof. intros H. destruct t; simpl; rewrite H; reflexivity. Qed.

Lemma any_suffix_ext (f g : string -> bool) (s : string) :
  (forall t, f t = g t) -> any_suffix f s = any_suffix g s.
Proof.
  intros H; induction s as [|c s IH]; simpl; rewrite H; [reflexivity|].
  now rewrite IH.
Qed.

Lemma any_suffix_mono (f g : string -> bool) (s : string) :
  (forall t, f t = true -> g t = true) ->
  any_suffix f s = true -> any_suffix g s = true.
Proof.
  intros Hfg; induction s as [|c s IH]; simpl; intros H.
  - apply orb_true_iff in H as [H|H]; [|discriminate].
    now rewrite (Hfg _ H).
  - apply orb_true_iff in H as [H|H].
    + now rewrite (Hfg _ H).
    + rewrite (IH H); apply orb_true_r.
Qed.

Lemma any_suffix_trans (f : string -> bool) (s : string) :
  any_suffix (any_suffix f) s = any_suffix f s.
Proof.
  induction s as [|c s IH]; simpl.
  - now destruct (f "").
  - rewrite IH. destruct (f (String c s)); simpl; [reflexivity|].
    now destruct (any_suffix f s).
Qed.

(** Two predicates with the same suffix closure: [g] holds where [f] does,
    and only where some suffix satisfies [f]. *)
Lemma any_suffix_sandwich (f g : string -> bool) (s : string) :
  (forall t, f t = true -> g t = true) ->
  (forall t, g t = true -> any_suffix f t = true) ->
  any_suffix g s = any_suffix f s.
Proof.
  intros Hfg Hgf.
  destruct (any_suffix f s) eqn:Ef.
  - now apply (any_suffix_mono f g).
  - destruct (any_suffix g s) eqn:Eg; [|reflexivity].
    apply (any_suffix_mono g (any_suffix f)) in Eg; [|exact Hgf].
    rewrite any_suffix_trans in Eg. congruence.
Qed.

Lemma search_any_suffix (r : regex) (s : string) (bos : bool) :
  blind (m r (fun _ _ => true)) ->
  search r bos s = any_suffix (m r (fun _ _ => true) false) s.
Proof.
  intros Hb; revert bos; induction s as [|c s IH]; intros bos; simpl.
  - now rewrite (Hb bos false).
  - now rewrite IH, (Hb bos false).
Qed.

Lemma search_Bol (r : regex) (s : string) :
  search (Seq Bol r) false s = false.
Proof. induction s as [|c s IH]; simpl; [reflexivity|exact IH]. Qed.

Lemma test_Bol (r : regex) (s : string) :
  test (Seq Bol r) s = m r (fun _ _ => true) true s.
Proof.
  unfold test. destruct s as [|c s]; simpl.
  - apply orb_false_r.
  - rewrite search_Bol. apply orb_false_r.
Qed.

Lemma startsWith_drop (w t : string) :
  Str.startsWith t w = true -> t = w ++ Str.drop (String.length w) t.
Proof.
  revert t; induction w as [|c w IH]; intros t H; simpl.
  - now destruct t.
  - destruct t as [|c' t]; simpl in H; [discriminate|].
    apply andb_true_iff in H as [Hc H]. apply Ascii.eqb_eq in Hc as ->.
    simpl. now rewrite <- (IH t H).
Qed.

Lemma startsWith_app (w v : string) : Str.startsWith (w ++ v) w = true.
Proof.
  induction w as [|c w IH]; simpl; [now destruct v|].
  now rewrite Ascii.eqb_refl.
Qed.

Lemma startsWith_app_l (p q t : string) :
  Str.startsWith t (p ++ q) = true -> Str.startsWith t p = true.
Proof.
  revert t; induction p as [|c p IH]; intros t H.
  - now destruct t.
  - destruct t as [|c' t]; simpl in *; [discriminate|].
    apply andb_true_iff in H as [-> H]. now apply IH.
Qed.

(** A literal matches a prefix and hands the rest to its continuation. *)
Lemma m_Lit (w : string) (k : cont) (b : bool) (t : string) :
  blind k ->
  m (Lit w) k b t = Str.startsWith t w && k false (Str.drop (String.length w) t).
Proof.
  intros Hk; revert b t; induction w as [|c w IH]; intros b t; simpl.
  - destruct t; simpl; apply Hk.
  - destruct t as [|c' t]; simpl; [reflexivity|].
    rewrite IH. now rewrite andb_assoc.
Qed.

Lemma blind_const (v : bool) : blind (fun _ _ => v).
Proof. now intros b b' t. Qed.

Lemma blind_Lit (w : string) (k : cont) : blind k -> blind (m (Lit w) k).
Proof. intros Hk b b' t. now rewrite !m_Lit. Qed.

Lemma blind_Eol (k : cont) : blind k -> blind (m Eol k).
Proof. intros Hk b b' t. simpl. destruct t; [apply Hk|reflexivity]. Qed.

Lemma blind_Opt (r : regex) (k : cont) :
  blind k -> blind (m r k) -> blind (m (Opt r) k).
Proof.
  intros Hk Hr b b' t. simpl. now rewrite (Hk b b'), (Hr b b').
Qed.

Lemma star_loop_Dot_blind (k : cont) (fuel : nat) :
  blind k -> blind (star_loop Dot k fuel).
Proof.
  intros Hk b b' t. destruct fuel; simpl; [apply Hk|].
  now rewrite (Hk b b').
Qed.

Lemma blind_Star_Dot (k : cont) : blind k -> blind (m (Star Dot) k).
Proof.
  intros Hk b b' t. rewrite !m_Star. now apply star_loop_Dot_blind.
Qed.

(** [.*] followed by the end of the pattern always matches. *)
Lemma m_Star_Dot_end (b : bool) (t : string) :
  m (Star Dot) (fun _ _ => true) b t = true.
Proof. rewrite m_Star. simpl. apply orb_true_r. Qed.

(** [.*] may match nothing. *)
Lemma m_Star_zero (r : regex) (k : cont) (b : bool) (t : string) :
  k b t = true -> m (Star r) k b t = true.
Proof. intros H. rewrite m_Star. simpl. rewrite H. apply orb_true_r. Qed.

(** What follows [.*] matches at a suffix. *)
Lemma star_loop_Dot_suffix (k : cont) (fuel : nat) (b : bool) (t : string) :
  blind k ->
  star_loop Dot k fuel b t = true -> any_suffix (k false) t = true.
Proof.
  intros Hk; revert b t; induction fuel as [|fuel IH]; intros b t; simpl.
  - intros H. apply any_suffix_here. now rewrite (Hk false b).
  - intros H. apply orb_true_iff in H as [H|H].
    + destruct t as [|c t]; [discriminate|].
      apply andb_true_iff in H as [_ H]. apply andb_true_iff in H as [_ H].
      apply IH in H. simpl. rewrite H. apply orb_true_r.
    + apply any_suffix_here. now rewrite (Hk false b).
Qed.

Lemma test_Star_Dot (r : regex) (s : string) :
  blind (m r (fun _ _ => true)) ->
  test (Seq (Star Dot) r) s = any_suffix (m r (fun _ _ => true) false) s.
Proof.
  intros Hb. unfold test. rewrite search_any_suffix.
  - rewrite m_Seq. apply any_suffix_sandwich.
    + intros t H. now apply m_Star_zero.
    + intros t H. rewrite m_Star in H.
      now apply star_loop_Dot_suffix in H.
  - rewrite m_Seq. now apply blind_Star_Dot.
Qed.

Lemma test_unanchored (r : regex) (s : string) :
  blind (m r (fun _ _ => true)) ->
  test r s = any_suffix (m r (fun _ _ => true) false) s.
Proof. intros Hb. unfold test. now apply search_any_suffix. Qed.

(** ** The nine patterns *)

Lemma test_Lit (w : string) (s : string) :
  test (Lit w) s = Str.includes s w.
Proof.
  rewrite test_unanchored by (apply blind_Lit, blind_const).
  rewrite includes_any_suffix. apply any_suffix_ext; intros t.
  rewrite m_Lit by apply blind_const. apply andb_true_r.
Qed.

Lemma pattern_begins (w s : string) :
  test (Seq Bol (Seq (Lit w) (Star Dot))) s = Str.startsWith s w.
Proof.
  rewrite test_Bol, m_Seq, m_Lit by (apply blind_Star_Dot, blind_const).
  rewrite m_Star_Dot_end. apply andb_true_r.
Qed.

Lemma startsWith_exact (w t : string) :
  Str.startsWith t w
  && match Str.drop (String.length w) t with
     | EmptyString => true
     | String _ _ => false
     end
  = String.eqb t w.
Proof.
  revert t; induction w as [|c w IH]; intros t.
  - now destruct t.
  - destruct t as [|c' t]; [reflexivity|]. simpl.
    rewrite <- IH, <- andb_assoc, (Ascii.eqb_sym c c').
    now destruct (Ascii.eqb c' c).
Qed.

Lemma pattern_ends (w s : string) :
  test (Seq (Star Dot) (Seq (Lit w) Eol)) s = Str.endsWith s w.
Proof.
  rewrite test_Star_Dot
    by (rewrite m_Seq; apply blind_Lit, blind_Eol, blind_const).
  rewrite endsWith_any_suffix. apply any_suffix_ext; intros t.
  rewrite m_Seq, m_Lit by apply blind_Eol, blind_const.
  rewrite <- startsWith_exact. reflexivity.
Qed.

Lemma pattern_contains (w s : string) :
  test (Seq (Star Dot) (Seq (Lit w) (Star Dot))) s = Str.includes s w.
Proof.
  rewrite test_Star_Dot
    by (rewrite m_Seq; apply blind_Lit, blind_Star_Dot, blind_const).
  rewrite includes_any_suffix. apply any_suffix_ext; intros t.
  rewrite m_Seq, m_Lit by apply blind_Star_Dot, blind_const.
  rewrite m_Star_Dot_end. apply andb_true_r.
Qed.

Lemma m_Opt_end (r : regex) (b : bool) (t : string) :
  m (Opt r) (fun _ _ => true) b t = true.
Proof. simpl. apply orb_true_r. Qed.

Lemma pattern_optional_tail (w : string) (r : regex) (s : string) :
  test (Seq (Lit w) (Opt r)) s = Str.includes s w.
Proof.
  assert (Hb : blind (m (Opt r) (fun _ _ => true))).
  { intros b b' t. now rewrite !m_Opt_end. }
  rewrite test_unanchored by (rewrite m_Seq; now apply blind_Lit).
  rewrite includes_any_suffix. apply any_suffix_ext; intros t.
  rewrite m_Seq, m_Lit by exact Hb.
  rewrite m_Opt_end. apply andb_true_r.
Qed.

Lemma pattern_exact (w s : string) :
  test (Seq Bol (Seq (Lit w) Eol)) s = String.eqb s w.
Proof.
  rewrite test_Bol, m_Seq, m_Lit by apply blind_Eol, blind_const.
  rewrite <- startsWith_exact. reflexivity.
Qed.

(** An occurrence of a longer word is an occurrence of its prefix. *)
Lemma includes_longer (s p q : string) :
  Str.includes s p || Str.includes s (p ++ q) = Str.includes s p.
Proof.
  destruct (Str.includes s (p ++ q)) eqn:E; [|apply orb_false_r].
  rewrite includes_any_suffix in *.
  apply (any_suffix_mono _ (fun t => Str.startsWith t p)) in E.
  - now rewrite E.
  - intros t; apply startsWith_app_l.
Qed.

Lemma has_true_iff (table : list string) (x : string) :
  Str.has table x = true <-> In x table.
Proof.
  unfold Str.has. rewrite existsb_exists. split.
  - intros (y & Hy & E). apply String.eqb_eq in E. now subst.
  - intros H. exists x. split; [exact H|apply String.eqb_refl].
Qed.

(** On a name that the allow-list does not hold, [looksLikeTracking] is the
    disjunction of the nine patterns as the specification words them. *)
Lemma looksLikeTracking_patterns (param : string) :
  Str.has PARAMS_TO_KEEP (Str.toLowerCase param) = false ->
  looksLikeTracking param = matches_structural_pattern (Str.toLowerCase param).
Proof.
  intros Hk. unfold looksLikeTracking, matches_structural_pattern.
  rewrite Hk. unfold trackingPatterns. cbn [existsb].
  rewrite !pattern_begins, pattern_ends, pattern_contains, pattern_exact.
  rewrite !pattern_optional_tail, !test_Lit.
  set (n := Str.toLowerCase param).
  change "tracking" with ("track" ++ "ing").
  change "referrer" with ("ref" ++ "errer").
  change "referr" with ("ref" ++ "err").
  change "refer" with ("ref" ++ "er").
  rewrite !includes_longer, <- !orb_assoc.
  now rewrite orb_false_r.
Qed.

(* ================================================================== *)
(** * The classifier *)

Lemma keep_not_removed (x : string) :
  In x PARAMS_TO_KEEP -> Str.has PARAMS_TO_REMOVE x = false.
Proof.
  intros H. unfold PARAMS_TO_KEEP in H. simpl in H.
  repeat (destruct H as [<-|H]; [reflexivity|]). contradiction.
Qed.

(** C4: a parameter whose lower-cased name is in the allow-list is not
    classified as tracking: [looksLikeTracking] answers false, whatever the
    patterns say; the name is not in the deny-list either, so the test that
    [cleanUrl] makes on a key is false and the loop keeps the pair (unless its
    value is empty and empty parameters are removed). *)
Theorem C4_allow_list_precedence (o : Flags) (param : string) :
  In (Str.toLowerCase param) PARAMS_TO_KEEP ->
  looksLikeTracking param = false
  /\ shouldRemove o param = false
  /\ forall (cleanedParams : URLSearchParams.t) (value : string),
       removeEmptyParams o = false \/ value <> EmptyString ->
       keep_entry o cleanedParams (param, value)
       = URLSearchParams.append cleanedParams param value.
Proof.
  intros H.
  assert (L : looksLikeTracking param = false).
  { unfold looksLikeTracking. now rewrite (proj2 (has_true_iff _ _) H). }
  assert (R : shouldRemove o param = false).
  { unfold shouldRemove. rewrite L, (keep_not_removed _ H).
    apply andb_false_r. }
  repeat split; [exact L|exact R|].
  intros cleanedParams value Hv. unfold keep_entry. rewrite R. simpl.
  destruct Hv as [->|Hv]; [reflexivity|].
  destruct value; [congruence|]. simpl. now rewrite orb_true_r.
Qed.

Lemma C4_allow_list_precedence_witness :
  In (Str.toLowerCase "ID") PARAMS_TO_KEEP
  /\ looksLikeTracking "ID" = false
  /\ test (Seq (Star Dot) (Seq (Lit "id") Eol)) (Str.toLowerCase "ID") = true.
Proof.
  assert (H : In (Str.toLowerCase "ID") PARAMS_TO_KEEP)
    by (simpl; tauto).
  split; [exact H|]. split; [|reflexivity].
  exact (proj1 (C4_allow_list_precedence (destructure None) "ID" H)).
Defined.

(** C8: on a name whose lower-cased form is in neither table, the classifier
    answers true exactly when the lower-cased name matches one of the
    structural patterns as the specification lists them; the same holds of
    the whole test that [cleanUrl] makes on a key when tracking removal is
    on. *)
Theorem C8_structural_patterns (o : Flags) (param : string) :
  Str.has PARAMS_TO_KEEP (Str.toLowerCase param) = false ->
  Str.has PARAMS_TO_REMOVE (Str.toLowerCase param) = false ->
  (looksLikeTracking param = true
   <-> matches_structural_pattern (Str.toLowerCase param) = true)
  /\ (removeTracking o = true ->
      shouldRemove o param = matches_structural_pattern (Str.toLowerCase param)).
Proof.
  intros Hk Hr. rewrite <- (looksLikeTracking_patterns _ Hk). split.
  - reflexivity.
  - intros Ht. unfold shouldRemove. now rewrite Ht, Hr.
Qed.

Lemma C8_structural_patterns_witness :
  (looksLikeTracking "userId" = true
   <-> matches_structural_pattern (Str.toLowerCase "userId") = true)
  /\ looksLikeTracking "userId" = true
  /\ looksLikeTracking "colour" = false.
Proof.
  split; [|split; reflexivity].
  exact (proj1 (C8_structural_patterns (destructure None) "userId"
                  eq_refl eq_refl)).
Defined.

(* ================================================================== *)
(** * Options and failure *)

(** C10: when the options argument is missing, or is an object on which a
    flag is missing, the flag is true; [cleanUrl] without options is
    [cleanUrl] with the eight flags set. *)
Theorem C10_defaults_true :
  destructure None = Build_Flags true true true true true true true true
  /\ destructure (Some no_options)
     = Build_Flags true true true true true true true true
  /\ (forall a b c d e f g h,
        tryHttps (destructure (Some (Build_Options None b c d e f g h))) = true
        /\ removeWww (destructure (Some (Build_Options a None c d e f g h))) = true
        /\ removeTrailingSlash
             (destructure (Some (Build_Options a b None d e f g h))) = true
        /\ removeFragment
             (destructure (Some (Build_Options a b c None e f g h))) = true
        /\ removeTracking
             (destructure (Some (Build_Options a b c d None f g h))) = true
        /\ sortParams
             (destructure (Some (Build_Options a b c d e None g h))) = true
        /\ removeEmptyParams
             (destructure (Some (Build_Options a b c d e f None h))) = true
        /\ removeDefaultPorts
             (destructure (Some (Build_Options a b c d e f g None))) = true)
  /\ (forall fetch inputUrl,
        cleanUrl fetch inputUrl None
        = cleanUrl fetch inputUrl
            (Some (Build_Options (Some true) (Some true) (Some true) (Some true)
                                 (Some true) (Some true) (Some true) (Some true)))).
Proof.
  split; [reflexivity|]. split; [reflexivity|]. split.
  - intros. repeat split.
  - intros. reflexivity.
Qed.

(** C6: on an input that the URL constructor rejects, [cleanUrl] throws an
    error whose message carries the input, and returns nothing; it throws in
    no other case. *)
Theorem C6_invalid_url (fetch : string -> option bool) (inputUrl : string)
        (options : option Options) :
  (URL.parse inputUrl = URL.ParseFailure ->
   cleanUrl fetch inputUrl options = Thrown ("Invalid URL: " ++ inputUrl))
  /\ (forall message,
        cleanUrl fetch inputUrl options = Thrown message ->
        URL.parse inputUrl = URL.ParseFailure
        /\ message = "Invalid URL: " ++ inputUrl).
Proof.
  unfold cleanUrl. split.
  - now intros ->.
  - intros message. destruct (URL.parse inputUrl) as [u| |].
    + destruct (clean_parsed fetch (destructure options) u); discriminate.
    + intros [= <-]. now split.
    + discriminate.
Qed.

Lemma C6_invalid_url_witness :
  URL.parse "not a url" = URL.ParseFailure
  /\ cleanUrl (fun _ => Some true) "not a url" (Some no_options)
     = Thrown "Invalid URL: not a url".
Proof.
  split; [reflexivity|].
  apply (proj1 (C6_invalid_url (fun _ => Some true) "not a url"
                  (Some no_options))).
  reflexivity.
Defined.

(* ================================================================== *)
(** * Facts about characters *)

Lemma In_all_ascii (c : ascii) : In c all_ascii.
Proof.
  unfold all_ascii. rewrite <- (ascii_nat_embedding c).
  apply in_map, in_seq. pose proof (nat_ascii_bounded c). lia.
Qed.

(** A property of characters that evaluates to true on the 256 of them. *)
Lemma for_all_ascii (P : ascii -> bool) :
  forallb P all_ascii = true -> forall c, P c = true.
Proof.
  intros H c. rewrite forallb_forall in H. apply H, In_all_ascii.
Qed.

Ltac all_chars c :=
  revert c; apply for_all_ascii; vm_compute; reflexivity.

Lemma implb_elim (a b : bool) : implb a b = true -> a = true -> b = true.
Proof. now destruct a, b. Qed.

Lemma Str_forallb_impl (p q : ascii -> bool) (s : string) :
  (forall c, implb (p c) (q c) = true) ->
  Str.forallb p s = true -> Str.forallb q s = true.
Proof.
  intros H; induction s as [|c s IH]; simpl; [reflexivity|].
  intros E. apply andb_true_iff in E as [E1 E2].
  now rewrite (implb_elim _ _ (H c) E1), IH.
Qed.

Lemma Str_forallb_app (p : ascii -> bool) (s t : string) :
  Str.forallb p (s ++ t) = Str.forallb p s && Str.forallb p t.
Proof.
  induction s as [|c s IH]; simpl; [reflexivity|].
  now rewrite IH, andb_assoc.
Qed.

Lemma Str_forallb_lower (p : ascii -> bool) (s : string) :
  Str.forallb p (Str.toLowerCase s)
  = Str.forallb (fun c => p (Str.lower_char c)) s.
Proof. induction s as [|c s IH]; simpl; [reflexivity|]. now rewrite IH. Qed.

Lemma lower_fixed (s : string) :
  Str.forallb (fun c => Ascii.eqb (Str.lower_char c) c) s = true ->
  Str.toLowerCase s = s.
Proof.
  induction s as [|c s IH]; simpl; [reflexivity|].
  intros E. apply andb_true_iff in E as [E1 E2].
  apply Ascii.eqb_eq in E1. now rewrite E1, IH.
Qed.

Lemma span_all (p : ascii -> bool) (s : string) :
  Str.forallb p s = true -> Str.span p s = (s, EmptyString).
Proof.
  induction s as [|c s IH]; simpl; [reflexivity|].
  intros E. apply andb_true_iff in E as [E1 E2].
  now rewrite E1, IH.
Qed.

(** [span] stops at the first character that fails the test. *)
Lemma span_app (p : ascii -> bool) (s t : string) :
  Str.forallb p s = true ->
  match t with EmptyString => true | String c _ => negb (p c) end = true ->
  Str.span p (s ++ t) = (s, t).
Proof.
  intros Hs Ht. induction s as [|c s IH]; simpl.
  - destruct t as [|c t]; [reflexivity|]. simpl.
    apply negb_true_iff in Ht. now rewrite Ht.
  - simpl in Hs. apply andb_true_iff in Hs as [E1 E2].
    now rewrite E1, IH.
Qed.

Lemma remove_tab_newline_id (s : string) :
  Str.forallb (fun c => negb (URL.is_tab_or_newline c)) s = true ->
  URL.remove_tab_newline s = s.
Proof.
  induction s as [|c s IH]; simpl; [reflexivity|].
  intros E. apply andb_true_iff in E as [E1 E2].
  apply negb_true_iff in E1. now rewrite E1, IH.
Qed.

Lemma encode_id (set : ascii -> bool) (s : string) :
  Str.forallb (fun c => negb (set c)) s = true -> Percent.encode set s = s.
Proof.
  induction s as [|c s IH]; simpl; [reflexivity|].
  intros E. apply andb_true_iff in E as [E1 E2].
  apply negb_true_iff in E1. now rewrite E1, IH.
Qed.

(** The characters of a percent-encoded string: those of the input that were
    left alone, [%] and hexadecimal digits. *)
Lemma encode_forallb (set P Q : ascii -> bool) (s : string) :
  (forall c, implb (set c) (Str.forallb P (Percent.encode_byte c)) = true) ->
  (forall c, implb (negb (set c) && Q c) (P c) = true) ->
  Str.forallb Q s = true ->
  Str.forallb P (Percent.encode set s) = true.
Proof.
  intros Hset Hrest. induction s as [|c s IH]; [reflexivity|].
  cbn [Percent.encode Str.forallb].
  intros E. apply andb_true_iff in E as [E1 E2].
  destruct (set c) eqn:Ec.
  - rewrite Str_forallb_app, (IH E2), andb_true_r.
    apply (implb_elim _ _ (Hset c) Ec).
  - cbn [Str.forallb]. rewrite (IH E2), andb_true_r.
    apply (implb_elim _ _ (Hrest c)). now rewrite Ec, E1.
Qed.

Lemma Str_forallb_true (s : string) : Str.forallb (fun _ => true) s = true.
Proof. induction s; simpl; auto. Qed.

Lemma Str_forallb_and (p q : ascii -> bool) (s : string) :
  Str.forallb (fun c => p c && q c) s = Str.forallb p s && Str.forallb q s.
Proof.
  induction s as [|c s IH]; simpl; [reflexivity|]. rewrite IH.
  destruct (p c), (q c), (Str.forallb p s); reflexivity.
Qed.

Lemma no_char_includes (x : ascii) (s : string) :
  Str.forallb (fun c => negb (Ascii.eqb x c)) s = true ->
  Str.includes s (String x EmptyString) = false.
Proof.
  induction s as [|c s IH]; simpl; [reflexivity|].
  intros E. apply andb_true_iff in E as [E1 E2].
  apply negb_true_iff in E1. now rewrite E1, IH.
Qed.

Lemma no_char_startsWith (x : ascii) (w s : string) :
  Str.forallb (fun c => negb (Ascii.eqb x c)) s = true ->
  Str.startsWith s (String x w) = false.
Proof.
  destruct s as [|c s]; simpl; [reflexivity|].
  intros E. apply andb_true_iff in E as [E1 E2].
  apply negb_true_iff in E1. now rewrite E1.
Qed.

(* ================================================================== *)
(** * Hosts *)

Lemma host_char_lower (c : ascii) :
  implb (negb (URL.forbidden_domain_code_point (Str.lower_char c))
         && (nat_of_ascii c <? 128))
        (host_char (Str.lower_char c)) = true.
Proof. all_chars c. Qed.

Lemma host_char_facts (c : ascii) :
  implb (host_char c)
        (negb (Ascii.eqb "[" c) && negb (Ascii.eqb "%" c)
         && (nat_of_ascii c <? 128) && Ascii.eqb (Str.lower_char c) c
         && negb (URL.forbidden_domain_code_point c)
         && negb (URL.is_tab_or_newline c)
         && negb (URL.authority_end c || Ascii.eqb c ":")
         && negb (Ascii.eqb "@" c)
         && negb (URL.is_c0_or_space c)) = true.
Proof. all_chars c. Qed.

Ltac host_chars H :=
  refine (Str_forallb_impl _ _ _ _ H);
  let c := fresh "c" in
  let Hf := fresh "Hf" in
  intros c; generalize (host_char_facts c);
  destruct (host_char c); simpl; [|reflexivity];
  intros Hf; repeat (apply andb_true_iff in Hf as [Hf ?]); assumption.

(** The host parser answers with a well-formed host. *)
Lemma host_parse_wf (x h : string) :
  URL.host_parse x = URL.HostOk h -> wf_host h = true.
Proof.
  unfold URL.host_parse, wf_host.
  destruct (Str.startsWith x "[" || Str.includes x "%"
            || negb (URL.ascii_only x)) eqn:E1; [discriminate|].
  destruct (existsb _ _) eqn:E2; [discriminate|].
  destruct (String.eqb (Str.toLowerCase x) "") eqn:E3; [discriminate|].
  destruct (negb (Str.forallb _ (Str.toLowerCase x))) eqn:E4; [discriminate|].
  destruct (URL.ends_in_number _) eqn:E5; [discriminate|].
  intros [= <-]. rewrite E2, E3, E5. simpl. rewrite !andb_true_r.
  apply negb_false_iff in E4. rewrite Str_forallb_lower in *.
  apply orb_false_iff in E1 as [_ E1]. apply negb_false_iff in E1.
  assert (E : Str.forallb
                (fun c => negb (URL.forbidden_domain_code_point (Str.lower_char c))
                          && (nat_of_ascii c <? 128)) x = true).
  { rewrite Str_forallb_and, E4. exact E1. }
  refine (Str_forallb_impl _ _ _ _ E). intros c. apply host_char_lower.
Qed.

(** A well-formed host is read back as itself. *)
Lemma wf_host_parse (h : string) :
  wf_host h = true -> URL.host_parse h = URL.HostOk h.
Proof.
  unfold wf_host. intros H.
  apply andb_true_iff in H as [H H4]. apply andb_true_iff in H as [H H3].
  apply andb_true_iff in H as [H1 H2].
  apply negb_true_iff in H1, H3, H4.
  assert (L : Str.toLowerCase h = h) by (apply lower_fixed; host_chars H2).
  unfold URL.host_parse. rewrite L, H1, H3, H4.
  assert (A : URL.ascii_only h = true) by (unfold URL.ascii_only; host_chars H2).
  assert (B : Str.startsWith h "[" = false)
    by (apply no_char_startsWith; host_chars H2).
  assert (C : Str.includes h "%" = false)
    by (apply no_char_includes; host_chars H2).
  rewrite A, B, C. simpl.
  assert (F : Str.forallb (fun c => negb (URL.forbidden_domain_code_point c)) h
              = true) by host_chars H2.
  now rewrite F.
Qed.

Lemma ends_in_number_tail (l : string) (L : list string) :
  URL.numeric_label l = false -> L <> [] ->
  URL.ends_in_number (l :: L) = URL.ends_in_number L.
Proof.
  intros Hl HL. unfold URL.ends_in_number. simpl rev.
  destruct (rev L) as [|x xs] eqn:E.
  - apply (f_equal (@rev string)) in E. rewrite rev_involutive in E.
    now subst.
  - simpl. destruct x as [|c x]; [|reflexivity].
    destruct xs as [|y ys]; simpl; [exact Hl|reflexivity].
Qed.

Lemma split_on_nonempty (sep : ascii) (s : string) :
  URLSearchParams.split_on sep s <> [].
Proof. destruct s as [|c s]; simpl; [discriminate|]. now destruct (Ascii.eqb c sep). Qed.

(** Without its first label [www], a well-formed host is a well-formed
    host. *)
Lemma wf_host_strip_www (v : string) :
  wf_host ("www." ++ v) = true -> v <> EmptyString -> wf_host v = true.
Proof.
  unfold wf_host. intros H Hv.
  apply andb_true_iff in H as [H H4]. apply andb_true_iff in H as [H H3].
  apply andb_true_iff in H as [_ H2].
  change (URLSearchParams.split_on "." ("www." ++ v))
    with ("www" :: URLSearchParams.split_on "." v) in *.
  rewrite ends_in_number_tail in H4
    by (try reflexivity; apply split_on_nonempty).
  rewrite Str_forallb_app in H2. apply andb_true_iff in H2 as [_ H2].
  simpl existsb in H3. rewrite H2, H3, H4.
  destruct v; [congruence|reflexivity].
Qed.

Lemma set_hostname_wf (u : URL.t) (v : string) :
  wf_host v = true ->
  URL.set_hostname u v
  = Some (URL.mk (URL.scheme u) v (URL.port u) (URL.path u) (URL.query u)
                 (URL.fragment u)).
Proof.
  intros H. pose proof (wf_host_parse _ H) as P.
  unfold wf_host in H.
  apply andb_true_iff in H as [H _]. apply andb_true_iff in H as [H _].
  apply andb_true_iff in H as [H1 H2]. apply negb_true_iff in H1.
  unfold URL.set_hostname.
  rewrite remove_tab_newline_id by host_chars H2.
  rewrite span_all by host_chars H2.
  simpl Str.startsWith. cbv iota. now rewrite H1, P.
Qed.

(* ================================================================== *)
(** * The steps of [cleanUrl] on a well-formed URL *)

Lemma wf_inv (u : URL.t) :
  wf u = true ->
  (URL.scheme u = "http" \/ URL.scheme u = "https")
  /\ wf_host (URL.host u) = true
  /\ wf_port (URL.scheme u) (URL.port u) = true
  /\ URL.path u <> []
  /\ forallb wf_segment (URL.path u) = true
  /\ wf_query (URL.query u) = true
  /\ wf_fragment (URL.fragment u) = true.
Proof.
  unfold wf. intros H.
  repeat (apply andb_true_iff in H as [H ?]).
  repeat split; try assumption.
  - apply orb_true_iff in H as [H|H]; apply String.eqb_eq in H; auto.
  - destruct (URL.path u); [discriminate|discriminate].
Qed.

Lemma wf_intro (u : URL.t) :
  (URL.scheme u = "http" \/ URL.scheme u = "https") ->
  wf_host (URL.host u) = true ->
  wf_port (URL.scheme u) (URL.port u) = true ->
  URL.path u <> [] ->
  forallb wf_segment (URL.path u) = true ->
  wf_query (URL.query u) = true ->
  wf_fragment (URL.fragment u) = true ->
  wf u = true.
Proof.
  intros Hs Hh Hp Hn Hl Hq Hf. unfold wf.
  rewrite Hh, Hp, Hl, Hq, Hf, !andb_true_r.
  destruct (URL.path u); [congruence|]. rewrite andb_true_r.
  destruct Hs as [-> | ->]; reflexivity.
Qed.

Lemma form_char_facts (c : ascii) :
  implb (form_char c)
        (negb (URL.is_tab_or_newline c) && negb (Percent.special_query_set c)
         && negb (Ascii.eqb "?" c) && negb (Ascii.eqb "#" c)
         && (nat_of_ascii c <? 128)) = true.
Proof. all_chars c. Qed.

Ltac form_chars H :=
  refine (Str_forallb_impl _ _ _ _ H);
  let c := fresh "c" in
  let Hf := fresh "Hf" in
  intros c; generalize (form_char_facts c);
  destruct (form_char c); simpl; [|reflexivity];
  intros Hf; repeat (apply andb_true_iff in Hf as [Hf ?]); assumption.

Lemma segment_char_facts (c : ascii) :
  implb (segment_char c || Ascii.eqb c "/")
        (negb (URL.is_tab_or_newline c)
         && negb (Ascii.eqb c "?" || Ascii.eqb c "#")
         && (nat_of_ascii c <? 128)
         && negb (Ascii.eqb "^" c)
         && negb (URL.is_c0_or_space c)) = true.
Proof. all_chars c. Qed.

Lemma segment_char_free (c : ascii) :
  implb (segment_char c)
        (negb (Ascii.eqb c "/") && negb (URL.is_slash c)
         && negb (Percent.path_set c)) = true.
Proof. all_chars c. Qed.

Ltac segment_chars H :=
  refine (Str_forallb_impl _ _ _ _ H);
  let c := fresh "c" in
  let Hf := fresh "Hf" in
  intros c; generalize (segment_char_free c);
  destruct (segment_char c); simpl; [|reflexivity];
  intros Hf; repeat (apply andb_true_iff in Hf as [Hf ?]); assumption.

Section Steps.

Variable fetch : string -> option bool.
Variable o : Flags.

Lemma upgrade_https_eq (st : state) :
  URL.scheme (url st) = "http" \/ URL.scheme (url st) = "https" ->
  upgrade_https fetch o st
  = if upgrades fetch o (url st)
    then push st (upgraded (url st)) "Upgraded to HTTPS" else st.
Proof.
  unfold upgrade_https, upgrades, URL.protocol.
  intros [E|E]; rewrite E; simpl String.eqb.
  - rewrite !andb_true_r. destruct (tryHttps o); [|reflexivity]. simpl.
    destruct (canUseHttps fetch _); [|reflexivity].
    unfold URL.set_protocol, upgraded. rewrite E. reflexivity.
  - now rewrite !andb_false_r.
Qed.

Lemma wf_upgraded (u : URL.t) :
  wf u = true -> wf (upgraded u) = true.
Proof.
  intros H. apply wf_inv in H as (Hs & Hh & Hp & Hn & Hl & Hq & Hf).
  apply wf_intro; simpl; auto.
  unfold wf_port in *. destruct (URL.port u) as [n|]; [|reflexivity].
  destruct (URL.is_default_port "https" (Some n)) eqn:E; [reflexivity|].
  rewrite E. apply andb_true_iff in Hp as [Hp _]. now rewrite Hp.
Qed.

Lemma remove_www_eq (st : state) :
  wf_host (URL.host (url st)) = true ->
  remove_www o st
  = Some (if strips_www o (url st)
          then push st (stripped (url st)) "Removed www prefix" else st).
Proof.
  intros H. unfold remove_www, strips_www, URL.hostname, stripped.
  destruct (removeWww o && Str.startsWith (URL.host (url st)) "www.") eqn:E;
    [|reflexivity].
  apply andb_true_iff in E as [_ E]. unfold replace_www. rewrite E.
  pose proof (startsWith_drop _ _ E) as D. simpl String.length in D.
  destruct (Str.drop 4 (URL.host (url st))) as [|c v] eqn:Ev.
  - simpl. now destruct (url st).
  - rewrite set_hostname_wf; [reflexivity|].
    apply wf_host_strip_www; [|discriminate]. now rewrite <- D.
Qed.

Lemma wf_stripped (u : URL.t) :
  wf u = true -> Str.startsWith (URL.host u) "www." = true ->
  wf (stripped u) = true.
Proof.
  intros H E. unfold stripped.
  destruct (Str.drop 4 (URL.host u)) as [|c v] eqn:Ev; [exact H|].
  apply wf_inv in H as (Hs & Hh & Hp & Hn & Hl & Hq & Hf).
  apply wf_intro; simpl; auto.
  pose proof (startsWith_drop _ _ E) as D. simpl String.length in D.
  rewrite Ev in D. apply wf_host_strip_www; [|discriminate].
  now rewrite <- D.
Qed.

Lemma decimal_inj (n n' : N) : URL.decimal n = URL.decimal n' -> n = n'.
Proof.
  unfold URL.decimal. intros H. apply DecimalN.Unsigned.to_uint_inj.
  apply (f_equal NilEmpty.uint_of_string) in H.
  rewrite !NilEmpty.usu in H. congruence.
Qed.

(** A well-formed URL carries no default port, so the port step finds
    nothing to remove. *)
Lemma remove_default_port_eq (st : state) :
  URL.scheme (url st) = "http" \/ URL.scheme (url st) = "https" ->
  wf_port (URL.scheme (url st)) (URL.port (url st)) = true ->
  remove_default_port o st = st.
Proof.
  unfold remove_default_port, URL.protocol, URL.port_string, wf_port.
  intros Hs Hp. destruct (removeDefaultPorts o); [|reflexivity].
  destruct (URL.port (url st)) as [n|].
  - apply andb_true_iff in Hp as [_ Hp]. apply negb_true_iff in Hp.
    destruct Hs as [E|E]; rewrite E in *; simpl String.eqb;
      rewrite ?andb_false_l, ?orb_false_l, ?orb_false_r, ?andb_true_l.
    + destruct (String.eqb (URL.decimal n) "80") eqn:D; [|reflexivity].
      apply String.eqb_eq in D. apply (decimal_inj n 80%N) in D.
      subst. discriminate.
    + destruct (String.eqb (URL.decimal n) "443") eqn:D; [|reflexivity].
      apply String.eqb_eq in D. apply (decimal_inj n 443%N) in D.
      subst. discriminate.
  - simpl. now rewrite !andb_false_r.
Qed.

(** ** The query *)

Lemma fold_left_keep_entry (l : list (string * string)) (acc : URLSearchParams.t) :
  fold_left (keep_entry o) l acc = (acc ++ filter (keeps o) l)%list.
Proof.
  revert acc; induction l as [|[k v] l IH]; intros acc; simpl.
  - now rewrite app_nil_r.
  - rewrite IH. unfold keep_entry, keeps, URLSearchParams.append. simpl.
    destruct (negb (shouldRemove o k)); simpl; [|reflexivity].
    destruct (negb (removeEmptyParams o) || (0 <? String.length v));
      [|reflexivity].
    now rewrite <- app_assoc.
Qed.

Lemma encode_byte_form (c : ascii) :
  Str.forallb form_char (Percent.encode_byte c) = true.
Proof. all_chars c. Qed.

Lemma form_char_safe (c : ascii) :
  implb (negb (Percent.urlencoded_set c)) (form_char c) = true.
Proof. all_chars c. Qed.

Lemma encode_component_form (s : string) :
  Str.forallb form_char (URLSearchParams.encode_component s) = true.
Proof.
  induction s as [|c s IH]; [reflexivity|].
  cbn [URLSearchParams.encode_component].
  destruct (Ascii.eqb c " "); [exact IH|].
  destruct (Percent.urlencoded_set c) eqn:E.
  - now rewrite Str_forallb_app, encode_byte_form, IH.
  - cbn [Str.forallb]. rewrite IH, andb_true_r.
    apply (implb_elim _ _ (form_char_safe c)). now rewrite E.
Qed.

Lemma serialize_pair_form (e : string * string) :
  Str.forallb form_char (URLSearchParams.serialize_pair e) = true.
Proof.
  unfold URLSearchParams.serialize_pair.
  now rewrite !Str_forallb_app, !encode_component_form.
Qed.

Lemma toString_form (l : URLSearchParams.t) :
  Str.forallb form_char (URLSearchParams.toString l) = true.
Proof.
  unfold URLSearchParams.toString.
  induction l as [|e l IH]; [reflexivity|].
  cbn [map String.concat]. destruct (map URLSearchParams.serialize_pair l) eqn:E.
  - apply serialize_pair_form.
  - now rewrite !Str_forallb_app, serialize_pair_form, IH.
Qed.

(** The search setter stores what the serializer wrote, as it is. *)
Lemma set_search_form (u : URL.t) (s : string) :
  Str.forallb form_char s = true ->
  URL.set_search u s
  = URL.mk (URL.scheme u) (URL.host u) (URL.port u) (URL.path u)
           (if String.eqb s EmptyString then None else Some s) (URL.fragment u).
Proof.
  intros H. unfold URL.set_search.
  destruct (String.eqb s "") eqn:E; [reflexivity|].
  assert (Hq : match s with String "?" rest => rest | _ => s end = s).
  { destruct s as [|c s]; [reflexivity|].
    assert (Hc : Ascii.eqb "?" c = false).
    { simpl in H. apply andb_true_iff in H as [H _].
      generalize (form_char_facts c). rewrite H. simpl. intros Hf.
      repeat (apply andb_true_iff in Hf as [Hf ?]).
      now apply negb_true_iff. }
    destruct c as [[] [] [] [] [] [] [] []]; try reflexivity; discriminate. }
  rewrite Hq, remove_tab_newline_id by form_chars H.
  rewrite encode_id by form_chars H. reflexivity.
Qed.

Lemma search_truthy (u : URL.t) :
  truthy (URL.search u)
  = match URL.query u with
    | None | Some EmptyString => false
    | Some _ => true
    end.
Proof.
  unfold truthy, URL.search.
  destruct (URL.query u) as [[|c q]|]; reflexivity.
Qed.

Lemma url_push_or (st : state) (u : URL.t) (change : string) (b : bool) :
  url (if b then push st u change else {| url := u; log := log st |}) = u.
Proof. now destruct b. Qed.

(** The step that cleans up the search parameters rewrites the query, and
    nothing else, into the serialization of the pairs that are kept. *)
Lemma clean_search_url (st : state) :
  url (clean_search o st)
  = URL.mk (URL.scheme (url st)) (URL.host (url st)) (URL.port (url st))
           (URL.path (url st)) (cleaned_query o (URL.query (url st)))
           (URL.fragment (url st)).
Proof.
  unfold clean_search. rewrite search_truthy.
  destruct (URL.query (url st)) as [[|c q]|] eqn:Eq;
    try (cbn [cleaned_query]; rewrite <- Eq; now destruct (url st)).
  cbv zeta. rewrite url_push_or.
  unfold URL.search. rewrite Eq.
  change (URLSearchParams.parse ("?" ++ String c q))
    with (URLSearchParams.parse_urlencoded (String c q)).
  unfold URLSearchParams.entries, URLSearchParams.of_entries.
  rewrite fold_left_keep_entry. simpl app.
  unfold cleaned_query, cleaned_entries.
  destruct (sortParams o); rewrite set_search_form by apply toString_form;
    reflexivity.
Qed.

(** ** The path *)

Lemma sapp_assoc (a b c : string) : (a ++ b) ++ c = a ++ (b ++ c).
Proof. induction a as [|x a IH]; simpl; [reflexivity|now rewrite IH]. Qed.

Lemma sapp_nil_r (a : string) : a ++ "" = a.
Proof. induction a as [|x a IH]; simpl; [reflexivity|now rewrite IH]. Qed.

Lemma serialize_path_app (a b : list string) :
  URL.serialize_path (a ++ b) = URL.serialize_path a ++ URL.serialize_path b.
Proof.
  induction a as [|x a IH]; [reflexivity|].
  cbn [app URL.serialize_path]. rewrite IH.
  now rewrite !sapp_assoc.
Qed.

Lemma replace_slash_free (b : bool) (s X : string) :
  slash_free s = true -> s <> EmptyString ->
  replace_slashes_from b (s ++ X) = s ++ replace_slashes_from false X.
Proof.
  revert b; induction s as [|c s IH]; intros b H Hn; [congruence|].
  unfold slash_free in H. simpl in H. apply andb_true_iff in H as [H1 H2].
  apply negb_true_iff in H1. simpl. rewrite H1.
  destruct s as [|c' s]; [reflexivity|].
  now rewrite (IH false H2).
Qed.

Lemma collapse_cons (s : string) (L : list string) :
  L <> [] ->
  collapse (s :: L)
  = if String.eqb s EmptyString then collapse L else s :: collapse L.
Proof. destruct L; [congruence|reflexivity]. Qed.

Lemma collapse_nonempty (segs : list string) :
  segs <> [] -> collapse segs <> [].
Proof.
  induction segs as [|s rest IH]; [congruence|]. intros _.
  destruct rest as [|s' rest]; [discriminate|].
  cbn [collapse]. destruct (String.eqb s ""); [|discriminate].
  apply IH. discriminate.
Qed.

Lemma serialize_path_head (segs : list string) :
  segs <> [] ->
  String "/" (Str.drop 1 (URL.serialize_path segs)) = URL.serialize_path segs.
Proof. destruct segs; [congruence|reflexivity]. Qed.

Lemma replace_after_slash (segs : list string) :
  forallb slash_free segs = true -> segs <> [] ->
  replace_slashes_from true (URL.serialize_path segs)
  = Str.drop 1 (URL.serialize_path (collapse segs)).
Proof.
  induction segs as [|s rest IH]; [congruence|]. intros H _.
  cbn [forallb] in H. apply andb_true_iff in H as [Hs Hr].
  destruct rest as [|s' rest].
  - cbn [collapse URL.serialize_path]. simpl.
    destruct s as [|c s]; [reflexivity|].
    rewrite replace_slash_free by (auto; discriminate). reflexivity.
  - specialize (IH Hr ltac:(discriminate)).
    rewrite collapse_cons by discriminate. remember (s' :: rest) as L.
    cbn [URL.serialize_path]. simpl replace_slashes_from.
    destruct s as [|c s].
    + simpl. exact IH.
    + rewrite replace_slash_free by (auto; discriminate).
      cbn [String.eqb URL.serialize_path]. simpl Str.drop. f_equal.
      rewrite <- (serialize_path_head (collapse L))
        by (apply collapse_nonempty; subst; discriminate).
      rewrite <- IH. subst L. reflexivity.
Qed.

(** Collapsing the runs of [/] of a serialized path drops its empty
    segments but the last. *)
Lemma replace_slashes_path (segs : list string) :
  forallb slash_free segs = true -> segs <> [] ->
  replace_slashes (URL.serialize_path segs) = URL.serialize_path (collapse segs).
Proof.
  intros H Hn. rewrite <- (serialize_path_head (collapse segs))
    by now apply collapse_nonempty.
  rewrite <- replace_after_slash by assumption.
  destruct segs; [congruence|reflexivity].
Qed.

Lemma endsWith_slash_free (s : string) :
  slash_free s = true -> Str.endsWith s "/" = false.
Proof.
  unfold slash_free. induction s as [|c s IH]; [reflexivity|].
  simpl. intros H. apply andb_true_iff in H as [H1 H2].
  apply negb_true_iff in H1. rewrite H1, (IH H2). reflexivity.
Qed.

Lemma endsWith_after_slash (X l : string) :
  slash_free l = true ->
  Str.endsWith (X ++ String "/" l) "/" = String.eqb l EmptyString.
Proof.
  intros H. induction X as [|c X IH].
  - simpl. rewrite (endsWith_slash_free _ H). apply orb_false_r.
  - cbn [append Str.endsWith]. rewrite IH.
    assert (E : String.eqb (String c (X ++ String "/" l)) "/" = false).
    { simpl. destruct (Ascii.eqb c "/"); [|reflexivity]. now destruct X. }
    now rewrite E.
Qed.

Lemma slice_0_m1_app (X : string) (c : ascii) :
  Str.slice_0_m1 (X ++ String c EmptyString) = X.
Proof.
  induction X as [|x X IH]; [reflexivity|].
  cbn [append]. destruct X as [|y X]; [reflexivity|].
  change (Str.slice_0_m1 (String x (String y X ++ String c "")))
    with (String x (Str.slice_0_m1 (String y X ++ String c ""))).
  now rewrite IH.
Qed.

Lemma serialize_path_last (init : list string) (l : string) :
  URL.serialize_path (init ++ [l]) = URL.serialize_path init ++ String "/" l.
Proof.
  rewrite serialize_path_app. cbn [URL.serialize_path]. simpl.
  now rewrite sapp_nil_r.
Qed.

Lemma wf_segment_chars (seg : string) :
  wf_segment seg = true -> Str.forallb segment_char seg = true.
Proof.
  unfold wf_segment. intros H.
  apply andb_true_iff in H as [H _]. now apply andb_true_iff in H as [H _].
Qed.

Lemma wf_segment_slash_free (seg : string) :
  wf_segment seg = true -> slash_free seg = true.
Proof.
  intros H. apply wf_segment_chars in H. unfold slash_free. segment_chars H.
Qed.

Lemma wf_segments_slash_free (segs : list string) :
  forallb wf_segment segs = true -> forallb slash_free segs = true.
Proof.
  rewrite !forallb_forall. intros H x Hx.
  now apply wf_segment_slash_free, H.
Qed.

(** The characters of a serialized path. *)
Lemma serialize_path_chars (segs : list string) :
  forallb wf_segment segs = true ->
  Str.forallb (fun c => segment_char c || Ascii.eqb c "/")
              (URL.serialize_path segs) = true.
Proof.
  induction segs as [|s rest IH]; [reflexivity|].
  cbn [forallb URL.serialize_path]. intros H.
  apply andb_true_iff in H as [Hs Hr].
  change ("/" ++ s ++ URL.serialize_path rest)
    with (String "/" (s ++ URL.serialize_path rest)).
  cbn [Str.forallb]. rewrite Str_forallb_app, (IH Hr), andb_true_r.
  rewrite orb_true_r. simpl.
  apply wf_segment_chars in Hs.
  refine (Str_forallb_impl _ _ _ _ Hs). intros c.
  now destruct (segment_char c).
Qed.

Lemma split_slashes_path (s : string) (rest : list string) :
  forallb wf_segment (s :: rest) = true ->
  URL.split_slashes (s ++ URL.serialize_path rest) = s :: rest.
Proof.
  revert s; induction rest as [|s' rest IH]; intros s H;
    cbn [forallb] in H; apply andb_true_iff in H as [Hs Hr];
    apply wf_segment_chars in Hs.
  - cbn [URL.serialize_path]. rewrite sapp_nil_r.
    induction s as [|c s IHs]; [reflexivity|].
    simpl in Hs. apply andb_true_iff in Hs as [Hc Hs].
    cbn [URL.split_slashes]. rewrite (IHs Hs).
    generalize (segment_char_free c). rewrite Hc. simpl. intros Hf.
    repeat (apply andb_true_iff in Hf as [Hf ?]).
    apply negb_true_iff in H0. now rewrite H0.
  - specialize (IH s' Hr).
    induction s as [|c s IHs].
    + cbn [URL.serialize_path]. simpl append.
      cbn [URL.split_slashes]. simpl URL.is_slash. cbv iota.
      now rewrite IH.
    + simpl in Hs. apply andb_true_iff in Hs as [Hc Hs].
      cbn [append URL.split_slashes]. rewrite (IHs Hs).
      generalize (segment_char_free c). rewrite Hc. simpl. intros Hf.
      repeat (apply andb_true_iff in Hf as [Hf ?]).
      apply negb_true_iff in H0. now rewrite H0.
Qed.

Lemma path_state_wf (buffers acc : list string) :
  forallb wf_segment buffers = true ->
  URL.path_state buffers acc = (acc ++ buffers)%list.
Proof.
  revert acc; induction buffers as [|b rest IH]; intros acc H.
  - now rewrite app_nil_r.
  - cbn [forallb] in H. apply andb_true_iff in H as [Hb Hr].
    cbn [URL.path_state].
    pose proof (wf_segment_chars _ Hb) as Hc.
    rewrite encode_id by segment_chars Hc.
    unfold wf_segment in Hb. apply andb_true_iff in Hb as [Hb Hdd].
    apply andb_true_iff in Hb as [_ Hd]. apply negb_true_iff in Hd, Hdd.
    rewrite Hd, Hdd, (IH _ Hr), <- app_assoc. reflexivity.
Qed.

(** A serialized path is parsed back into its segments. *)
Lemma path_parse_serialize (segs : list string) :
  forallb wf_segment segs = true -> segs <> [] ->
  URL.path_parse (URL.serialize_path segs) = segs.
Proof.
  intros H Hn. destruct segs as [|s rest]; [congruence|].
  cbn [URL.serialize_path].
  change (URL.path_parse ("/" ++ s ++ URL.serialize_path rest))
    with (URL.path_state (URL.split_slashes (s ++ URL.serialize_path rest)) []).
  rewrite split_slashes_path by exact H.
  now rewrite path_state_wf.
Qed.

Lemma set_pathname_serialize (u : URL.t) (segs : list string) :
  forallb wf_segment segs = true -> segs <> [] ->
  URL.set_pathname u (URL.serialize_path segs)
  = URL.mk (URL.scheme u) (URL.host u) (URL.port u) segs (URL.query u)
           (URL.fragment u).
Proof.
  intros H Hn. unfold URL.set_pathname.
  rewrite remove_tab_newline_id.
  - now rewrite path_parse_serialize.
  - pose proof (serialize_path_chars _ H) as Hc.
    refine (Str_forallb_impl _ _ _ _ Hc). intros c.
    generalize (segment_char_facts c).
    destruct (segment_char c || Ascii.eqb c "/"); simpl; [|reflexivity].
    intros Hf. repeat (apply andb_true_iff in Hf as [Hf ?]). assumption.
Qed.

Lemma serialize_path_inj (a b : list string) :
  forallb wf_segment a = true -> a <> [] ->
  forallb wf_segment b = true -> b <> [] ->
  URL.serialize_path a = URL.serialize_path b -> a = b.
Proof.
  intros Ha Hna Hb Hnb E.
  rewrite <- (path_parse_serialize a), <- (path_parse_serialize b) by assumption.
  now rewrite E.
Qed.

(** [collapse] keeps the last segment and the non-empty ones before it. *)
Lemma collapse_filter (segs : list string) :
  segs <> [] ->
  collapse segs = (filter nonempty (removelast segs) ++ [last segs "/"])%list.
Proof.
  induction segs as [|s rest IH]; [congruence|]. intros _.
  destruct rest as [|s' rest]; [reflexivity|].
  rewrite collapse_cons by discriminate.
  rewrite IH by discriminate.
  change (removelast (s :: s' :: rest)) with (s :: removelast (s' :: rest)).
  change (last (s :: s' :: rest) "/") with (last (s' :: rest) "/").
  cbn [filter]. unfold nonempty.
  now destruct (String.eqb s "").
Qed.

Lemma filter_idem {A : Type} (f : A -> bool) (l : list A) :
  filter f (filter f l) = filter f l.
Proof.
  induction l as [|x l IH]; [reflexivity|]. simpl.
  destruct (f x) eqn:E; [|exact IH]. simpl. now rewrite E, IH.
Qed.

Lemma filter_all {A : Type} (f : A -> bool) (l : list A) :
  forallb f l = true -> filter f l = l.
Proof.
  induction l as [|x l IH]; [reflexivity|]. simpl.
  intros H. apply andb_true_iff in H as [H1 H2]. now rewrite H1, IH.
Qed.

Lemma forallb_filter {A : Type} (f : A -> bool) (l : list A) :
  forallb f (filter f l) = true.
Proof.
  induction l as [|x l IH]; [reflexivity|]. simpl.
  destruct (f x) eqn:E; [|exact IH]. simpl. now rewrite E.
Qed.

Lemma forallb_sub_filter {A : Type} (f g : A -> bool) (l : list A) :
  forallb g l = true -> forallb g (filter f l) = true.
Proof.
  induction l as [|x l IH]; [reflexivity|]. simpl.
  intros H. apply andb_true_iff in H as [H1 H2].
  destruct (f x); simpl; [rewrite H1|]; auto.
Qed.

Lemma forallb_removelast {A : Type} (g : A -> bool) (l : list A) :
  forallb g l = true -> forallb g (removelast l) = true.
Proof.
  induction l as [|x l IH]; [reflexivity|].
  intros H. cbn [forallb] in H. apply andb_true_iff in H as [H1 H2].
  destruct l as [|y l]; [reflexivity|].
  change (removelast (x :: y :: l)) with (x :: removelast (y :: l)).
  cbn [forallb]. now rewrite H1, IH.
Qed.

Lemma forallb_last {A : Type} (g : A -> bool) (l : list A) (d : A) :
  forallb g l = true -> l <> [] -> g (last l d) = true.
Proof.
  induction l as [|x l IH]; [congruence|].
  intros H _. cbn [forallb] in H. apply andb_true_iff in H as [H1 H2].
  destruct l as [|y l]; [exact H1|].
  change (last (x :: y :: l) d) with (last (y :: l) d).
  apply IH; [exact H2|discriminate].
Qed.

Lemma collapse_last (segs : list string) :
  segs <> [] -> last (collapse segs) "/" = last segs "/".
Proof. intros H. rewrite collapse_filter by exact H. apply last_last. Qed.

Lemma collapse_removelast (segs : list string) :
  segs <> [] -> removelast (collapse segs) = filter nonempty (removelast segs).
Proof.
  intros H. rewrite collapse_filter by exact H. apply removelast_last.
Qed.

Lemma collapse_wf (segs : list string) :
  forallb wf_segment segs = true -> forallb wf_segment (collapse segs) = true.
Proof.
  intros H. destruct segs as [|s rest] eqn:E; [reflexivity|]. rewrite <- E in *.
  assert (Hn : segs <> []) by (subst; discriminate).
  rewrite collapse_filter by exact Hn. rewrite forallb_app.
  rewrite forallb_sub_filter by now apply forallb_removelast.
  cbn [forallb]. now rewrite forallb_last.
Qed.

(** A path whose segments before the last are not empty has no run of [/]
    to collapse. *)
Lemma collapse_fixed (segs : list string) :
  forallb nonempty (removelast segs) = true -> collapse segs = segs.
Proof.
  intros H. destruct segs as [|s rest] eqn:E; [reflexivity|]. rewrite <- E in *.
  assert (Hn : segs <> []) by (subst; discriminate).
  rewrite collapse_filter, filter_all by assumption.
  symmetry. now apply app_removelast_last.
Qed.

Lemma normalized_path_wf (segs : list string) :
  forallb wf_segment segs = true -> segs <> [] ->
  forallb wf_segment (normalized_path o segs) = true
  /\ normalized_path o segs <> [].
Proof.
  intros H Hn. unfold normalized_path.
  pose proof (collapse_wf _ H) as Hc.
  pose proof (collapse_nonempty _ Hn) as Hcn.
  destruct (removeTrailingSlash o && String.eqb (last (collapse segs) "/") "");
    [|now split].
  pose proof (forallb_removelast _ _ Hc) as Hr.
  destruct (removelast (collapse segs)); split; try reflexivity;
    try discriminate; assumption.
Qed.

(** The path step is idempotent on the segments. *)
Lemma normalized_path_idem (segs : list string) :
  segs <> [] ->
  normalized_path o (normalized_path o (segs)) = normalized_path o segs.
Proof.
  intros Hn.
  pose proof (collapse_removelast _ Hn) as Hr.
  pose proof (collapse_nonempty _ Hn) as Hcn.
  assert (Hb : forallb nonempty (removelast (collapse segs)) = true)
    by (rewrite Hr; apply forallb_filter).
  unfold normalized_path at 2 3.
  destruct (removeTrailingSlash o && String.eqb (last (collapse segs) "/") "")
    eqn:E.
  - destruct (removelast (collapse segs)) as [|x r] eqn:Er.
    + unfold normalized_path. simpl.
      now destruct (removeTrailingSlash o).
    + unfold normalized_path.
      rewrite (collapse_fixed (x :: r)) by now apply forallb_removelast.
      assert (Hl : String.eqb (last (x :: r) "/") "" = false).
      { apply negb_true_iff. apply (forallb_last nonempty); [exact Hb|].
        discriminate. }
      now rewrite Hl, andb_false_r.
  - unfold normalized_path.
    rewrite (collapse_fixed (collapse segs)) by exact Hb.
    now rewrite E.
Qed.

Lemma endsWith_serialize (c : list string) :
  forallb slash_free c = true -> c <> [] ->
  Str.endsWith (URL.serialize_path c) "/" = String.eqb (last c "/") EmptyString.
Proof.
  intros H Hn. rewrite (app_removelast_last "/" Hn) at 1.
  rewrite serialize_path_last. apply endsWith_after_slash.
  now apply (forallb_last slash_free).
Qed.

Lemma slice_serialize (c : list string) :
  c <> [] -> last c "/" = EmptyString ->
  Str.slice_0_m1 (URL.serialize_path c) = URL.serialize_path (removelast c).
Proof.
  intros Hn Hl. rewrite (app_removelast_last "/" Hn) at 1.
  rewrite serialize_path_last, Hl. apply slice_0_m1_app.
Qed.

Lemma url_eta (u : URL.t) :
  u = URL.mk (URL.scheme u) (URL.host u) (URL.port u) (URL.path u)
             (URL.query u) (URL.fragment u).
Proof. now destruct u. Qed.

(** The path step rewrites the path, and nothing else, into its normalized
    segments. *)
Lemma normalize_path_url (st : state) :
  forallb wf_segment (URL.path (url st)) = true -> URL.path (url st) <> [] ->
  url (normalize_path o st)
  = URL.mk (URL.scheme (url st)) (URL.host (url st)) (URL.port (url st))
           (normalized_path o (URL.path (url st)))
           (URL.query (url st)) (URL.fragment (url st)).
Proof.
  intros H Hn. unfold normalize_path, URL.pathname. cbv zeta.
  set (segs := URL.path (url st)) in *.
  assert (Keep : forall segs', segs' = segs ->
            url st = URL.mk (URL.scheme (url st)) (URL.host (url st))
                            (URL.port (url st)) segs'
                            (URL.query (url st)) (URL.fragment (url st))).
  { intros segs' ->. apply url_eta. }
  pose proof (collapse_wf _ H) as Hc.
  pose proof (collapse_nonempty _ Hn) as Hcn.
  destruct (String.eqb (URL.serialize_path segs) "/") eqn:Eroot.
  - simpl. apply Keep. apply String.eqb_eq in Eroot.
    assert (E : segs = [""]).
    { apply serialize_path_inj; try assumption; try reflexivity.
      discriminate. }
    rewrite E. unfold normalized_path. simpl.
    now destruct (removeTrailingSlash o).
  - cbn [negb]. rewrite replace_slashes_path
      by (try apply wf_segments_slash_free; assumption).
    rewrite endsWith_serialize
      by (try apply wf_segments_slash_free; assumption).
    unfold normalized_path.
    destruct (removeTrailingSlash o
              && String.eqb (last (collapse segs) "/") "") eqn:E.
    + apply andb_true_iff in E as [_ E]. apply String.eqb_eq in E.
      rewrite slice_serialize by assumption.
      pose proof (forallb_removelast _ _ Hc) as Hr.
      destruct (removelast (collapse segs)) as [|x r] eqn:Er.
      * destruct segs; [congruence|]. reflexivity.
      * destruct (String.eqb (URL.serialize_path (x :: r))
                             (URL.serialize_path segs)) eqn:Eq.
        -- simpl. apply Keep. apply String.eqb_eq in Eq.
           apply serialize_path_inj; try assumption. discriminate.
        -- cbn [negb push url].
           apply set_pathname_serialize; [assumption|discriminate].
    + destruct (String.eqb (URL.serialize_path (collapse segs))
                           (URL.serialize_path segs)) eqn:Eq.
      * simpl. apply Keep. apply String.eqb_eq in Eq.
        now apply serialize_path_inj.
      * cbn [negb push url]. now apply set_pathname_serialize.
Qed.


(* ================================================================== *)
(** * The constructor builds well-formed URLs *)

Lemma port_value_bound (s : string) (acc n : N) :
  (acc <= 65535)%N -> URL.port_value s acc = Some n -> (n <= 65535)%N.
Proof.
  revert acc; induction s as [|c s IH]; intros acc Ha; simpl.
  - now intros [= <-].
  - destruct (URL.is_digit c); [|discriminate].
    destruct (65535 <? _)%N eqn:E; [discriminate|].
    apply IH. now apply N.ltb_ge in E.
Qed.

Lemma split_slashes_free (s : string) :
  forallb (Str.forallb (fun c => negb (URL.is_slash c))) (URL.split_slashes s)
  = true.
Proof.
  induction s as [|c s IH]; [reflexivity|].
  cbn [URL.split_slashes]. destruct (URL.is_slash c) eqn:E.
  - cbn [forallb Str.forallb]. exact IH.
  - destruct (URL.split_slashes s) as [|h t]; simpl in *; now rewrite E.
Qed.

Lemma split_slashes_nonempty (s : string) : URL.split_slashes s <> [].
Proof.
  destruct s as [|c s]; [discriminate|]. cbn [URL.split_slashes].
  destruct (URL.is_slash c); discriminate.
Qed.

Lemma path_set_byte (c : ascii) :
  implb (Percent.path_set c)
        (Str.forallb segment_char (Percent.encode_byte c)) = true.
Proof. all_chars c. Qed.

Lemma path_set_rest (c : ascii) :
  implb (negb (Percent.path_set c) && negb (URL.is_slash c)) (segment_char c)
  = true.
Proof. all_chars c. Qed.

Lemma query_set_byte (c : ascii) :
  implb (Percent.special_query_set c)
        (Str.forallb query_char (Percent.encode_byte c)) = true.
Proof. all_chars c. Qed.

Lemma query_set_rest (c : ascii) :
  implb (negb (Percent.special_query_set c) && true) (query_char c) = true.
Proof. all_chars c. Qed.

Lemma fragment_set_byte (c : ascii) :
  implb (Percent.fragment_set c)
        (Str.forallb fragment_char (Percent.encode_byte c)) = true.
Proof. all_chars c. Qed.

Lemma fragment_set_rest (c : ascii) :
  implb (negb (Percent.fragment_set c) && true) (fragment_char c) = true.
Proof. all_chars c. Qed.

Lemma encode_query_chars (s : string) :
  Str.forallb query_char (Percent.encode Percent.special_query_set s) = true.
Proof.
  apply (encode_forallb _ _ (fun _ => true));
    [exact query_set_byte|exact query_set_rest|apply Str_forallb_true].
Qed.

Lemma encode_fragment_chars (s : string) :
  Str.forallb fragment_char (Percent.encode Percent.fragment_set s) = true.
Proof.
  apply (encode_forallb _ _ (fun _ => true));
    [exact fragment_set_byte|exact fragment_set_rest|apply Str_forallb_true].
Qed.

Lemma path_state_out (buffers acc : list string) :
  forallb (Str.forallb (fun c => negb (URL.is_slash c))) buffers = true ->
  forallb wf_segment acc = true ->
  forallb wf_segment (URL.path_state buffers acc) = true
  /\ (buffers <> [] -> URL.path_state buffers acc <> []).
Proof.
  revert acc; induction buffers as [|b rest IH]; intros acc Hb Ha.
  - split; [exact Ha|congruence].
  - cbn [forallb] in Hb. apply andb_true_iff in Hb as [Hb Hr].
    cbn [URL.path_state].
    set (buffer := Percent.encode Percent.path_set b).
    assert (Hc : Str.forallb segment_char buffer = true).
    { apply (encode_forallb _ _ (fun c => negb (URL.is_slash c)));
        [exact path_set_byte|exact path_set_rest|exact Hb]. }
    assert (Step : forall acc',
              forallb wf_segment acc' = true -> acc' <> [] ->
              forallb wf_segment (URL.path_state rest acc') = true
              /\ URL.path_state rest acc' <> []).
    { intros acc' Hw Hne. destruct (IH acc' Hr Hw) as [I1 I2].
      split; [exact I1|]. destruct rest; [exact Hne|]. apply I2. discriminate. }
    assert (Last : forall acc',
              forallb wf_segment acc' = true ->
              forallb wf_segment (acc' ++ [""]) = true
              /\ (acc' ++ [""])%list <> []).
    { intros acc' Hw. rewrite forallb_app, Hw. split; [reflexivity|].
      now destruct acc'. }
    pose proof (forallb_removelast _ _ Ha) as Hrl.
    destruct (URL.is_double_dot buffer) eqn:Edd.
    + destruct rest as [|b' rest'].
      * destruct (Last _ Hrl) as [L1 L2]. now split.
      * destruct (IH (removelast acc) Hr Hrl) as [I1 I2].
        split; [exact I1|]. intros _. apply I2. discriminate.
    + destruct (URL.is_single_dot buffer) eqn:Ed.
      * destruct rest as [|b' rest'].
        -- destruct (Last _ Ha) as [L1 L2]. now split.
        -- destruct (IH acc Hr Ha) as [I1 I2].
           split; [exact I1|]. intros _. apply I2. discriminate.
      * assert (Hw : forallb wf_segment (acc ++ [buffer]) = true).
        { rewrite forallb_app, Ha. cbn [forallb]. unfold wf_segment.
          now rewrite Hc, Ed, Edd. }
        destruct (Step (acc ++ [buffer])%list Hw) as [S1 S2];
          [now destruct acc|]. now split.
Qed.

Lemma path_parse_wf (p : string) :
  forallb wf_segment (URL.path_parse p) = true /\ URL.path_parse p <> [].
Proof.
  assert (G : forall s,
            forallb wf_segment (URL.path_state (URL.split_slashes s) []) = true
            /\ URL.path_state (URL.split_slashes s) [] <> []).
  { intros s.
    destruct (path_state_out (URL.split_slashes s) []) as [A B];
      [apply split_slashes_free|reflexivity|].
    split; [exact A|apply B, split_slashes_nonempty]. }
  unfold URL.path_parse. destruct p as [|c rest].
  - now split.
  - destruct (URL.is_slash c); apply G.
Qed.

Lemma query_fragment_wf (s : string) (q f : option string) :
  URL.query_fragment s = (q, f) ->
  match q with
  | None => true
  | Some q => Str.forallb query_char q
  end = true
  /\ wf_fragment f = true.
Proof.
  unfold URL.query_fragment.
  destruct s as [|c s]; [now intros [= <- <-]|].
  destruct (Ascii.eqb c "?") eqn:E1.
  - apply Ascii.eqb_eq in E1 as ->.
    destruct (URLSearchParams.cut "#" s) as [q0 f0].
    intros [= <- <-]. split; [apply encode_query_chars|].
    destruct f0; [apply encode_fragment_chars|reflexivity].
  - destruct (Ascii.eqb c "#") eqn:E2.
    + apply Ascii.eqb_eq in E2 as ->. intros [= <- <-].
      split; [reflexivity|apply encode_fragment_chars].
    + destruct c as [[] [] [] [] [] [] [] []]; try discriminate;
        now intros [= <- <-].
Qed.

(** The constructor answers with a well-formed URL. *)
Lemma parse_wf (input : string) (u : URL.t) :
  URL.parse input = URL.ParseOk u -> wf u = true.
Proof.
  unfold URL.parse.
  destruct (URL.scheme_state _) as [[sch rest]|]; [|discriminate].
  destruct (negb (String.eqb sch "http" || String.eqb sch "https")
            || negb (URL.ascii_only _)) eqn:E1; [discriminate|].
  destruct (Str.span _ (URL.skip_slashes rest)) as [authority rest2].
  destruct (Str.includes authority "@"); [discriminate|].
  destruct (URLSearchParams.cut ":" authority) as [hostname port].
  destruct (String.eqb hostname ""); [discriminate|].
  destruct (URL.host_parse hostname) as [h| |] eqn:Eh; try discriminate.
  destruct (URL.port_value _ 0%N) as [n|] eqn:Ep; [|discriminate].
  destruct (Str.span _ rest2) as [p rest3].
  destruct (URL.query_fragment rest3) as [q f] eqn:Eqf.
  destruct (Str.includes p "^" || negb (URL.query_in_model _)) eqn:E2;
    [discriminate|].
  intros [= <-].
  apply orb_false_iff in E1 as [E1 _]. apply negb_false_iff in E1.
  apply orb_false_iff in E2 as [_ E2]. apply negb_false_iff in E2.
  apply query_fragment_wf in Eqf as [Hq Hf].
  destruct (path_parse_wf p) as [Hp Hpn].
  apply wf_intro;
    cbn [URL.scheme URL.host URL.port URL.path URL.query URL.fragment];
    try assumption.
  - apply orb_true_iff in E1 as [E|E]; apply String.eqb_eq in E; auto.
  - now apply (host_parse_wf hostname).
  - apply port_value_bound in Ep; [|discriminate]. apply N.leb_le in Ep.
    unfold wf_port, URL.is_default_port.
    destruct port as [[|c port]|]; try reflexivity.
    destruct (URL.default_port sch) as [d|]; [|now rewrite Ep].
    destruct (N.eqb n d) eqn:Ed; [reflexivity|]. now rewrite Ep, Ed.
  - destruct q as [q|]; [|reflexivity]. simpl. now rewrite Hq, E2.
Qed.

(* ================================================================== *)
(** * The whole of [cleanUrl] on a well-formed URL *)

Lemma remove_fragment_url (st : state) :
  url (remove_fragment o st)
  = URL.mk (URL.scheme (url st)) (URL.host (url st)) (URL.port (url st))
           (URL.path (url st)) (URL.query (url st))
           (cleaned_fragment o (URL.fragment (url st))).
Proof.
  unfold remove_fragment, URL.hash, cleaned_fragment, truthy.
  destruct (URL.fragment (url st)) as [[|c f]|] eqn:E;
    rewrite ?andb_false_r; try (rewrite <- E; apply url_eta).
  simpl negb. rewrite andb_true_r.
  destruct (removeFragment o); [reflexivity|].
  rewrite <- E. apply url_eta.
Qed.

Lemma clean_parsed_url (u : URL.t) :
  wf u = true ->
  exists st, clean_parsed fetch o u = Some st
             /\ url st = cleaned_url fetch o u.
Proof.
  intros W. unfold clean_parsed. cbv zeta.
  pose proof (wf_inv _ W) as (Hs & _).
  rewrite upgrade_https_eq by exact Hs. cbn [url].
  remember (if upgrades fetch o u
            then push {| url := u; log := [] |} (upgraded u) "Upgraded to HTTPS"
            else {| url := u; log := [] |}) as st1 eqn:Hst1.
  assert (E1 : url st1 = if upgrades fetch o u then upgraded u else u)
    by (rewrite Hst1; now destruct (upgrades fetch o u)).
  assert (W1 : wf (url st1) = true).
  { rewrite E1. destruct (upgrades fetch o u); [now apply wf_upgraded|exact W]. }
  pose proof (wf_inv _ W1) as (_ & Hh1 & _).
  rewrite remove_www_eq by exact Hh1.
  remember (if strips_www o (url st1)
            then push st1 (stripped (url st1)) "Removed www prefix" else st1)
    as st2 eqn:Hst2.
  assert (E2 : url st2
               = if strips_www o (url st1) then stripped (url st1) else url st1)
    by (rewrite Hst2; now destruct (strips_www o (url st1))).
  assert (W2 : wf (url st2) = true).
  { rewrite E2. destruct (strips_www o (url st1)) eqn:Es; [|exact W1].
    apply wf_stripped; [exact W1|].
    unfold strips_www in Es. now apply andb_true_iff in Es as [_ Es]. }
  pose proof (wf_inv _ W2) as (Hs2 & _ & Hp2 & Hn2 & Hl2 & _).
  rewrite remove_default_port_eq by assumption.
  eexists. split; [reflexivity|].
  rewrite normalize_path_url; rewrite remove_fragment_url, clean_search_url;
    cbn [URL.scheme URL.host URL.port URL.path URL.query URL.fragment];
    try assumption.
  unfold cleaned_url. cbv zeta. rewrite <- E1, <- E2. reflexivity.
Qed.

Lemma stripped_fields (u : URL.t) :
  URL.scheme (stripped u) = URL.scheme u
  /\ URL.port (stripped u) = URL.port u
  /\ URL.path (stripped u) = URL.path u
  /\ URL.query (stripped u) = URL.query u
  /\ URL.fragment (stripped u) = URL.fragment u.
Proof. unfold stripped. now destruct (String.eqb _ _). Qed.

Lemma clean_search_log (st : state) :
  log (clean_search o st)
  = (log st ++ entry_if (search_changed o (URL.query (url st)))
                        "Removed tracking parameters")%list.
Proof.
  unfold clean_search, search_changed. rewrite search_truthy.
  destruct (URL.query (url st)) as [[|c q]|] eqn:Eq;
    try (cbn [entry_if]; now rewrite app_nil_r).
  cbv zeta.
  assert (E : forall (u : URL.t) (n : nat),
            log (if negb (String.length (URL.search u) =? n)
                 then push st u "Removed tracking parameters"
                 else {| url := u; log := log st |})
            = (log st ++ entry_if (negb (String.length (URL.search u) =? n))
                                  "Removed tracking parameters")%list).
  { intros u n. destruct (negb _); cbn [entry_if log push];
      [reflexivity|now rewrite app_nil_r]. }
  rewrite E. clear E.
  assert (S : URL.search (url st) = "?" ++ String c q)
    by (unfold URL.search; now rewrite Eq).
  rewrite !S.
  change (URLSearchParams.parse ("?" ++ String c q))
    with (URLSearchParams.parse_urlencoded (String c q)).
  unfold URLSearchParams.entries, URLSearchParams.of_entries.
  rewrite fold_left_keep_entry. simpl app.
  unfold cleaned_query, cleaned_entries.
  destruct (sortParams o); rewrite set_search_form by apply toString_form;
    reflexivity.
Qed.

Lemma remove_fragment_log (st : state) :
  log (remove_fragment o st)
  = (log st ++ entry_if (fragment_changed o (URL.fragment (url st)))
                        "Removed URL fragment")%list.
Proof.
  unfold remove_fragment, fragment_changed, URL.hash, truthy.
  destruct (URL.fragment (url st)) as [[|c f]|];
    rewrite ?andb_false_r; cbn [entry_if]; try now rewrite app_nil_r.
  simpl negb. rewrite andb_true_r.
  destruct (removeFragment o); [reflexivity|now rewrite app_nil_r].
Qed.

Lemma normalize_path_log_eq (st : state) :
  log (normalize_path o st)
  = (log st ++ entry_if (path_changed o (URL.path (url st)))
                        "Normalized path")%list.
Proof.
  unfold normalize_path, path_changed, URL.pathname. cbv zeta.
  destruct (negb (String.eqb _ "/")); [|cbn [entry_if]; now rewrite app_nil_r].
  cbn [andb].
  destruct (negb _); cbn [entry_if]; [reflexivity|now rewrite app_nil_r].
Qed.

(** The change log, entry by entry. *)
Lemma clean_parsed_change_log (u : URL.t) (st : state) :
  wf u = true -> clean_parsed fetch o u = Some st ->
  log st = change_log fetch o u.
Proof.
  intros W. unfold clean_parsed. cbv zeta.
  pose proof (wf_inv _ W) as (Hs & _).
  rewrite upgrade_https_eq by exact Hs. cbn [url].
  remember (if upgrades fetch o u
            then push {| url := u; log := [] |} (upgraded u) "Upgraded to HTTPS"
            else {| url := u; log := [] |}) as st1 eqn:Hst1.
  assert (E1 : url st1 = if upgrades fetch o u then upgraded u else u)
    by (rewrite Hst1; now destruct (upgrades fetch o u)).
  assert (L1 : log st1 = entry_if (upgrades fetch o u) "Upgraded to HTTPS")
    by (rewrite Hst1; now destruct (upgrades fetch o u)).
  assert (W1 : wf (url st1) = true).
  { rewrite E1. destruct (upgrades fetch o u); [now apply wf_upgraded|exact W]. }
  pose proof (wf_inv _ W1) as (_ & Hh1 & _).
  rewrite remove_www_eq by exact Hh1.
  remember (if strips_www o (url st1)
            then push st1 (stripped (url st1)) "Removed www prefix" else st1)
    as st2 eqn:Hst2.
  assert (E2 : url st2
               = if strips_www o (url st1) then stripped (url st1) else url st1)
    by (rewrite Hst2; now destruct (strips_www o (url st1))).
  assert (L2 : log st2 = (log st1 ++ entry_if (strips_www o (url st1))
                                              "Removed www prefix")%list).
  { rewrite Hst2. destruct (strips_www o (url st1)); cbn [entry_if];
      [reflexivity|now rewrite app_nil_r]. }
  assert (W2 : wf (url st2) = true).
  { rewrite E2. destruct (strips_www o (url st1)) eqn:Es; [|exact W1].
    apply wf_stripped; [exact W1|].
    unfold strips_www in Es. now apply andb_true_iff in Es as [_ Es]. }
  pose proof (wf_inv _ W2) as (Hs2 & _ & Hp2 & _).
  rewrite remove_default_port_eq by assumption.
  clear Hst1 Hst2. intros [= <-].
  rewrite normalize_path_log_eq, remove_fragment_log, clean_search_log.
  rewrite remove_fragment_url, clean_search_url.
  cbn [URL.scheme URL.host URL.port URL.path URL.query URL.fragment].
  rewrite L2, L1. unfold change_log. cbv zeta. rewrite <- E1.
  assert (F : URL.path (url st2) = URL.path u
              /\ URL.query (url st2) = URL.query u
              /\ URL.fragment (url st2) = URL.fragment u).
  { rewrite E2, E1.
    set (u1 := if upgrades fetch o u then upgraded u else u).
    assert (F1 : URL.path u1 = URL.path u /\ URL.query u1 = URL.query u
                 /\ URL.fragment u1 = URL.fragment u)
      by (subst u1; destruct (upgrades fetch o u); repeat split).
    destruct (strips_www o u1); [|exact F1].
    destruct (stripped_fields u1) as (_ & _ & A & B & C).
    now rewrite A, B, C. }
  destruct F as (-> & -> & ->).
  now rewrite <- !app_assoc.
Qed.

End Steps.

(** On an input that the constructor accepts, [cleanUrl] returns: [original]
    is the serialized input, [cleaned] the serialized [cleaned_url], and
    [changes] is [change_log]. *)
Lemma cleanUrl_parsed (fetch : string -> option bool) (inputUrl : string)
      (options : option Options) (u : URL.t) :
  URL.parse inputUrl = URL.ParseOk u ->
  cleanUrl fetch inputUrl options
  = Returned {| original := URL.href u;
                cleaned := URL.href (cleaned_url fetch (destructure options) u);
                changes := change_log fetch (destructure options) u |}.
Proof.
  intros P. pose proof (parse_wf _ _ P) as W.
  destruct (clean_parsed_url fetch (destructure options) u W) as (st & E & U).
  pose proof (clean_parsed_change_log fetch _ u st W E) as L.
  unfold cleanUrl. now rewrite P, E, U, L.
Qed.

Lemma In_entry_if (b : bool) (change x : string) :
  In x (entry_if b change) <-> b = true /\ x = change.
Proof.
  destruct b; simpl; split; try tauto.
  - intros [<-|[]]. now split.
  - intros [_ ->]. now left.
  - intros [H _]. discriminate.
Qed.

(** The entries of the change log, one by one. *)
Lemma In_change_log (fetch : string -> option bool) (o : Flags) (u : URL.t)
      (x : string) :
  In x (change_log fetch o u) <->
  (upgrades fetch o u = true /\ x = "Upgraded to HTTPS")
  \/ (strips_www o (if upgrades fetch o u then upgraded u else u) = true
      /\ x = "Removed www prefix")
  \/ (search_changed o (URL.query u) = true
      /\ x = "Removed tracking parameters")
  \/ (fragment_changed o (URL.fragment u) = true /\ x = "Removed URL fragment")
  \/ (path_changed o (URL.path u) = true /\ x = "Normalized path").
Proof.
  unfold change_log. cbv zeta. rewrite !in_app_iff, !In_entry_if. tauto.
Qed.

Lemma cleaned_url_scheme (fetch : string -> option bool) (o : Flags) (u : URL.t) :
  URL.scheme (cleaned_url fetch o u)
  = if upgrades fetch o u then "https" else URL.scheme u.
Proof.
  unfold cleaned_url. cbv zeta. cbn [URL.scheme].
  destruct (strips_www o _); [rewrite (proj1 (stripped_fields _))|];
    now destruct (upgrades fetch o u).
Qed.

Lemma cleaned_url_path (fetch : string -> option bool) (o : Flags) (u : URL.t) :
  URL.path (cleaned_url fetch o u) = normalized_path o (URL.path u).
Proof.
  unfold cleaned_url. cbv zeta. cbn [URL.path].
  destruct (strips_www o _);
    [rewrite (proj1 (proj2 (proj2 (stripped_fields _))))|];
    now destruct (upgrades fetch o u).
Qed.

Lemma cleaned_url_query (fetch : string -> option bool) (o : Flags) (u : URL.t) :
  URL.query (cleaned_url fetch o u) = cleaned_query o (URL.query u).
Proof.
  unfold cleaned_url. cbv zeta. cbn [URL.query].
  destruct (strips_www o _);
    [rewrite (proj1 (proj2 (proj2 (proj2 (stripped_fields _)))))|];
    now destruct (upgrades fetch o u).
Qed.

Lemma cleaned_url_fragment (fetch : string -> option bool) (o : Flags) (u : URL.t) :
  URL.fragment (cleaned_url fetch o u) = cleaned_fragment o (URL.fragment u).
Proof.
  unfold cleaned_url. cbv zeta. cbn [URL.fragment].
  destruct (strips_www o _);
    [rewrite (proj2 (proj2 (proj2 (proj2 (stripped_fields _)))))|];
    now destruct (upgrades fetch o u).
Qed.

(** The URL before the query, fragment and path steps is well formed. *)
Lemma wf_before_query (fetch : string -> option bool) (o : Flags) (u : URL.t) :
  wf u = true ->
  wf (let u1 := if upgrades fetch o u then upgraded u else u in
      if strips_www o u1 then stripped u1 else u1) = true.
Proof.
  intros W. cbv zeta.
  assert (W1 : wf (if upgrades fetch o u then upgraded u else u) = true)
    by (destruct (upgrades fetch o u); [now apply wf_upgraded|exact W]).
  destruct (strips_www o _) eqn:Es; [|exact W1].
  apply wf_stripped; [exact W1|].
  unfold strips_www in Es. now apply andb_true_iff in Es as [_ Es].
Qed.

Lemma cleaned_url_port (fetch : string -> option bool) (o : Flags) (u : URL.t) :
  wf u = true ->
  URL.is_default_port (URL.scheme (cleaned_url fetch o u))
                      (URL.port (cleaned_url fetch o u)) = false.
Proof.
  intros W. pose proof (wf_inv _ (wf_before_query fetch o u W))
    as (_ & _ & Hp & _).
  unfold cleaned_url. cbv zeta in *. cbn [URL.scheme URL.port].
  unfold wf_port in Hp.
  destruct (URL.port _) as [n|]; [|reflexivity].
  apply andb_true_iff in Hp as [_ Hp]. now apply negb_true_iff in Hp.
Qed.

Lemma protocol_http (u : URL.t) :
  wf u = true -> URL.protocol u = "http:" -> URL.scheme u = "http".
Proof.
  intros W. apply wf_inv in W as ([E|E] & _); unfold URL.protocol; rewrite E.
  - reflexivity.
  - discriminate.
Qed.

Lemma href_scheme_prefix (u : URL.t) (w : string) :
  URL.scheme u = w -> Str.startsWith (URL.href u) (w ++ "://") = true.
Proof.
  intros <-. unfold URL.href. rewrite <- sapp_assoc. apply startsWith_app.
Qed.

(* ================================================================== *)
(** * The HTTPS probe *)

(** The serialization of an [http] URL starts with [http:], and the probe is
    sent to the same text after [https:]. *)
Lemma href_http (u : URL.t) :
  URL.scheme u = "http" ->
  exists rest,
    URL.href u = "http:" ++ rest
    /\ replace_http (URL.href u) = "https:" ++ rest.
Proof.
  intros E. unfold URL.href. rewrite E. eexists. split; [reflexivity|].
  unfold replace_http.
  change ("http" ++ "://" ++ ?x) with ("http:" ++ "//" ++ x).
  now rewrite startsWith_app.
Qed.

(** C5: with [tryHttps] on and an [http] URL, [cleanUrl] returns a result
    whatever the probe does.  The probe is [fetch] on the serialized URL with
    [https:] in place of [http:], and it succeeds exactly when [fetch] is
    fulfilled with a response that is [ok].  When [fetch] rejects, or when
    the response is not [ok], the cleaned URL is still an [http] URL and the
    change log has no [Upgraded to HTTPS]; when the response is [ok], the
    cleaned URL is an [https] URL and the change log has the entry. *)
Theorem C5_https_probe (fetch : string -> option bool) (inputUrl : string)
        (options : option Options) (u : URL.t) :
  URL.parse inputUrl = URL.ParseOk u ->
  tryHttps (destructure options) = true ->
  URL.protocol u = "http:" ->
  exists r rest,
    cleanUrl fetch inputUrl options = Returned r
    /\ URL.href u = "http:" ++ rest
    /\ (canUseHttps fetch (URL.href u) = true <->
        fetch ("https:" ++ rest) = Some true)
    /\ (fetch ("https:" ++ rest) = None
        \/ fetch ("https:" ++ rest) = Some false ->
        Str.startsWith (cleaned r) "http://" = true
        /\ ~ In "Upgraded to HTTPS" (changes r))
    /\ (fetch ("https:" ++ rest) = Some true ->
        Str.startsWith (cleaned r) "https://" = true
        /\ In "Upgraded to HTTPS" (changes r)).
Proof.
  intros P Ht Hp. pose proof (parse_wf _ _ P) as W.
  pose proof (protocol_http _ W Hp) as Hs.
  destruct (href_http u Hs) as (rest & E & R).
  eexists. exists rest.
  split; [exact (cleanUrl_parsed fetch inputUrl options u P)|].
  cbn [cleaned changes]. split; [exact E|].
  assert (Up : upgrades fetch (destructure options) u
               = canUseHttps fetch (URL.href u)).
  { unfold upgrades. now rewrite Ht, Hs. }
  assert (C : canUseHttps fetch (URL.href u)
              = match fetch ("https:" ++ rest) with
                | Some ok => ok
                | None => false
                end).
  { unfold canUseHttps. cbv zeta. now rewrite R. }
  split; [|split].
  - rewrite C. destruct (fetch ("https:" ++ rest)) as [[|]|];
      split; congruence.
  - intros F.
    assert (C' : canUseHttps fetch (URL.href u) = false)
      by (rewrite C; destruct F as [F|F]; now rewrite F).
    split.
    + apply (href_scheme_prefix _ "http").
      now rewrite cleaned_url_scheme, Up, C'.
    + rewrite In_change_log, Up, C'.
      intros [[H _]|[[_ H]|[[_ H]|[[_ H]|[_ H]]]]]; discriminate.
  - intros F.
    assert (C' : canUseHttps fetch (URL.href u) = true)
      by (rewrite C; now rewrite F).
    split.
    + apply (href_scheme_prefix _ "https").
      now rewrite cleaned_url_scheme, Up, C'.
    + rewrite In_change_log, Up, C'. now left.
Qed.

Lemma C5_https_probe_witness :
  (exists r,
     cleanUrl (fun s => if String.eqb s "https://www.example.com/a?utm_source=x"
                        then Some true else None)
              "http://www.example.com/a?utm_source=x" (Some no_options)
     = Returned r
     /\ Str.startsWith (cleaned r) "https://" = true
     /\ In "Upgraded to HTTPS" (changes r))
  /\ (exists r,
        cleanUrl (fun s => if String.eqb s "https://www.example.com/a?utm_source=x"
                           then Some false else Some true)
                 "http://www.example.com/a?utm_source=x" (Some no_options)
        = Returned r
        /\ Str.startsWith (cleaned r) "http://" = true
        /\ ~ In "Upgraded to HTTPS" (changes r)).
Proof.
  split.
  - destruct (C5_https_probe
                (fun s => if String.eqb s "https://www.example.com/a?utm_source=x"
                          then Some true else None)
                "http://www.example.com/a?utm_source=x" (Some no_options)
                (URL.mk "http" "www.example.com" None ["a"]
                        (Some "utm_source=x") None)
                eq_refl eq_refl eq_refl) as (r & rest & R & E & _ & _ & S).
    vm_compute in E. injection E as <-.
    exists r. split; [exact R|]. apply S. reflexivity.
  - destruct (C5_https_probe
                (fun s => if String.eqb s "https://www.example.com/a?utm_source=x"
                          then Some false else Some true)
                "http://www.example.com/a?utm_source=x" (Some no_options)
                (URL.mk "http" "www.example.com" None ["a"]
                        (Some "utm_source=x") None)
                eq_refl eq_refl eq_refl) as (r & rest & R & E & _ & F & _).
    vm_compute in E. injection E as <-.
    exists r. split; [exact R|]. apply F. right. reflexivity.
Defined.

(* ================================================================== *)
(** * Trailing separators *)





(* ================================================================== *)
(** * The order of the parameters *)

Lemma leb_refl (s : string) : String.leb s s = true.
Proof. now destruct (String.leb_total s s). Qed.

Lemma entry_le_total (x y : string * string) :
  JsArray.le x y = false -> JsArray.le y x = true.
Proof.
  unfold JsArray.le. intros H.
  destruct (String.leb_total (JsArray.toString x) (JsArray.toString y));
    congruence.
Qed.

Lemma insert_perm (x : string * string) (l : list (string * string)) :
  Permutation (x :: l) (JsArray.insert x l).
Proof.
  induction l as [|y l IH]; simpl; [apply Permutation_refl|].
  destruct (JsArray.le x y); [apply Permutation_refl|].
  eapply perm_trans; [apply perm_swap|]. now apply perm_skip.
Qed.

Lemma sort_perm (l : list (string * string)) : Permutation l (JsArray.sort l).
Proof.
  induction l as [|x l IH]; simpl; [apply perm_nil|].
  eapply perm_trans; [apply perm_skip, IH|apply insert_perm].
Qed.

Lemma insert_sorted (x : string * string) (l : list (string * string)) :
  Sorted entry_le l -> Sorted entry_le (JsArray.insert x l).
Proof.
  induction l as [|y l IH]; simpl; intros H.
  - repeat constructor.
  - destruct (JsArray.le x y) eqn:E.
    + constructor; [exact H|]. now constructor.
    + apply Sorted_inv in H as [Hs Hh]. constructor; [now apply IH|].
      destruct l as [|z l]; simpl.
      * constructor. now apply entry_le_total.
      * destruct (JsArray.le x z).
        -- constructor. now apply entry_le_total.
        -- constructor. now apply HdRel_inv in Hh.
Qed.

Lemma sort_sorted (l : list (string * string)) : Sorted entry_le (JsArray.sort l).
Proof.
  induction l as [|x l IH]; simpl; [constructor|]. now apply insert_sorted.
Qed.

(** The sort keeps the order of the entries that it cannot tell apart. *)
Lemma insert_stable (x0 x : string * string) (l : list (string * string)) :
  filter (same_string x0) (JsArray.insert x l)
  = filter (same_string x0) (x :: l).
Proof.
  induction l as [|y l IH]; [reflexivity|]. cbn [JsArray.insert].
  destruct (JsArray.le x y) eqn:E; [reflexivity|].
  cbn [filter] in *. rewrite IH.
  destruct (same_string x0 x) eqn:Ex; [|reflexivity].
  destruct (same_string x0 y) eqn:Ey; [|reflexivity].
  unfold same_string in *. apply String.eqb_eq in Ex, Ey.
  unfold JsArray.le in E. rewrite Ex, Ey, leb_refl in E. discriminate.
Qed.

Lemma sort_stable (x0 : string * string) (l : list (string * string)) :
  filter (same_string x0) (JsArray.sort l) = filter (same_string x0) l.
Proof.
  induction l as [|x l IH]; [reflexivity|]. simpl JsArray.sort.
  rewrite insert_stable. cbn [filter]. now rewrite IH.
Qed.

(** A sorted list is left as it is. *)
Lemma sort_sorted_id (l : list (string * string)) :
  Sorted entry_le l -> JsArray.sort l = l.
Proof.
  induction l as [|x l IH]; [reflexivity|]. intros H.
  apply Sorted_inv in H as [Hs Hh]. simpl. rewrite (IH Hs).
  destruct l as [|y l]; [reflexivity|]. simpl.
  apply HdRel_inv in Hh. unfold entry_le in Hh. now rewrite Hh.
Qed.

Lemma search_of_query (q : option string) (u : URL.t) :
  URL.query u = q ->
  URL.search u
  = match q with
    | Some (String _ _ as q') => "?" ++ q'
    | _ => EmptyString
    end.
Proof. intros <-. reflexivity. Qed.

(** C3, as the claim states it, fails: the pairs of key [a] come out in the
    order of their values, not in the order they had. *)
Lemma C3_counterexample :
  cleanUrl (fun _ => None) "https://example.com/?a=2&a=1" None
  = Returned {| original := "https://example.com/?a=2&a=1";
                cleaned := "https://example.com/?a=1&a=2";
                changes := ["Removed tracking parameters"] |}
  /\ filter (keeps (destructure None)) (URLSearchParams.parse_urlencoded "a=2&a=1")
     = [("a", "2"); ("a", "1")]
  /\ stable_sort_by_key [("a", "2"); ("a", "1")] = [("a", "2"); ("a", "1")]
  /\ cleaned_entries (destructure None) "a=2&a=1" = [("a", "1"); ("a", "2")].
Proof. repeat split. Qed.

(** C3, amended: with [sortParams] on, the surviving pairs are sorted, by a
    stable sort, on the string [key,value] that the default comparison of
    [Array.prototype.sort] makes of a pair: the cleaned query serializes a
    permutation of the post-filter sequence that is ordered by these
    strings and keeps the relative order of the pairs that have the same
    one.  The query [?b=2&a=1&a=2] yields [?a=1&a=2&b=2]. *)
Theorem C3_sort_by_entry_string (fetch : string -> option bool)
        (inputUrl : string) (options : option Options) (u : URL.t)
        (c : ascii) (q : string) :
  URL.parse inputUrl = URL.ParseOk u ->
  sortParams (destructure options) = true ->
  URL.query u = Some (String c q) ->
  let kept := filter (keeps (destructure options))
                     (URLSearchParams.parse_urlencoded (String c q)) in
  (exists r u' sorted,
     cleanUrl fetch inputUrl options = Returned r
     /\ cleaned r = URL.href u'
     /\ URL.search u'
        = match URLSearchParams.toString sorted with
          | EmptyString => EmptyString
          | s => "?" ++ s
          end
     /\ sorted = JsArray.sort kept
     /\ Permutation kept sorted
     /\ Sorted entry_le sorted
     /\ forall x, filter (same_string x) sorted = filter (same_string x) kept)
  /\ cleaned_query (destructure options) (Some "b=2&a=1&a=2")
     = Some "a=1&a=2&b=2".
Proof.
  intros P Hs Hq kept. split.
  - eexists. exists (cleaned_url fetch (destructure options) u).
    exists (JsArray.sort kept).
    split; [exact (cleanUrl_parsed fetch inputUrl options u P)|].
    split; [reflexivity|]. split.
    + rewrite (search_of_query _ _ (cleaned_url_query fetch _ u)), Hq.
      unfold cleaned_query, cleaned_entries. rewrite Hs. fold kept.
      now destruct (URLSearchParams.toString (JsArray.sort kept)).
    + split; [reflexivity|]. split; [apply sort_perm|].
      split; [apply sort_sorted|]. intros x. apply sort_stable.
  - unfold cleaned_query, cleaned_entries. rewrite Hs.
    assert (K : filter (keeps (destructure options))
                       (URLSearchParams.parse_urlencoded "b=2&a=1&a=2")
                = [("b", "2"); ("a", "1"); ("a", "2")]).
    { change (URLSearchParams.parse_urlencoded "b=2&a=1&a=2")
        with [("b", "2"); ("a", "1"); ("a", "2")].
      apply filter_all. unfold keeps, shouldRemove. simpl.
      now rewrite !andb_false_r, !orb_true_r. }
    rewrite K. reflexivity.
Qed.

Lemma C3_sort_by_entry_string_witness :
  exists r u' sorted,
    cleanUrl (fun _ => None) "https://example.com/?b=2&a=1&a=2" None = Returned r
    /\ cleaned r = URL.href u'
    /\ URL.search u'
       = match URLSearchParams.toString sorted with
         | EmptyString => EmptyString
         | s => "?" ++ s
         end
    /\ sorted = [("a", "1"); ("a", "2"); ("b", "2")].
Proof.
  destruct (C3_sort_by_entry_string (fun _ => None)
              "https://example.com/?b=2&a=1&a=2" None
              (URL.mk "https" "example.com" None [""] (Some "b=2&a=1&a=2") None)
              "b" "=2&a=1&a=2" eq_refl eq_refl eq_refl)
    as [(r & u' & sorted & R & C & S & E & _) _].
  exists r, u', sorted. repeat split; assumption.
Defined.

(* ================================================================== *)
(** * The examples of [testUrlCleaning] and of the specification *)

Example test_url_1 :
  cleanUrl (fun _ => Some true)
           "http://www.example.com/path/?utm_source=test&page=2#section" None
  = Returned {| original :=
                  "http://www.example.com/path/?utm_source=test&page=2#section";
                cleaned := "https://example.com/path?page=2";
                changes := ["Upgraded to HTTPS"; "Removed www prefix";
                            "Removed tracking parameters";
                            "Removed URL fragment"; "Normalized path"] |}.
Proof. reflexivity. Qed.

Example test_url_2 :
  cleanUrl (fun _ => None) "https://example.com/path//" None
  = Returned {| original := "https://example.com/path//";
                cleaned := "https://example.com/path";
                changes := ["Normalized path"] |}.
Proof. reflexivity. Qed.

Example test_url_3 :
  cleanUrl (fun _ => None)
           "http://example.com:80/path?fbclid=123&q=test&ref=social" None
  = Returned {| original :=
                  "http://example.com/path?fbclid=123&q=test&ref=social";
                cleaned := "http://example.com/path?q=test";
                changes := ["Removed tracking parameters"] |}.
Proof. reflexivity. Qed.

Example test_url_4 :
  cleanUrl (fun _ => None)
           "https://www.site.com/article/?_ga=1.2.3.4&utm_campaign=spring#top"
           None
  = Returned {| original :=
                  "https://www.site.com/article/?_ga=1.2.3.4&utm_campaign=spring#top";
                cleaned := "https://site.com/article";
                changes := ["Removed www prefix"; "Removed tracking parameters";
                            "Removed URL fragment"; "Normalized path"] |}.
Proof. reflexivity. Qed.

(** The composite example of the specification, with an HTTPS endpoint that
    answers. *)
Example composite_example :
  cleanUrl (fun _ => Some true)
           "http://www.example.com/a//b/?utm_source=x&page=2#frag" None
  = Returned {| original :=
                  "http://www.example.com/a//b/?utm_source=x&page=2#frag";
                cleaned := "https://example.com/a/b?page=2";
                changes := ["Upgraded to HTTPS"; "Removed www prefix";
                            "Removed tracking parameters";
                            "Removed URL fragment"; "Normalized path"] |}.
Proof. reflexivity. Qed.

(** What the constructor makes of an input that needs normalizing. *)
Example parse_example :
  URL.parse "  HTTP:\\Example.COM:080/a/./b/../c d?x=%20y#f g"
  = URL.ParseOk (URL.mk "http" "example.com" None ["a"; "c%20d"]
                        (Some "x=%20y") (Some "f%20g")).
Proof. reflexivity. Qed.

(* ================================================================== *)
(** * The report of a URL that needs no cleaning *)

Lemma path_unchanged (o : Flags) (segs : list string) :
  forallb wf_segment segs = true -> segs <> [] ->
  path_changed o segs = false -> normalized_path o segs = segs.
Proof.
  intros Hl Hn Hc.
  set (st := {| url := URL.mk "" "" None segs None None; log := [] |}).
  pose proof (normalize_path_url o st Hl Hn) as U.
  assert (E : normalize_path o st = st).
  { unfold normalize_path, path_changed, URL.pathname in *.
    cbv zeta in *. cbn [url URL.path st] in *.
    destruct (negb (String.eqb (URL.serialize_path segs) "/")); [|reflexivity].
    cbn [andb] in Hc. now rewrite Hc. }
  rewrite E in U. cbn [url st URL.path URL.scheme URL.host URL.port URL.query
                       URL.fragment] in U.
  now injection U as <-.
Qed.

(** Without a query, a URL on which every enabled rule finds nothing to do
    is returned as it is, with an empty change log. *)
Lemma noop_without_query (fetch : string -> option bool) (inputUrl : string)
      (options : option Options) (u : URL.t) :
  URL.parse inputUrl = URL.ParseOk u ->
  upgrades fetch (destructure options) u = false ->
  strips_www (destructure options) u = false ->
  URL.search u = EmptyString ->
  fragment_changed (destructure options) (URL.fragment u) = false ->
  path_changed (destructure options) (URL.path u) = false ->
  cleanUrl fetch inputUrl options
  = Returned {| original := URL.href u; cleaned := URL.href u; changes := [] |}.
Proof.
  intros P Hu Hw Hq Hf Hp. pose proof (parse_wf _ _ P) as W.
  pose proof (wf_inv _ W) as (_ & _ & _ & Hn & Hl & _).
  rewrite (cleanUrl_parsed fetch inputUrl options u P).
  set (o := destructure options) in *.
  assert (Q : cleaned_query o (URL.query u) = URL.query u
              /\ search_changed o (URL.query u) = false).
  { unfold URL.search in Hq.
    destruct (URL.query u) as [[|c q]|]; try discriminate; now split. }
  destruct Q as [Q1 Q2].
  assert (F : cleaned_fragment o (URL.fragment u) = URL.fragment u).
  { unfold fragment_changed, cleaned_fragment in *.
    destruct (URL.fragment u) as [[|c f]|]; try reflexivity. now rewrite Hf. }
  assert (C : cleaned_url fetch o u = u).
  { unfold cleaned_url. cbv zeta. rewrite Hu, Hw, Q1, F.
    rewrite path_unchanged by assumption. symmetry. apply url_eta. }
  assert (L : change_log fetch o u = []).
  { unfold change_log. cbv zeta. now rewrite Hu, Hw, Q2, Hf, Hp. }
  now rewrite C, L.
Qed.


Lemma length_app (a b : string) :
  String.length (a ++ b) = String.length a + String.length b.
Proof. induction a as [|x a IH]; simpl; [reflexivity|now rewrite IH]. Qed.

(** C1 fails on the code: [https://example.com/?a=1] satisfies every rule and
    is cleaned to itself, yet the change log holds [Removed tracking
    parameters].  The step compares the length of [url.search], which counts
    the leading [?], with the length of the serialized parameters, which
    does not: whenever the query that is written back is not empty and is
    as long as the serialization of the parameters before the cleanup, the
    entry is appended. *)
Theorem C1_unchanged_query_is_reported (fetch : string -> option bool)
        (inputUrl : string) (options : option Options) (u : URL.t)
        (c : ascii) (q s : string) :
  URL.parse inputUrl = URL.ParseOk u ->
  URL.query u = Some (String c q) ->
  cleaned_query (destructure options) (URL.query u) = Some s ->
  String.length s
  = String.length (URLSearchParams.toString
                     (URLSearchParams.parse_urlencoded (String c q))) ->
  (exists r,
     cleanUrl fetch inputUrl options = Returned r
     /\ In "Removed tracking parameters" (changes r))
  /\ cleanUrl fetch "https://example.com/?a=1" None
     = Returned {| original := "https://example.com/?a=1";
                   cleaned := "https://example.com/?a=1";
                   changes := ["Removed tracking parameters"] |}.
Proof.
  intros P Hq Hc Hl. split; [|reflexivity].
  eexists. split; [exact (cleanUrl_parsed fetch inputUrl options u P)|].
  cbn [changes]. rewrite In_change_log. right. right. left.
  split; [|reflexivity].
  unfold search_changed. rewrite Hc, Hq.
  assert (Hs : s <> EmptyString).
  { rewrite Hq in Hc. unfold cleaned_query in Hc.
    destruct (String.eqb _ "") eqn:E; [discriminate|].
    injection Hc as <-. now apply String.eqb_neq in E. }
  destruct s as [|x s]; [congruence|].
  rewrite <- Hl. apply negb_true_iff, Nat.eqb_neq. simpl. lia.
Qed.

Lemma C1_unchanged_query_is_reported_witness :
  exists r,
    cleanUrl (fun _ => None) "https://example.com/?a=1" None = Returned r
    /\ original r = cleaned r
    /\ In "Removed tracking parameters" (changes r).
Proof.
  destruct (C1_unchanged_query_is_reported (fun _ => None)
              "https://example.com/?a=1" None
              (URL.mk "https" "example.com" None [""] (Some "a=1") None)
              "a" "=1" "a=1" eq_refl eq_refl eq_refl eq_refl)
    as [(r & R & I) E].
  exists r. split; [exact R|]. split; [|exact I].
  rewrite E in R. now injection R as <-.
Defined.

(* ================================================================== *)
(** * The serializer and the parser of [URLSearchParams] *)

Lemma component_byte (c : ascii) :
  Str.forallb component_char (Percent.encode_byte c) = true.
Proof. all_chars c. Qed.

Lemma component_safe (c : ascii) :
  implb (negb (Percent.urlencoded_set c))
        (component_char c && negb (Ascii.eqb c "+") && negb (Ascii.eqb c "%"))
  = true.
Proof. all_chars c. Qed.

Lemma component_char_facts (c : ascii) :
  implb (component_char c)
        (negb (Ascii.eqb c "=") && negb (Ascii.eqb c "&")
         && (nat_of_ascii c <? 128)) = true.
Proof. all_chars c. Qed.

Lemma encode_component_chars (s : string) :
  Str.forallb component_char (URLSearchParams.encode_component s) = true.
Proof.
  induction s as [|c s IH]; [reflexivity|].
  cbn [URLSearchParams.encode_component].
  destruct (Ascii.eqb c " "); [exact IH|].
  destruct (Percent.urlencoded_set c) eqn:E.
  - now rewrite Str_forallb_app, component_byte, IH.
  - cbn [Str.forallb]. rewrite IH, andb_true_r.
    generalize (component_safe c). rewrite E. simpl. intros Hf.
    repeat (apply andb_true_iff in Hf as [Hf ?]). exact Hf.
Qed.

Lemma escape_decodes_all (c : ascii) : escape_decodes c = true.
Proof. all_chars c. Qed.

Lemma escape_keeps_plus (c : ascii) :
  String.eqb (URLSearchParams.plus_to_space (Percent.encode_byte c))
             (Percent.encode_byte c) = true.
Proof. all_chars c. Qed.

Lemma plus_to_space_app (a b : string) :
  URLSearchParams.plus_to_space (a ++ b)
  = URLSearchParams.plus_to_space a ++ URLSearchParams.plus_to_space b.
Proof. induction a as [|x a IH]; simpl; [reflexivity|now rewrite IH]. Qed.

Lemma decode_escape (c : ascii) (rest : string) :
  Percent.decode (Percent.encode_byte c ++ rest)
  = String c (Percent.decode rest).
Proof.
  pose proof (escape_decodes_all c) as H. unfold escape_decodes in H.
  destruct (Percent.encode_byte c) as [|p [|h [|l [|x t]]]]; try discriminate.
  apply andb_true_iff in H as [Hp H]. apply Ascii.eqb_eq in Hp as ->.
  cbn [append Percent.decode]. rewrite Ascii.eqb_refl.
  destruct (Percent.hex_value h) as [a|]; [|discriminate].
  destruct (Percent.hex_value l) as [b|]; [|discriminate].
  apply Ascii.eqb_eq in H. now rewrite H.
Qed.

(** A name or a value is read back from its serialization. *)
Lemma decode_encode_component (s : string) :
  Percent.decode
    (URLSearchParams.plus_to_space (URLSearchParams.encode_component s)) = s.
Proof.
  induction s as [|c s IH]; [reflexivity|].
  cbn [URLSearchParams.encode_component].
  destruct (Ascii.eqb c " ") eqn:Es.
  - apply Ascii.eqb_eq in Es as ->. simpl. now rewrite IH.
  - destruct (Percent.urlencoded_set c) eqn:E.
    + rewrite plus_to_space_app.
      rewrite (proj1 (String.eqb_eq _ _) (escape_keeps_plus c)).
      now rewrite decode_escape, IH.
    + generalize (component_safe c). rewrite E. simpl. intros Hf.
      repeat (apply andb_true_iff in Hf as [Hf ?]).
      apply negb_true_iff in H, H0.
      cbn [URLSearchParams.plus_to_space Percent.decode].
      now rewrite H0, H, IH.
Qed.

Lemma cut_app (sep : ascii) (a b : string) :
  Str.forallb (fun c => negb (Ascii.eqb c sep)) a = true ->
  URLSearchParams.cut sep (a ++ String sep b) = (a, Some b).
Proof.
  induction a as [|x a IH]; simpl.
  - now rewrite Ascii.eqb_refl.
  - intros H. apply andb_true_iff in H as [H1 H2].
    apply negb_true_iff in H1. now rewrite H1, IH.
Qed.

Lemma cut_none (sep : ascii) (a : string) :
  Str.forallb (fun c => negb (Ascii.eqb c sep)) a = true ->
  URLSearchParams.cut sep a = (a, None).
Proof.
  induction a as [|x a IH]; simpl; [reflexivity|].
  intros H. apply andb_true_iff in H as [H1 H2].
  apply negb_true_iff in H1. now rewrite H1, IH.
Qed.

Ltac component_chars H :=
  refine (Str_forallb_impl _ _ _ _ H);
  let c := fresh "c" in
  let Hf := fresh "Hf" in
  intros c; generalize (component_char_facts c);
  destruct (component_char c); simpl; [|reflexivity];
  intros Hf; repeat (apply andb_true_iff in Hf as [Hf ?]); assumption.

Lemma parse_serialize_pair (e : string * string) :
  URLSearchParams.parse_pair (URLSearchParams.serialize_pair e) = e.
Proof.
  destruct e as [k v].
  unfold URLSearchParams.parse_pair, URLSearchParams.serialize_pair.
  cbn [fst snd].
  change (URLSearchParams.encode_component k ++ "="
          ++ URLSearchParams.encode_component v)
    with (URLSearchParams.encode_component k
          ++ String "=" (URLSearchParams.encode_component v)).
  pose proof (encode_component_chars k) as Hk.
  rewrite cut_app by component_chars Hk.
  now rewrite !decode_encode_component.
Qed.

Lemma split_on_free (sep : ascii) (a : string) :
  Str.forallb (fun c => negb (Ascii.eqb c sep)) a = true ->
  URLSearchParams.split_on sep a = [a].
Proof.
  induction a as [|x a IH]; simpl; [reflexivity|].
  intros H. apply andb_true_iff in H as [H1 H2].
  apply negb_true_iff in H1. now rewrite H1, IH.
Qed.

Lemma split_on_app (sep : ascii) (a b : string) :
  Str.forallb (fun c => negb (Ascii.eqb c sep)) a = true ->
  URLSearchParams.split_on sep (a ++ String sep b)
  = a :: URLSearchParams.split_on sep b.
Proof.
  induction a as [|x a IH]; simpl.
  - now rewrite Ascii.eqb_refl.
  - intros H. apply andb_true_iff in H as [H1 H2].
    apply negb_true_iff in H1. now rewrite H1, IH.
Qed.

Lemma serialize_pair_chars (e : string * string) :
  Str.forallb (fun c => negb (Ascii.eqb c "&"))
              (URLSearchParams.serialize_pair e) = true
  /\ URLSearchParams.serialize_pair e <> EmptyString.
Proof.
  unfold URLSearchParams.serialize_pair. split.
  - pose proof (encode_component_chars (fst e)) as H1.
    pose proof (encode_component_chars (snd e)) as H2.
    rewrite !Str_forallb_app. simpl.
    rewrite andb_true_iff. split; [component_chars H1|component_chars H2].
  - destruct (URLSearchParams.encode_component (fst e)); discriminate.
Qed.

Lemma concat_cons (sep x : string) (L : list string) :
  L <> [] -> String.concat sep (x :: L) = x ++ sep ++ String.concat sep L.
Proof. destruct L; [congruence|reflexivity]. Qed.

(** The pairs are read back from their serialization. *)
Lemma parse_toString (l : URLSearchParams.t) :
  URLSearchParams.parse_urlencoded (URLSearchParams.toString l) = l.
Proof.
  unfold URLSearchParams.parse_urlencoded, URLSearchParams.toString.
  induction l as [|e l IH]; [reflexivity|].
  destruct (serialize_pair_chars e) as [Hc Hn].
  assert (Hne : negb (String.eqb (URLSearchParams.serialize_pair e) "") = true)
    by (apply negb_true_iff; now apply String.eqb_neq).
  destruct l as [|e' l].
  - cbn [map String.concat]. rewrite split_on_free by exact Hc.
    cbn [filter]. rewrite Hne. cbn [map]. now rewrite parse_serialize_pair.
  - remember (e' :: l) as l'.
    cbn [map]. rewrite concat_cons by (subst; discriminate).
    change (URLSearchParams.serialize_pair e ++ "&"
            ++ String.concat "&" (map URLSearchParams.serialize_pair l'))
      with (URLSearchParams.serialize_pair e
            ++ String "&"
                 (String.concat "&" (map URLSearchParams.serialize_pair l'))).
    rewrite split_on_app by exact Hc.
    cbn [filter]. rewrite Hne. cbn [map].
    now rewrite parse_serialize_pair, IH.
Qed.

Lemma toString_empty (l : URLSearchParams.t) :
  URLSearchParams.toString l = EmptyString -> l = [].
Proof.
  intros H. apply (f_equal URLSearchParams.parse_urlencoded) in H.
  now rewrite parse_toString in H.
Qed.

(* ================================================================== *)
(** * Cleaning a cleaned URL *)

Lemma forallb_perm {A : Type} (g : A -> bool) (l l' : list A) :
  Permutation l l' -> forallb g l = true -> forallb g l' = true.
Proof.
  intros P. rewrite !forallb_forall. intros H x Hx.
  apply H. apply Permutation_sym in P. now apply (Permutation_in x P).
Qed.

Lemma cleaned_entries_all (o : Flags) (q : string) (g : string * string -> bool) :
  forallb g (URLSearchParams.parse_urlencoded q) = true ->
  forallb g (cleaned_entries o q) = true.
Proof.
  intros H. unfold cleaned_entries.
  pose proof (forallb_sub_filter (keeps o) g _ H) as Hk.
  destruct (sortParams o); [|exact Hk].
  exact (forallb_perm g _ _ (sort_perm _) Hk).
Qed.

Lemma cleaned_entries_kept (o : Flags) (q : string) :
  forallb (keeps o) (cleaned_entries o q) = true.
Proof.
  unfold cleaned_entries.
  pose proof (forallb_filter (keeps o) (URLSearchParams.parse_urlencoded q)) as Hk.
  destruct (sortParams o); [|exact Hk].
  exact (forallb_perm _ _ _ (sort_perm _) Hk).
Qed.

(** The cleaned pairs are left as they are by a second cleaning. *)
Lemma cleaned_entries_idem (o : Flags) (q : string) :
  cleaned_entries o (URLSearchParams.toString (cleaned_entries o q))
  = cleaned_entries o q.
Proof.
  unfold cleaned_entries at 1. rewrite parse_toString.
  rewrite filter_all by apply cleaned_entries_kept.
  destruct (sortParams o) eqn:E; [|reflexivity].
  apply sort_sorted_id. unfold cleaned_entries. rewrite E. apply sort_sorted.
Qed.

Lemma cleaned_query_idem (o : Flags) (q : option string) :
  cleaned_query o (cleaned_query o q) = cleaned_query o q.
Proof.
  destruct q as [[|c q]|]; try reflexivity.
  unfold cleaned_query at 2 3.
  destruct (URLSearchParams.toString (cleaned_entries o (String c q)))
    as [|x s] eqn:E; [reflexivity|].
  cbn [String.eqb]. unfold cleaned_query.
  now rewrite <- E, cleaned_entries_idem, E.
Qed.

Lemma cleaned_query_wf (o : Flags) (q : option string) :
  wf_query q = true -> wf_query (cleaned_query o q) = true.
Proof.
  destruct q as [[|c q]|]; try (intros; reflexivity).
  intros H. unfold cleaned_query.
  destruct (String.eqb _ "") eqn:E; [reflexivity|].
  unfold wf_query in *. apply andb_true_iff in H as [_ H].
  apply andb_true_iff. split.
  - pose proof (toString_form (cleaned_entries o (String c q))) as Hf.
    unfold query_char. form_chars Hf.
  - unfold URL.query_in_model in *. rewrite parse_toString.
    now apply cleaned_entries_all.
Qed.

Lemma cleaned_fragment_idem (o : Flags) (f : option string) :
  cleaned_fragment o (cleaned_fragment o f) = cleaned_fragment o f.
Proof.
  destruct f as [[|c f]|]; try reflexivity. simpl.
  destruct (removeFragment o) eqn:E; [reflexivity|]. simpl. now rewrite E.
Qed.

Lemma cleaned_fragment_wf (o : Flags) (f : option string) :
  wf_fragment f = true -> wf_fragment (cleaned_fragment o f) = true.
Proof.
  destruct f as [[|c f]|]; try (intros; reflexivity). simpl.
  now destruct (removeFragment o).
Qed.

(** The cleaned URL is well formed. *)
Lemma cleaned_url_wf (fetch : string -> option bool) (o : Flags) (u : URL.t) :
  wf u = true -> wf (cleaned_url fetch o u) = true.
Proof.
  intros W. pose proof (wf_before_query fetch o u W) as W2. cbv zeta in W2.
  apply wf_inv in W2 as (Hs & Hh & Hp & Hn & Hl & Hq & Hf).
  unfold cleaned_url. cbv zeta.
  destruct (normalized_path_wf o _ Hl Hn) as [N1 N2].
  apply wf_intro;
    cbn [URL.scheme URL.host URL.port URL.path URL.query URL.fragment];
    try assumption.
  - now apply cleaned_query_wf.
  - now apply cleaned_fragment_wf.
Qed.

Lemma cleaned_url_host (fetch : string -> option bool) (o : Flags) (u : URL.t) :
  URL.host (cleaned_url fetch o u)
  = if strips_www o u && negb (String.eqb (Str.drop 4 (URL.host u)) EmptyString)
    then Str.drop 4 (URL.host u) else URL.host u.
Proof.
  unfold cleaned_url. cbv zeta. cbn [URL.host].
  assert (E : forall v, URL.host v = URL.host u ->
                        URL.host (if strips_www o v then stripped v else v)
                        = if strips_www o u
                             && negb (String.eqb (Str.drop 4 (URL.host u)) "")
                          then Str.drop 4 (URL.host u) else URL.host u).
  { intros v Hv. unfold strips_www, stripped. rewrite Hv.
    destruct (removeWww o && Str.startsWith (URL.host u) "www."); [|exact Hv].
    destruct (String.eqb _ ""); [exact Hv|reflexivity]. }
  apply E. now destruct (upgrades fetch o u).
Qed.

(** A second cleaning changes nothing, unless the host again starts with
    [www.] or the probe answers otherwise. *)
Lemma cleaned_url_idem (fetch : string -> option bool) (o : Flags) (u : URL.t) :
  wf u = true ->
  (removeWww o = true -> Str.startsWith (URL.host u) "www.www." = false) ->
  canUseHttps fetch (URL.href (cleaned_url fetch o u))
  = canUseHttps fetch (URL.href u) ->
  cleaned_url fetch o (cleaned_url fetch o u) = cleaned_url fetch o u.
Proof.
  intros W Hw Hc. set (u' := cleaned_url fetch o u) in *.
  assert (Up : upgrades fetch o u' = false).
  { unfold upgrades. subst u'. rewrite cleaned_url_scheme, Hc.
    destruct (upgrades fetch o u) eqn:E.
    - simpl. now rewrite andb_false_r.
    - exact E. }
  assert (Sw : (if strips_www o u' then stripped u' else u') = u').
  { destruct (strips_www o u') eqn:E; [|reflexivity].
    unfold strips_www in E. apply andb_true_iff in E as [Er E].
    unfold stripped.
    destruct (String.eqb (Str.drop 4 (URL.host u')) "") eqn:Ed; [reflexivity|].
    exfalso. subst u'. rewrite cleaned_url_host in E, Ed.
    unfold strips_www in E, Ed. rewrite Er in E, Ed. cbn [andb] in E, Ed.
    destruct (Str.startsWith (URL.host u) "www.") eqn:E1.
    - pose proof (startsWith_drop _ _ E1) as D. simpl String.length in D.
      specialize (Hw Er).
      remember (Str.drop 4 (URL.host u)) as v eqn:Hv.
      rewrite D in Hw. simpl in Hw.
      destruct (String.eqb v "") eqn:E2; cbn [negb andb] in E, Ed.
      + congruence.
      + congruence.
    - cbn [andb] in E. congruence. }
  unfold cleaned_url at 1. cbv zeta. rewrite Up, Sw.
  subst u'. rewrite cleaned_url_path, cleaned_url_query, cleaned_url_fragment.
  pose proof (wf_inv _ W) as (_ & _ & _ & Hn & _).
  rewrite normalized_path_idem, cleaned_query_idem, cleaned_fragment_idem
    by exact Hn.
  symmetry. etransitivity; [apply url_eta|].
  now rewrite cleaned_url_path, cleaned_url_query, cleaned_url_fragment.
Qed.

(* ================================================================== *)
(** * The constructor reads a serialized URL back *)

Lemma ports_ok_from_spec (count : nat) (a n : N) :
  ports_ok_from count a = true ->
  (a <= n)%N -> (n < a + N.of_nat count)%N -> port_ok n = true.
Proof.
  revert a; induction count as [|count IH]; intros a H Ha Hn.
  - simpl in Hn. lia.
  - cbn [ports_ok_from] in H. apply andb_true_iff in H as [H1 H2].
    destruct (N.eq_dec a n) as [->|Hne]; [exact H1|].
    apply (IH (N.succ a)); [exact H2|lia|lia].
Qed.

Lemma ports_ok : ports_ok_from (Nat.pow 2 16) 0%N = true.
Proof. vm_compute. reflexivity. Qed.

Lemma port_ok_all (n : N) : (n <= 65535)%N -> port_ok n = true.
Proof.
  intros H. apply (ports_ok_from_spec _ 0%N n ports_ok); [lia|].
  replace (N.of_nat (Nat.pow 2 16)) with 65536%N by (vm_compute; reflexivity).
  lia.
Qed.

Lemma href_unfold (u : URL.t) :
  URL.href u
  = URL.scheme u ++ "://" ++ URL.host u ++ port_part (URL.port u)
    ++ URL.serialize_path (URL.path u) ++ query_part (URL.query u)
    ++ fragment_part (URL.fragment u).
Proof. reflexivity. Qed.

Lemma rtrim_id (s : string) :
  Str.forallb (fun c => negb (URL.is_c0_or_space c)) s = true ->
  URL.rtrim s = s.
Proof.
  induction s as [|c s IH]; [reflexivity|]. simpl.
  intros H. apply andb_true_iff in H as [H1 H2]. rewrite (IH H2).
  apply negb_true_iff in H1. rewrite H1. now destruct s.
Qed.

Lemma ltrim_id (s : string) :
  Str.forallb (fun c => negb (URL.is_c0_or_space c)) s = true ->
  URL.ltrim s = s.
Proof.
  destruct s as [|c s]; [reflexivity|]. simpl.
  intros H. apply andb_true_iff in H as [H1 _].
  apply negb_true_iff in H1. now rewrite H1.
Qed.

Lemma href_char_facts (c : ascii) :
  implb (href_char c)
        (negb (URL.is_c0_or_space c) && negb (URL.is_tab_or_newline c)
         && (nat_of_ascii c <? 128)) = true.
Proof. all_chars c. Qed.

Ltac href_chars H :=
  refine (Str_forallb_impl _ _ _ _ H);
  let c := fresh "c" in
  let Hf := fresh "Hf" in
  intros c; generalize (href_char_facts c);
  destruct (href_char c); simpl; [|reflexivity];
  intros Hf; repeat (apply andb_true_iff in Hf as [Hf ?]); assumption.

Lemma trim_id (s : string) :
  Str.forallb href_char s = true ->
  URL.remove_tab_newline (URL.rtrim (URL.ltrim s)) = s.
Proof.
  intros H.
  rewrite ltrim_id by href_chars H. rewrite rtrim_id by href_chars H.
  apply remove_tab_newline_id. href_chars H.
Qed.

Lemma host_href_char (c : ascii) : implb (host_char c) (href_char c) = true.
Proof. all_chars c. Qed.

Lemma digit_href_char (c : ascii) :
  implb (URL.is_digit c)
        (href_char c && negb (URL.authority_end c) && negb (Ascii.eqb "@" c))
  = true.
Proof. all_chars c. Qed.

Lemma path_href_char (c : ascii) :
  implb (segment_char c || Ascii.eqb c "/") (href_char c) = true.
Proof. all_chars c. Qed.

Lemma query_href_char (c : ascii) :
  implb (query_char c) (href_char c && negb (Ascii.eqb c "#")) = true.
Proof. all_chars c. Qed.

Lemma fragment_href_char (c : ascii) :
  implb (fragment_char c) (href_char c) = true.
Proof. all_chars c. Qed.

Lemma wf_host_chars (h : string) :
  wf_host h = true -> Str.forallb host_char h = true /\ h <> EmptyString.
Proof.
  unfold wf_host. intros H.
  apply andb_true_iff in H as [H _]. apply andb_true_iff in H as [H _].
  apply andb_true_iff in H as [H1 H2]. split; [exact H2|].
  apply negb_true_iff in H1. now apply String.eqb_neq.
Qed.

Lemma port_part_chars (s : string) (p : option N) :
  wf_port s p = true ->
  Str.forallb (fun c => href_char c && negb (URL.authority_end c)
                        && negb (Ascii.eqb "@" c)) (port_part p) = true.
Proof.
  destruct p as [n|]; [|reflexivity]. unfold wf_port, port_part.
  intros H. apply andb_true_iff in H as [H _]. apply N.leb_le in H.
  pose proof (port_ok_all n H) as P. unfold port_ok in P.
  apply andb_true_iff in P as [P _]. apply andb_true_iff in P as [_ P].
  change (":" ++ URL.decimal n) with (String ":" (URL.decimal n)).
  cbn [Str.forallb]. apply andb_true_iff. split; [reflexivity|].
  refine (Str_forallb_impl _ _ _ _ P). exact digit_href_char.
Qed.

Lemma query_part_chars (q : option string) :
  wf_query q = true -> Str.forallb href_char (query_part q) = true.
Proof.
  destruct q as [q|]; [|reflexivity]. unfold wf_query, query_part.
  intros H. apply andb_true_iff in H as [H _].
  change ("?" ++ q) with (String "?" q). cbn [Str.forallb].
  apply andb_true_iff. split; [reflexivity|].
  refine (Str_forallb_impl _ _ _ _ H). intros c.
  generalize (query_href_char c). destruct (query_char c); simpl; [|reflexivity].
  intros Hf. now apply andb_true_iff in Hf as [Hf _].
Qed.

Lemma fragment_part_chars (f : option string) :
  wf_fragment f = true -> Str.forallb href_char (fragment_part f) = true.
Proof.
  destruct f as [f|]; [|reflexivity]. unfold wf_fragment, fragment_part.
  intros H. change ("#" ++ f) with (String "#" f). cbn [Str.forallb].
  apply andb_true_iff. split; [reflexivity|].
  refine (Str_forallb_impl _ _ _ _ H). exact fragment_href_char.
Qed.

(** A serialized URL has no white space, no control and no character above
    127. *)
Lemma href_chars_wf (u : URL.t) :
  wf u = true -> Str.forallb href_char (URL.href u) = true.
Proof.
  intros W. apply wf_inv in W as (Hs & Hh & Hp & Hn & Hl & Hq & Hf).
  rewrite href_unfold, !Str_forallb_app.
  assert (A1 : Str.forallb href_char (URL.scheme u) = true)
    by (destruct Hs as [-> | ->]; reflexivity).
  assert (A2 : Str.forallb href_char (URL.host u) = true).
  { apply wf_host_chars in Hh as [Hh _].
    refine (Str_forallb_impl _ _ _ _ Hh). exact host_href_char. }
  assert (A3 : Str.forallb href_char (port_part (URL.port u)) = true).
  { pose proof (port_part_chars _ _ Hp) as H.
    refine (Str_forallb_impl _ _ _ _ H). intros c.
    destruct (href_char c), (URL.authority_end c), (Ascii.eqb "@" c);
      reflexivity. }
  assert (A4 : Str.forallb href_char (URL.serialize_path (URL.path u)) = true).
  { pose proof (serialize_path_chars _ Hl) as H.
    refine (Str_forallb_impl _ _ _ _ H). exact path_href_char. }
  rewrite A1, A2, A3, A4, query_part_chars, fragment_part_chars by assumption.
  reflexivity.
Qed.

Lemma scheme_state_href (sc rest : string) :
  sc = "http" \/ sc = "https" ->
  URL.scheme_state (sc ++ "://" ++ rest) = Some (sc, "//" ++ rest).
Proof. intros [-> | ->]; reflexivity. Qed.

Lemma skip_slashes_host (h rest : string) :
  wf_host h = true ->
  URL.skip_slashes ("//" ++ h ++ rest) = h ++ rest.
Proof.
  intros H. apply wf_host_chars in H as [Hc Hn].
  destruct h as [|c h]; [congruence|]. simpl in Hc.
  apply andb_true_iff in Hc as [Hc _].
  generalize (host_char_facts c). rewrite Hc. simpl. intros Hf.
  repeat (apply andb_true_iff in Hf as [Hf ?]).
  apply negb_true_iff in H1. apply orb_false_iff in H1 as [H1 _].
  unfold URL.authority_end in H1. apply orb_false_iff in H1 as [H1 _].
  apply orb_false_iff in H1 as [H1 _].
  simpl. now rewrite H1.
Qed.

Lemma authority_span (h : string) (p : option N) (s : string) (c : ascii)
      (rest : string) :
  wf_host h = true -> wf_port s p = true -> URL.authority_end c = true ->
  Str.span (fun c => negb (URL.authority_end c))
           (h ++ port_part p ++ String c rest)
  = (h ++ port_part p, String c rest).
Proof.
  intros Hh Hp Hc. rewrite <- sapp_assoc. apply span_app.
  - rewrite Str_forallb_app. apply andb_true_iff. split.
    + apply wf_host_chars in Hh as [Hh _].
      refine (Str_forallb_impl _ _ _ _ Hh). intros x.
      generalize (host_char_facts x). destruct (host_char x); simpl;
        [|reflexivity].
      intros Hf. repeat (apply andb_true_iff in Hf as [Hf ?]).
      match goal with
      | H : negb (URL.authority_end x || _) = true |- _ =>
          apply negb_true_iff, orb_false_iff in H as [H _]; now rewrite H
      end.
    + pose proof (port_part_chars _ _ Hp) as H.
      refine (Str_forallb_impl _ _ _ _ H). intros x.
      destruct (href_char x), (URL.authority_end x), (Ascii.eqb "@" x);
        reflexivity.
  - now rewrite Hc.
Qed.

Lemma authority_no_at (h : string) (p : option N) (s : string) :
  wf_host h = true -> wf_port s p = true ->
  Str.includes (h ++ port_part p) "@" = false.
Proof.
  intros Hh Hp. apply no_char_includes. rewrite Str_forallb_app.
  apply andb_true_iff. split.
  - apply wf_host_chars in Hh as [Hh _]. host_chars Hh.
  - pose proof (port_part_chars _ _ Hp) as H.
    refine (Str_forallb_impl _ _ _ _ H). intros x.
    destruct (href_char x), (URL.authority_end x), (Ascii.eqb "@" x);
      reflexivity.
Qed.

Lemma authority_cut (h : string) (p : option N) :
  wf_host h = true ->
  URLSearchParams.cut ":" (h ++ port_part p)
  = (h, option_map URL.decimal p).
Proof.
  intros Hh. apply wf_host_chars in Hh as [Hh _].
  assert (Hc : Str.forallb (fun c => negb (Ascii.eqb c ":")) h = true).
  { refine (Str_forallb_impl _ _ _ _ Hh). intros x.
    generalize (host_char_facts x). destruct (host_char x); simpl;
      [|reflexivity].
    intros Hf. repeat (apply andb_true_iff in Hf as [Hf ?]).
    match goal with
    | H : negb (URL.authority_end x || _) = true |- _ =>
        apply negb_true_iff, orb_false_iff in H as [_ H]; now rewrite H
    end. }
  destruct p as [n|]; simpl.
  - now apply cut_app.
  - rewrite sapp_nil_r. now apply cut_none.
Qed.

Lemma query_fragment_parts (q f : option string) :
  wf_query q = true -> wf_fragment f = true ->
  URL.query_fragment (query_part q ++ fragment_part f) = (q, f).
Proof.
  intros Hq Hf.
  assert (Ff : forall f', wf_fragment (Some f') = true ->
                          Percent.encode Percent.fragment_set f' = f').
  { intros f' H. apply encode_id. exact H. }
  destruct q as [q|].
  - unfold wf_query in Hq. apply andb_true_iff in Hq as [Hq _].
    assert (Hh : Str.forallb (fun c => negb (Ascii.eqb c "#")) q = true).
    { refine (Str_forallb_impl _ _ _ _ Hq). intros x.
      generalize (query_href_char x). destruct (query_char x); simpl;
        [|reflexivity].
      intros H. now apply andb_true_iff in H as [_ H]. }
    assert (Hi : Percent.encode Percent.special_query_set q = q)
      by (apply encode_id; exact Hq).
    unfold query_part.
    change (("?" ++ q) ++ fragment_part f)
      with (String "?" (q ++ fragment_part f)).
    cbn [URL.query_fragment]. destruct f as [f|]; unfold fragment_part.
    + change ("#" ++ f) with (String "#" f). rewrite cut_app by exact Hh.
      cbn [option_map]. now rewrite Hi, (Ff f Hf).
    + rewrite sapp_nil_r, cut_none by exact Hh. cbn [option_map].
      now rewrite Hi.
  - destruct f as [f|]; [|reflexivity]. unfold query_part, fragment_part.
    change ("" ++ "#" ++ f) with (String "#" f).
    cbn [URL.query_fragment]. now rewrite (Ff f Hf).
Qed.

Lemma path_span (segs : list string) (rest : string) :
  forallb wf_segment segs = true ->
  match rest with
  | EmptyString => true
  | String c _ => Ascii.eqb c "?" || Ascii.eqb c "#"
  end = true ->
  Str.span (fun c => negb (Ascii.eqb c "?" || Ascii.eqb c "#"))
           (URL.serialize_path segs ++ rest)
  = (URL.serialize_path segs, rest).
Proof.
  intros Hl Hr. apply span_app.
  - pose proof (serialize_path_chars _ Hl) as H.
    refine (Str_forallb_impl _ _ _ _ H). intros x.
    generalize (segment_char_facts x).
    destruct (segment_char x || Ascii.eqb x "/"); simpl; [|reflexivity].
    intros Hf. repeat (apply andb_true_iff in Hf as [Hf ?]). assumption.
  - destruct rest as [|c rest]; [reflexivity|]. now rewrite Hr.
Qed.

Lemma path_no_caret (segs : list string) :
  forallb wf_segment segs = true ->
  Str.includes (URL.serialize_path segs) "^" = false.
Proof.
  intros Hl. apply no_char_includes.
  pose proof (serialize_path_chars _ Hl) as H.
  refine (Str_forallb_impl _ _ _ _ H). intros x.
  generalize (segment_char_facts x).
  destruct (segment_char x || Ascii.eqb x "/"); simpl; [|reflexivity].
  intros Hf. repeat (apply andb_true_iff in Hf as [Hf ?]). assumption.
Qed.

Lemma query_fragment_start (q f : option string) :
  match query_part q ++ fragment_part f with
  | EmptyString => true
  | String c _ => Ascii.eqb c "?" || Ascii.eqb c "#"
  end = true.
Proof. destruct q as [q|], f as [f|]; reflexivity. Qed.

(** The constructor reads the serialization of a well-formed URL back into
    that URL. *)
Lemma parse_href (u : URL.t) :
  wf u = true -> URL.parse (URL.href u) = URL.ParseOk u.
Proof.
  intros W. pose proof (href_chars_wf u W) as Hc.
  pose proof (wf_inv _ W) as (Hs & Hh & Hp & Hn & Hl & Hq & Hf).
  unfold URL.parse. rewrite (trim_id _ Hc). cbv zeta.
  assert (Ha : URL.ascii_only (URL.href u) = true)
    by (unfold URL.ascii_only; href_chars Hc).
  rewrite Ha. rewrite href_unfold.
  rewrite scheme_state_href by exact Hs.
  assert (Es : negb (String.eqb (URL.scheme u) "http"
                     || String.eqb (URL.scheme u) "https") = false)
    by (destruct Hs as [-> | ->]; reflexivity).
  rewrite Es. cbn [orb negb].
  rewrite skip_slashes_host by exact Hh.
  destruct (URL.path u) as [|seg segs] eqn:Ep; [congruence|].
  rewrite <- Ep in *.
  assert (Er : exists rest,
             URL.serialize_path (URL.path u) ++ query_part (URL.query u)
             ++ fragment_part (URL.fragment u)
             = String "/" rest).
  { rewrite Ep. eexists. reflexivity. }
  destruct Er as (rest & Er).
  rewrite Er, (authority_span _ _ (URL.scheme u)) by (auto; reflexivity).
  rewrite (authority_no_at _ _ (URL.scheme u)), authority_cut by assumption.
  destruct (wf_host_chars _ Hh) as [_ Hhn].
  apply String.eqb_neq in Hhn. rewrite Hhn.
  rewrite wf_host_parse by exact Hh.
  rewrite <- Er, path_span by (auto; apply query_fragment_start).
  rewrite query_fragment_parts, path_no_caret by assumption.
  rewrite path_parse_serialize by assumption.
  assert (Eq : URL.query_in_model
                 match URL.query u with Some q => q | None => "" end = true).
  { destruct (URL.query u) as [q|]; [|reflexivity].
    unfold wf_query in Hq. now apply andb_true_iff in Hq as [_ Hq]. }
  rewrite Eq. cbn [orb negb].
  destruct (URL.port u) as [n|] eqn:Epo; cbn [option_map].
  - unfold wf_port in Hp. apply andb_true_iff in Hp as [Hb Hd].
    apply N.leb_le in Hb. apply negb_true_iff in Hd.
    pose proof (port_ok_all n Hb) as P. unfold port_ok in P.
    apply andb_true_iff in P as [P Pn]. apply andb_true_iff in P as [P _].
    destruct (URL.port_value (URL.decimal n) 0) as [m|]; [|discriminate].
    apply N.eqb_eq in P as ->.
    unfold nonempty in Pn. destruct (URL.decimal n); [discriminate|].
    rewrite Hd, <- Epo. f_equal. symmetry. apply url_eta.
  - simpl URL.port_value. cbv iota. rewrite <- Epo. f_equal. symmetry.
    apply url_eta.
Qed.

(* ================================================================== *)
(** * Default ports *)

(** C7, as the claim states it, fails: the input has the explicit default
    port 80, and the change log has no [Removed default port]. *)
Lemma C7_counterexample :
  exists r,
    cleanUrl (fun _ => None) "http://example.com:80/x"
             (Some (Build_Options None None None None None None None (Some true)))
    = Returned r
    /\ original r = "http://example.com/x"
    /\ cleaned r = "http://example.com/x"
    /\ ~ In "Removed default port" (changes r).
Proof.
  exists {| original := "http://example.com/x";
            cleaned := "http://example.com/x";
            changes := [] |}.
  split; [reflexivity|]. split; [reflexivity|]. split; [reflexivity|].
  intros [].
Qed.

(** C7: the code does not do what the claim says.  The constructor drops a
    port that is the default port of the scheme, so the port step never
    finds one: [original] is without it, the cleaned URL is without it, and
    [Removed default port] is not logged, on the input
    [http://example.com:80/x] as on every other. *)
Theorem C7_default_port (fetch : string -> option bool) (inputUrl : string)
        (options : option Options) (u : URL.t) :
  URL.parse inputUrl = URL.ParseOk u ->
  (URL.is_default_port (URL.scheme u) (URL.port u) = false
   /\ exists r u',
        cleanUrl fetch inputUrl options = Returned r
        /\ original r = URL.href u
        /\ URL.parse (cleaned r) = URL.ParseOk u'
        /\ cleaned r = URL.href u'
        /\ URL.is_default_port (URL.scheme u') (URL.port u') = false
        /\ ~ In "Removed default port" (changes r))
  /\ (fetch "https://example.com/x" <> Some true ->
      cleanUrl fetch "http://example.com:80/x" options
      = Returned {| original := "http://example.com/x";
                    cleaned := "http://example.com/x";
                    changes := [] |}).
Proof.
  intros P. pose proof (parse_wf _ _ P) as W. split.
  - split.
    + apply wf_inv in W as (_ & _ & Hp & _). unfold wf_port in Hp.
      destruct (URL.port u) as [n|]; [|reflexivity].
      apply andb_true_iff in Hp as [_ Hp]. now apply negb_true_iff in Hp.
    + eexists. eexists.
      split; [exact (cleanUrl_parsed fetch inputUrl options u P)|].
      cbn [original cleaned changes]. split; [reflexivity|].
      split; [apply parse_href, cleaned_url_wf, W|].
      split; [reflexivity|]. split.
      * now apply cleaned_url_port.
      * rewrite In_change_log.
        intros [[_ H]|[[_ H]|[[_ H]|[[_ H]|[_ H]]]]]; discriminate.
  - intros F.
    assert (C : canUseHttps fetch "http://example.com/x" = false).
    { unfold canUseHttps. cbv zeta.
      change (replace_http "http://example.com/x")
        with "https://example.com/x".
      destruct (fetch "https://example.com/x") as [[|]|];
        [congruence|reflexivity|reflexivity]. }
    rewrite (cleanUrl_parsed fetch "http://example.com:80/x" options
               (URL.mk "http" "example.com" None ["x"] None None) eq_refl).
    generalize (destructure options). intros o.
    unfold cleaned_url, change_log, upgrades. cbv zeta.
    change (URL.href (URL.mk "http" "example.com" None ["x"] None None))
      with "http://example.com/x".
    rewrite C, andb_false_r.
    unfold strips_www, path_changed, normalized_path.
    cbn [URL.host URL.path URL.query URL.fragment URL.scheme URL.port].
    simpl. rewrite !andb_false_r. reflexivity.
Qed.

Lemma C7_default_port_witness :
  (exists r u',
     cleanUrl (fun _ => Some true) "https://example.com:443/x" None = Returned r
     /\ original r = "https://example.com/x"
     /\ URL.parse (cleaned r) = URL.ParseOk u'
     /\ cleaned r = URL.href u'
     /\ URL.is_default_port (URL.scheme u') (URL.port u') = false
     /\ ~ In "Removed default port" (changes r))
  /\ cleanUrl (fun _ => None) "http://example.com:80/x"
              (Some (Build_Options None None None None None None None
                                   (Some true)))
     = Returned {| original := "http://example.com/x";
                   cleaned := "http://example.com/x";
                   changes := [] |}.
Proof.
  split.
  - exact (proj2 (proj1 (C7_default_port (fun _ => Some true)
                           "https://example.com:443/x" None
                           (URL.mk "https" "example.com" None ["x"] None None)
                           eq_refl))).
  - apply (proj2 (C7_default_port (fun _ => None)
                    "http://example.com:80/x" _
                    (URL.mk "http" "example.com" None ["x"] None None)
                    eq_refl)).
    discriminate.
Defined.

(* ================================================================== *)
(** * Idempotence *)

(** C2, as the claim states it, fails: one cleaning strips one [www.], and a
    second cleaning strips the next. *)
Lemma C2_counterexample :
  cleanUrl (fun _ => None) "https://www.www.example.com/" None
  = Returned {| original := "https://www.www.example.com/";
                cleaned := "https://www.example.com/";
                changes := ["Removed www prefix"] |}
  /\ cleanUrl (fun _ => None) "https://www.example.com/" None
     = Returned {| original := "https://www.example.com/";
                   cleaned := "https://example.com/";
                   changes := ["Removed www prefix"] |}
  /\ "https://example.com/" <> "https://www.example.com/".
Proof. split; [reflexivity|]. split; [reflexivity|discriminate]. Qed.

(** C2, amended: for every URL that the constructor accepts and every
    options record, cleaning is idempotent provided that, when [removeWww]
    is on, the host does not start with [www.www.], and that the probe
    answers on the cleaned URL as it answered on the original one. *)
Theorem C2_idempotent_once_www (fetch : string -> option bool)
        (inputUrl : string) (options : option Options) (u : URL.t) :
  URL.parse inputUrl = URL.ParseOk u ->
  (removeWww (destructure options) = true ->
   Str.startsWith (URL.hostname u) "www.www." = false) ->
  exists r1,
    cleanUrl fetch inputUrl options = Returned r1
    /\ (canUseHttps fetch (cleaned r1) = canUseHttps fetch (original r1) ->
        exists r2,
          cleanUrl fetch (cleaned r1) options = Returned r2
          /\ cleaned r2 = cleaned r1).
Proof.
  intros P Hw. pose proof (parse_wf _ _ P) as W.
  eexists. split; [exact (cleanUrl_parsed fetch inputUrl options u P)|].
  cbn [cleaned original]. intros Hc.
  pose proof (cleaned_url_wf fetch (destructure options) u W) as W'.
  pose proof (parse_href _ W') as P'.
  eexists. split; [exact (cleanUrl_parsed fetch _ options _ P')|].
  cbn [cleaned]. now rewrite cleaned_url_idem.
Qed.

Lemma C2_idempotent_once_www_witness :
  exists r1 r2,
    cleanUrl (fun _ => Some true)
             "http://www.example.com/a//b/?utm_source=x&page=2#frag" None
    = Returned r1
    /\ cleanUrl (fun _ => Some true) (cleaned r1) None = Returned r2
    /\ cleaned r1 = "https://example.com/a/b?page=2"
    /\ cleaned r2 = cleaned r1.
Proof.
  destruct (C2_idempotent_once_www (fun _ => Some true)
              "http://www.example.com/a//b/?utm_source=x&page=2#frag" None
              (URL.mk "http" "www.example.com" None ["a"; ""; "b"; ""]
                      (Some "utm_source=x&page=2") (Some "frag"))
              eq_refl (fun _ => eq_refl)) as (r1 & R1 & I).
  destruct (I eq_refl) as (r2 & R2 & E).
  exists r1, r2. split; [exact R1|]. split; [exact R2|]. split; [|exact E].
  assert (R : cleanUrl (fun _ => Some true)
                "http://www.example.com/a//b/?utm_source=x&page=2#frag" None
              = Returned {| original :=
                              "http://www.example.com/a//b/?utm_source=x&page=2#frag";
                            cleaned := "https://example.com/a/b?page=2";
                            changes := ["Upgraded to HTTPS"; "Removed www prefix";
                                        "Removed tracking parameters";
                                        "Removed URL fragment";
                                        "Normalized path"] |})
    by reflexivity.
  rewrite R in R1. now injection R1 as <-.
Defined.

(* ================================================================== *)
(** * The result of [cleanUrl], field by field *)

(** The result on a URL that the constructor accepts; [cleaned] is parsed
    back into the URL it serializes. *)
Lemma cleanUrl_reparsed (fetch : string -> option bool) (inputUrl : string)
      (options : option Options) (u : URL.t) :
  URL.parse inputUrl = URL.ParseOk u ->
  exists r,
    cleanUrl fetch inputUrl options = Returned r
    /\ original r = URL.href u
    /\ changes r = change_log fetch (destructure options) u
    /\ URL.parse (cleaned r)
       = URL.ParseOk (cleaned_url fetch (destructure options) u).
Proof.
  intros P. eexists.
  split; [exact (cleanUrl_parsed fetch inputUrl options u P)|].
  cbn [original changes cleaned]. repeat split.
  apply parse_href, cleaned_url_wf, (parse_wf _ _ P).
Qed.

Lemma cleanUrl_Returned (fetch : string -> option bool) (inputUrl : string)
      (options : option Options) (r : CleaningResult) :
  cleanUrl fetch inputUrl options = Returned r ->
  exists u, URL.parse inputUrl = URL.ParseOk u.
Proof.
  unfold cleanUrl. destruct (URL.parse inputUrl) as [u| |]; try discriminate.
  intros _. now exists u.
Qed.

(** X1: the [original] of a result is the serialization of the URL that the
    constructor reads from the input, and it is parsed into that same URL.
    Every input that is parsed into this URL, [original] among them, is
    cleaned into the same result: [cleanUrl] depends on its input only
    through the parsed URL. *)
Theorem X1_original_is_canonical (fetch : string -> option bool)
        (inputUrl : string) (options : option Options) (r : CleaningResult) :
  cleanUrl fetch inputUrl options = Returned r ->
  exists u,
    URL.parse inputUrl = URL.ParseOk u
    /\ original r = URL.href u
    /\ URL.parse (original r) = URL.ParseOk u
    /\ forall inputUrl',
         URL.parse inputUrl' = URL.ParseOk u ->
         cleanUrl fetch inputUrl' options = Returned r.
Proof.
  intros H. destruct (cleanUrl_Returned _ _ _ _ H) as [u P].
  rewrite (cleanUrl_parsed fetch inputUrl options u P) in H.
  injection H as <-. cbn [original].
  exists u. split; [exact P|]. split; [reflexivity|].
  split; [exact (parse_href _ (parse_wf _ _ P))|].
  intros inputUrl' P'. exact (cleanUrl_parsed fetch inputUrl' options u P').
Qed.

Lemma X1_original_is_canonical_witness :
  exists r,
    cleanUrl (fun _ => None) " HTTP://Example.COM:80" None = Returned r
    /\ original r = "http://example.com/"
    /\ cleanUrl (fun _ => None) "http://example.com/" None = Returned r
    /\ cleanUrl (fun _ => None) "http://EXAMPLE.com" None = Returned r.
Proof.
  exists {| original := "http://example.com/";
            cleaned := "http://example.com/";
            changes := [] |}.
  destruct (X1_original_is_canonical
              (fun _ => None) " HTTP://Example.COM:80" None
              {| original := "http://example.com/";
                 cleaned := "http://example.com/";
                 changes := [] |} eq_refl) as (u & P & O & _ & A).
  split; [reflexivity|]. split; [reflexivity|].
  split; apply A; rewrite <- P; reflexivity.
Defined.

(** A probe matters through one answer: whether [fetch] is fulfilled with a
    response that is [ok] on the serialized URL with [https:] in place of
    [http:]. *)
Lemma upgrades_ext (fetch1 fetch2 : string -> option bool) (o : Flags)
      (u : URL.t) :
  (tryHttps o = true ->
   forall rest,
     URL.href u = "http:" ++ rest ->
     (fetch1 ("https:" ++ rest) = Some true <->
      fetch2 ("https:" ++ rest) = Some true)) ->
  upgrades fetch1 o u = upgrades fetch2 o u.
Proof.
  intros H. unfold upgrades, canUseHttps.
  destruct (tryHttps o); [|reflexivity].
  destruct (String.eqb (URL.scheme u) "http") eqn:E; [|reflexivity].
  apply String.eqb_eq in E. destruct (href_http u E) as (rest & Hr & R).
  cbv zeta. rewrite R. cbn [andb]. specialize (H eq_refl rest Hr).
  destruct (fetch1 ("https:" ++ rest)) as [[|]|],
           (fetch2 ("https:" ++ rest)) as [[|]|];
    try reflexivity;
    solve [ destruct H as [H _]; specialize (H eq_refl); discriminate H
          | destruct H as [_ H]; specialize (H eq_refl); discriminate H ].
Qed.

(** X2: [cleanUrl] consults the probe about one URL at most: the serialized
    input, when it starts with [http:], with [https:] in place of [http:],
    and only when [tryHttps] is on.  Two probes that agree there on whether
    the response is [ok] give the same outcome. *)
Theorem X2_probe_consulted_once (fetch1 fetch2 : string -> option bool)
        (inputUrl : string) (options : option Options) (u : URL.t) :
  URL.parse inputUrl = URL.ParseOk u ->
  (tryHttps (destructure options) = true ->
   forall rest,
     URL.href u = "http:" ++ rest ->
     (fetch1 ("https:" ++ rest) = Some true <->
      fetch2 ("https:" ++ rest) = Some true)) ->
  cleanUrl fetch1 inputUrl options = cleanUrl fetch2 inputUrl options.
Proof.
  intros P H.
  rewrite (cleanUrl_parsed fetch1 inputUrl options u P).
  rewrite (cleanUrl_parsed fetch2 inputUrl options u P).
  unfold cleaned_url, change_log.
  now rewrite (upgrades_ext fetch1 fetch2 _ u H).
Qed.

Lemma X2_probe_consulted_once_witness :
  cleanUrl (fun s => if String.eqb s "https://www.example.com/a/"
                     then Some true else None)
           "http://www.example.com/a/" None
  = cleanUrl (fun s => if String.eqb s "https://www.example.com/a/"
                       then Some true else Some false)
             "http://www.example.com/a/" None
  /\ cleanUrl (fun s => if String.eqb s "https://www.example.com/a/"
                        then Some true else None)
              "http://www.example.com/a/" None
     = Returned {| original := "http://www.example.com/a/";
                   cleaned := "https://example.com/a";
                   changes := ["Upgraded to HTTPS"; "Removed www prefix";
                               "Normalized path"] |}.
Proof.
  split; [|vm_compute; reflexivity].
  apply (X2_probe_consulted_once
           (fun s => if String.eqb s "https://www.example.com/a/"
                     then Some true else None)
           (fun s => if String.eqb s "https://www.example.com/a/"
                     then Some true else Some false)
           "http://www.example.com/a/" None
           (URL.mk "http" "www.example.com" None ["a"; ""] None None) eq_refl).
  intros _ rest E. vm_compute in E. injection E as <-. split; reflexivity.
Defined.

(** X3: the change log is a selection, in the order of the steps, of the five
    entries HTTPS, www, parameters, fragment and path: no entry occurs twice,
    none is out of order, and no other entry is ever logged. *)
Theorem X3_change_log_order (fetch : string -> option bool)
        (inputUrl : string) (options : option Options) (r : CleaningResult) :
  cleanUrl fetch inputUrl options = Returned r ->
  subsequence (changes r) change_vocabulary = true.
Proof.
  intros H. destruct (cleanUrl_Returned _ _ _ _ H) as [u P].
  rewrite (cleanUrl_parsed fetch inputUrl options u P) in H.
  injection H as <-. cbn [changes]. unfold change_log. cbv zeta.
  destruct (upgrades fetch (destructure options) u);
    destruct (strips_www _ _);
    destruct (search_changed _ _);
    destruct (fragment_changed _ _);
    destruct (path_changed _ _); reflexivity.
Qed.

Lemma X3_change_log_order_witness :
  subsequence ["Removed www prefix"; "Normalized path"] change_vocabulary = true.
Proof.
  exact (X3_change_log_order (fun _ => None) "https://www.example.com/a/" None
           {| original := "https://www.example.com/a/";
              cleaned := "https://example.com/a";
              changes := ["Removed www prefix"; "Normalized path"] |} eq_refl).
Defined.

Lemma drop_www (h : string) :
  Str.startsWith h "www." = true ->
  h = "www." ++ Str.drop 4 h
  /\ (String.eqb (Str.drop 4 h) EmptyString = true <-> h = "www.").
Proof.
  intros H. pose proof (startsWith_drop "www." h H) as E.
  change (String.length "www.") with 4 in E. split; [exact E|].
  rewrite String.eqb_eq. split; intros K.
  - now rewrite E, K.
  - now rewrite K.
Qed.

(** X4: when [removeWww] is on and the host name starts with [www.] and is
    more than [www.], the cleaned URL has the host name without this one
    prefix; otherwise the host name is the one of the input, as the setter
    refuses an empty host name.  [Removed www prefix] is logged exactly when
    [removeWww] is on and the host name starts with [www.], be it removed or
    not. *)
Theorem X4_www_prefix (fetch : string -> option bool) (inputUrl : string)
        (options : option Options) (u : URL.t) :
  URL.parse inputUrl = URL.ParseOk u ->
  exists r u',
    cleanUrl fetch inputUrl options = Returned r
    /\ URL.parse (cleaned r) = URL.ParseOk u'
    /\ (removeWww (destructure options) = true ->
        Str.startsWith (URL.hostname u) "www." = true ->
        URL.hostname u <> "www." ->
        "www." ++ URL.hostname u' = URL.hostname u)
    /\ (removeWww (destructure options) = false
        \/ Str.startsWith (URL.hostname u) "www." = false
        \/ URL.hostname u = "www." ->
        URL.hostname u' = URL.hostname u)
    /\ (In "Removed www prefix" (changes r) <->
        removeWww (destructure options) = true
        /\ Str.startsWith (URL.hostname u) "www." = true).
Proof.
  intros P. destruct (cleanUrl_reparsed fetch inputUrl options u P)
    as (r & R & _ & L & P').
  exists r, (cleaned_url fetch (destructure options) u).
  split; [exact R|]. split; [exact P'|].
  set (o := destructure options) in *.
  unfold URL.hostname. rewrite cleaned_url_host. unfold strips_www.
  split; [|split].
  - intros -> S N. rewrite S. cbn [andb].
    destruct (drop_www _ S) as [E Z].
    destruct (String.eqb (Str.drop 4 (URL.host u)) "") eqn:D.
    + now contradiction N; apply Z.
    + symmetry. exact E.
  - intros [H|[H|H]].
    + now rewrite H.
    + now rewrite H, andb_false_r.
    + rewrite H. simpl. now rewrite andb_false_r.
  - rewrite L, In_change_log. unfold strips_www.
    assert (Hh : URL.host (if upgrades fetch o u then upgraded u else u)
                 = URL.host u) by now destruct (upgrades fetch o u).
    rewrite Hh, andb_true_iff. split.
    + intros [[_ H]|[[H _]|[[_ H]|[[_ H]|[_ H]]]]];
        try discriminate H. exact H.
    + intros H. right. left. now split.
Qed.

Lemma X4_www_prefix_witness :
  exists r u',
    cleanUrl (fun _ => None) "https://www.example.com/" None = Returned r
    /\ URL.parse (cleaned r) = URL.ParseOk u'
    /\ "www." ++ URL.hostname u' = "www.example.com"
    /\ In "Removed www prefix" (changes r).
Proof.
  destruct (X4_www_prefix (fun _ => None) "https://www.example.com/" None
              (URL.mk "https" "www.example.com" None [""] None None) eq_refl)
    as (r & u' & R & P & H & _ & L).
  exists r, u'. split; [exact R|]. split; [exact P|]. split.
  - apply H; [reflexivity|reflexivity|discriminate].
  - apply L. split; reflexivity.
Defined.

(* ------------------------------------------------------------------ *)

Lemma parse_search (u : URL.t) :
  URLSearchParams.parse (URL.search u)
  = match URL.query u with
    | Some (String c q) => URLSearchParams.parse_urlencoded (String c q)
    | _ => []
    end.
Proof.
  unfold URL.search. destruct (URL.query u) as [[|c q]|]; reflexivity.
Qed.

Lemma parse_search_cleaned (fetch : string -> option bool) (o : Flags)
      (u : URL.t) :
  URLSearchParams.parse (URL.search (cleaned_url fetch o u))
  = match URL.query u with
    | Some (String c q) => cleaned_entries o (String c q)
    | _ => []
    end.
Proof.
  rewrite parse_search, cleaned_url_query. unfold cleaned_query.
  destruct (URL.query u) as [[|c q]|]; try reflexivity.
  destruct (URLSearchParams.toString (cleaned_entries o (String c q)))
    as [|c' s] eqn:E.
  - apply toString_empty in E. now rewrite E.
  - cbn [String.eqb]. rewrite <- E. apply parse_toString.
Qed.

Lemma cleaned_entries_perm (o : Flags) (q : string) :
  Permutation (filter (keeps o) (URLSearchParams.parse_urlencoded q))
              (cleaned_entries o q).
Proof.
  unfold cleaned_entries. destruct (sortParams o); [apply sort_perm|].
  apply Permutation_refl.
Qed.

Lemma keeps_iff (o : Flags) (k v : string) :
  keeps o (k, v) = true <->
  (removeTracking o = true ->
   Str.has PARAMS_TO_REMOVE (Str.toLowerCase k) = false
   /\ looksLikeTracking k = false)
  /\ (removeEmptyParams o = true -> v <> "").
Proof.
  unfold keeps, shouldRemove. cbn [fst snd].
  destruct (removeTracking o), (removeEmptyParams o),
    (Str.has PARAMS_TO_REMOVE (Str.toLowerCase k)), (looksLikeTracking k);
    destruct v; cbn; intuition congruence.
Qed.

(** X5: a pair is in the query of the cleaned URL exactly when it is in the
    query of the input, its key is no tracking key (it is not in
    [PARAMS_TO_REMOVE] in lower case and [looksLikeTracking] is false on it)
    where [removeTracking] is on, and its value is not empty where
    [removeEmptyParams] is on. *)
Theorem X5_surviving_parameters (fetch : string -> option bool)
        (inputUrl : string) (options : option Options) (u : URL.t) :
  URL.parse inputUrl = URL.ParseOk u ->
  exists r u',
    cleanUrl fetch inputUrl options = Returned r
    /\ URL.parse (cleaned r) = URL.ParseOk u'
    /\ forall k v,
         In (k, v) (URLSearchParams.parse (URL.search u')) <->
         In (k, v) (URLSearchParams.parse (URL.search u))
         /\ (removeTracking (destructure options) = true ->
             Str.has PARAMS_TO_REMOVE (Str.toLowerCase k) = false
             /\ looksLikeTracking k = false)
         /\ (removeEmptyParams (destructure options) = true -> v <> "").
Proof.
  intros P. destruct (cleanUrl_reparsed fetch inputUrl options u P)
    as (r & R & _ & _ & P').
  exists r, (cleaned_url fetch (destructure options) u).
  split; [exact R|]. split; [exact P'|]. intros k v.
  rewrite parse_search_cleaned, parse_search, <- keeps_iff.
  destruct (URL.query u) as [[|c q]|]; try (cbn; tauto).
  rewrite <- filter_In. split; apply Permutation_in.
  - apply Permutation_sym, cleaned_entries_perm.
  - apply cleaned_entries_perm.
Qed.

Lemma X5_surviving_parameters_witness :
  exists r u',
    cleanUrl (fun _ => None)
             "https://example.com/?utm_source=x&page=2&empty=" None
    = Returned r
    /\ URL.parse (cleaned r) = URL.ParseOk u'
    /\ (In ("page", "2") (URLSearchParams.parse (URL.search u')))
    /\ ~ In ("utm_source", "x") (URLSearchParams.parse (URL.search u'))
    /\ ~ In ("empty", "") (URLSearchParams.parse (URL.search u')).
Proof.
  destruct (X5_surviving_parameters (fun _ => None)
              "https://example.com/?utm_source=x&page=2&empty=" None
              (URL.mk "https" "example.com" None [""]
                      (Some "utm_source=x&page=2&empty=") None) eq_refl)
    as (r & u' & R & P & H).
  exists r, u'. split; [exact R|]. split; [exact P|]. split; [|split].
  - apply H. vm_compute. split; [right; left; reflexivity|].
    split; [intros _; split; reflexivity|intros _; discriminate].
  - intros K. apply H in K as (_ & K & _).
    destruct (K eq_refl) as [K' _]. vm_compute in K'. discriminate K'.
  - intros K. apply H in K as (_ & _ & K). now apply K.
Defined.

(** X6: the query of the cleaned URL holds the pairs that survive the filter,
    each as often as the input has it; with [sortParams] off they are in the
    order of the input. *)
Theorem X6_parameters_kept_in_order (fetch : string -> option bool)
        (inputUrl : string) (options : option Options) (u : URL.t) :
  URL.parse inputUrl = URL.ParseOk u ->
  exists r u',
    cleanUrl fetch inputUrl options = Returned r
    /\ URL.parse (cleaned r) = URL.ParseOk u'
    /\ Permutation
         (filter (keeps (destructure options))
                 (URLSearchParams.parse (URL.search u)))
         (URLSearchParams.parse (URL.search u'))
    /\ (sortParams (destructure options) = false ->
        URLSearchParams.parse (URL.search u')
        = filter (keeps (destructure options))
                 (URLSearchParams.parse (URL.search u))).
Proof.
  intros P. destruct (cleanUrl_reparsed fetch inputUrl options u P)
    as (r & R & _ & _ & P').
  exists r, (cleaned_url fetch (destructure options) u).
  split; [exact R|]. split; [exact P'|].
  rewrite parse_search_cleaned, parse_search.
  destruct (URL.query u) as [[|c q]|]; try (split; [constructor|reflexivity]).
  split; [apply cleaned_entries_perm|].
  intros S. unfold cleaned_entries. now rewrite S.
Qed.

Lemma X6_parameters_kept_in_order_witness :
  exists r u',
    cleanUrl (fun _ => None) "https://example.com/?b=2&utm_source=x&a=1&b=1"
             (Some (Build_Options None None None None None (Some false)
                                  None None))
    = Returned r
    /\ URL.parse (cleaned r) = URL.ParseOk u'
    /\ URLSearchParams.parse (URL.search u')
       = [("b", "2"); ("a", "1"); ("b", "1")].
Proof.
  destruct (X6_parameters_kept_in_order (fun _ => None)
              "https://example.com/?b=2&utm_source=x&a=1&b=1"
              (Some (Build_Options None None None None None (Some false)
                                   None None))
              (URL.mk "https" "example.com" None [""]
                      (Some "b=2&utm_source=x&a=1&b=1") None) eq_refl)
    as (r & u' & R & P & _ & H).
  exists r, u'. split; [exact R|]. split; [exact P|].
  rewrite (H eq_refl). reflexivity.
Defined.

(* ------------------------------------------------------------------ *)

Lemma endsWith_app (s t : string) : Str.endsWith (s ++ t) t = true.
Proof.
  induction s as [|c s IH]; simpl.
  - destruct t; simpl; [reflexivity|].
    now rewrite Ascii.eqb_refl, String.eqb_refl.
  - now rewrite IH, orb_true_r.
Qed.

Lemma endsWith_app_r (s t p : string) :
  Str.endsWith t p = true -> Str.endsWith (s ++ t) p = true.
Proof.
  intros H. induction s as [|c s IH]; simpl; [exact H|].
  now rewrite IH, orb_true_r.
Qed.

Lemma href_bare_hash (u : URL.t) :
  URL.fragment u = Some EmptyString -> Str.endsWith (URL.href u) "#" = true.
Proof.
  intros F. unfold URL.href. rewrite F.
  do 6 apply endsWith_app_r. reflexivity.
Qed.

Lemma hash_truthy (u : URL.t) :
  URL.hash u <> "" <-> exists c f, URL.fragment u = Some (String c f).
Proof.
  unfold URL.hash. destruct (URL.fragment u) as [[|c f]|]; split;
    try congruence; try (intros (c' & f' & E); discriminate E).
  - intros _. now exists c, f.
  - intros _. discriminate.
Qed.

(** X7: with [removeFragment] on the cleaned URL has an empty [hash]; with it
    off the fragment is the one of the input.  An input that ends with an
    empty fragment keeps its [#] either way, as its [hash] is the empty
    string.  [Removed URL fragment] is logged exactly when [removeFragment] is
    on and the [hash] of the input is not empty. *)
Theorem X7_fragment (fetch : string -> option bool) (inputUrl : string)
        (options : option Options) (u : URL.t) :
  URL.parse inputUrl = URL.ParseOk u ->
  exists r u',
    cleanUrl fetch inputUrl options = Returned r
    /\ URL.parse (cleaned r) = URL.ParseOk u'
    /\ (removeFragment (destructure options) = true -> URL.hash u' = "")
    /\ (removeFragment (destructure options) = false ->
        URL.fragment u' = URL.fragment u)
    /\ (URL.fragment u = Some "" -> Str.endsWith (cleaned r) "#" = true)
    /\ (In "Removed URL fragment" (changes r) <->
        removeFragment (destructure options) = true /\ URL.hash u <> "").
Proof.
  intros P. pose proof (cleanUrl_parsed fetch inputUrl options u P) as R.
  destruct (cleanUrl_reparsed fetch inputUrl options u P)
    as (r & R' & _ & L & P').
  exists r, (cleaned_url fetch (destructure options) u).
  split; [exact R'|]. split; [exact P'|].
  rewrite R in R'. injection R' as <-. cbn [cleaned changes] in *.
  set (o := destructure options) in *.
  unfold URL.hash. rewrite cleaned_url_fragment. unfold cleaned_fragment.
  repeat split.
  - intros ->. now destruct (URL.fragment u) as [[|c f]|].
  - intros ->. now destruct (URL.fragment u) as [[|c f]|].
  - intros F. apply href_bare_hash. rewrite cleaned_url_fragment.
    now rewrite F.
  - rewrite In_change_log in H.
    destruct H as [[_ H]|[[_ H]|[[_ H]|[[H _]|[_ H]]]]];
      try discriminate H.
    unfold fragment_changed in H. now destruct (URL.fragment u) as [[|c f]|].
  - rewrite In_change_log in H.
    destruct H as [[_ H]|[[_ H]|[[_ H]|[[H _]|[_ H]]]]];
      try discriminate H.
    unfold fragment_changed in H.
    destruct (URL.fragment u) as [[|c f]|]; discriminate.
  - intros [Hr Hf]. rewrite In_change_log. right. right. right. left.
    split; [|reflexivity]. unfold fragment_changed.
    destruct (URL.fragment u) as [[|c f]|]; try exact Hr;
      now contradiction Hf.
Qed.

Lemma X7_fragment_witness :
  exists r u',
    cleanUrl (fun _ => None) "https://example.com/a#top" None = Returned r
    /\ URL.parse (cleaned r) = URL.ParseOk u'
    /\ URL.hash u' = ""
    /\ In "Removed URL fragment" (changes r).
Proof.
  destruct (X7_fragment (fun _ => None) "https://example.com/a#top" None
              (URL.mk "https" "example.com" None ["a"] None (Some "top"))
              eq_refl)
    as (r & u' & R & P & H & _ & _ & L).
  exists r, u'. split; [exact R|]. split; [exact P|]. split.
  - now apply H.
  - apply L. split; [reflexivity|discriminate].
Defined.

(* ------------------------------------------------------------------ *)








(* ------------------------------------------------------------------ *)

Lemma decimal_443 (n : N) :
  String.eqb (URL.decimal n) "443" = N.eqb n 443.
Proof.
  destruct (N.eqb_spec n 443) as [->|D]; [reflexivity|].
  apply String.eqb_neq. intros E. apply D. now apply decimal_inj.
Qed.

Lemma cleaned_url_port_eq (fetch : string -> option bool) (o : Flags)
      (u : URL.t) :
  URL.port (cleaned_url fetch o u)
  = if upgrades fetch o u
    then if URL.is_default_port "https" (URL.port u) then None else URL.port u
    else URL.port u.
Proof.
  unfold cleaned_url. cbv zeta. cbn [URL.port].
  destruct (upgrades fetch o u);
    destruct (strips_www _ _); try reflexivity;
    now rewrite (proj1 (proj2 (stripped_fields _))).
Qed.

(** X9: a URL under [https:] stays under [https:], and the port of the
    cleaned URL is the port of the input, except that port 443 goes when the
    cleaned URL is under [https:], which the upgrade of an [http:] URL with
    that port brings about. *)
Theorem X9_scheme_and_port (fetch : string -> option bool)
        (inputUrl : string) (options : option Options) (u : URL.t) :
  URL.parse inputUrl = URL.ParseOk u ->
  exists r u',
    cleanUrl fetch inputUrl options = Returned r
    /\ URL.parse (cleaned r) = URL.ParseOk u'
    /\ (URL.protocol u = "https:" -> URL.protocol u' = "https:")
    /\ URL.port_string u'
       = if String.eqb (URL.protocol u') "https:"
            && String.eqb (URL.port_string u) "443"
         then "" else URL.port_string u.
Proof.
  intros P. pose proof (parse_wf _ _ P) as W.
  pose proof (wf_inv _ W) as (Hs & _ & Hp & _).
  destruct (cleanUrl_reparsed fetch inputUrl options u P)
    as (r & R & _ & _ & P').
  exists r, (cleaned_url fetch (destructure options) u).
  split; [exact R|]. split; [exact P'|].
  set (o := destructure options) in *.
  unfold URL.protocol, URL.port_string.
  rewrite cleaned_url_scheme, cleaned_url_port_eq.
  split.
  - intros E. destruct (upgrades fetch o u); [reflexivity|exact E].
  - destruct (upgrades fetch o u).
    + cbn [append String.eqb Ascii.eqb Bool.eqb andb].
      destruct (URL.port u) as [n|]; [|reflexivity].
      rewrite decimal_443. unfold URL.is_default_port. cbn.
      now destruct (N.eqb n 443).
    + destruct Hs as [E|E]; rewrite E in *; [reflexivity|].
      destruct (URL.port u) as [n|]; [|reflexivity].
      rewrite decimal_443. unfold wf_port, URL.is_default_port in Hp.
      cbn in Hp. apply andb_true_iff in Hp as [_ Hp].
      apply negb_true_iff in Hp. rewrite Hp. reflexivity.
Qed.

Lemma X9_scheme_and_port_witness :
  exists r u',
    cleanUrl (fun _ => Some true) "http://example.com:443/" None = Returned r
    /\ URL.parse (cleaned r) = URL.ParseOk u'
    /\ URL.port_string u'
       = if String.eqb (URL.protocol u') "https:" && true then ""
         else "443".
Proof.
  destruct (X9_scheme_and_port (fun _ => Some true) "http://example.com:443/"
              None (URL.mk "http" "example.com" (Some 443%N) [""] None None)
              eq_refl)
    as (r & u' & R & P & _ & E).
  exists r, u'. split; [exact R|]. split; [exact P|]. exact E.
Defined.

(* ================================================================== *)
(** * [normalizeUrl] *)

Lemma startsWith_www_app (h : string) (c : ascii) (r : string) :
  Ascii.eqb "w" c = false -> Ascii.eqb "." c = false ->
  Str.startsWith (h ++ String c r) "www." = Str.startsWith h "www.".
Proof.
  intros W D.
  destruct h as [|a [|b [|d [|e [|f h]]]]]; cbn [append Str.startsWith];
    rewrite ?W, ?D, ?andb_false_r; reflexivity.
Qed.

Lemma drop_app (p t : string) : Str.drop (String.length p) (p ++ t) = t.
Proof. induction p as [|c p IH]; [now destruct t|exact IH]. Qed.

Lemma replace_www_app (h : string) (c : ascii) (r : string) :
  Ascii.eqb "w" c = false -> Ascii.eqb "." c = false ->
  replace_www (h ++ String c r) = replace_www h ++ String c r.
Proof.
  intros W D. unfold replace_www. rewrite startsWith_www_app by assumption.
  destruct (Str.startsWith h "www.") eqn:S; [|reflexivity].
  rewrite (startsWith_drop _ _ S) at 1. rewrite sapp_assoc.
  exact (drop_app "www." _).
Qed.

Lemma startsWith_nil (s : string) : Str.startsWith s "" = true.
Proof. now destruct s. Qed.

Lemma replace_scheme_http (r : string) : replace_scheme ("http://" ++ r) = r.
Proof.
  unfold replace_scheme. cbn [append Str.startsWith]. simpl Ascii.eqb.
  cbn [andb]. now rewrite startsWith_nil.
Qed.

Lemma replace_scheme_https (r : string) : replace_scheme ("https://" ++ r) = r.
Proof.
  unfold replace_scheme. cbn [append Str.startsWith]. simpl Ascii.eqb.
  cbn [andb]. now rewrite startsWith_nil.
Qed.

Lemma after_host_head (u : URL.t) :
  URL.path u <> [] ->
  exists c r, after_host u = String c r
              /\ Ascii.eqb "w" c = false /\ Ascii.eqb "." c = false.
Proof.
  intros Hn. unfold after_host.
  destruct (URL.port u) as [n|].
  - eexists. eexists. split; [reflexivity|]. split; reflexivity.
  - destruct (URL.path u) as [|s rest]; [congruence|].
    eexists. eexists. split; [reflexivity|]. split; reflexivity.
Qed.

(** On a URL that the constructor accepts, [normalizeUrl] is the serialized
    URL without its scheme, one leading [www.] and one last [/]. *)
Lemma normalizeUrl_parsed (x : string) (u : URL.t) :
  URL.parse x = URL.ParseOk u ->
  normalizeUrl x
  = Some (replace_last_slash (replace_www (URL.host u) ++ after_host u)).
Proof.
  intros P. pose proof (parse_wf _ _ P) as W.
  pose proof (wf_inv _ W) as (Hs & _ & _ & Hn & _).
  unfold normalizeUrl. rewrite P. cbv zeta. f_equal. f_equal.
  rewrite href_unfold. fold (after_host u).
  destruct (after_host_head u Hn) as (c & r & E & Hw & Hd). rewrite E.
  rewrite <- replace_www_app by assumption.
  destruct Hs as [-> | ->].
  - exact (f_equal replace_www (replace_scheme_http _)).
  - exact (f_equal replace_www (replace_scheme_https _)).
Qed.

Lemma normalizeUrl_href (u : URL.t) :
  wf u = true ->
  normalizeUrl (URL.href u)
  = Some (replace_last_slash (replace_www (URL.host u) ++ after_host u)).
Proof. intros W. apply normalizeUrl_parsed. now apply parse_href. Qed.





Lemma endsWith_app_nonempty (a b : string) (c : ascii) :
  Str.endsWith (a ++ String c b) "/" = Str.endsWith (String c b) "/".
Proof.
  induction a as [|x a IH]; [reflexivity|].
  change (String x a ++ String c b) with (String x (a ++ String c b)).
  cbn [Str.endsWith]. rewrite IH.
  destruct (a ++ String c b) eqn:E; [now destruct a|].
  cbn [String.eqb]. destruct (Ascii.eqb x "/"); reflexivity.
Qed.

Lemma serialize_path_no_last_slash (a : string) (segs : list string) :
  forallb wf_segment segs = true -> segs <> [] -> last segs "" <> "" ->
  Str.endsWith (a ++ URL.serialize_path segs) "/" = false.
Proof.
  intros Hl Hn Hlast.
  rewrite (app_removelast_last "" Hn), serialize_path_last, <- sapp_assoc.
  rewrite endsWith_after_slash.
  - now apply String.eqb_neq.
  - apply wf_segment_slash_free. apply (forallb_last wf_segment); assumption.
Qed.

(** X11: [normalizeUrl] does not tell a path from the same path followed by
    one more separator, on a URL without query and fragment whose path does
    not end with a separator. *)
Theorem X11_normalizeUrl_trailing_slash (x : string) (u : URL.t) :
  URL.parse x = URL.ParseOk u ->
  URL.query u = None -> URL.fragment u = None ->
  last (URL.path u) "" <> "" ->
  normalizeUrl
    (URL.href (URL.mk (URL.scheme u) (URL.host u) (URL.port u)
                      (URL.path u ++ [""]) None None))
  = normalizeUrl x.
Proof.
  intros P Hq Hf Hlast. pose proof (parse_wf _ _ P) as W.
  pose proof (wf_inv _ W) as (Hs & Hh & Hp & Hn & Hl & _).
  rewrite (normalizeUrl_parsed x u P).
  rewrite normalizeUrl_href.
  2:{ apply wf_intro; cbn [URL.scheme URL.host URL.port URL.path URL.query
                           URL.fragment]; try assumption; try reflexivity.
      - now destruct (URL.path u).
      - rewrite forallb_app, Hl. reflexivity. }
  unfold after_host.
  cbn [URL.scheme URL.host URL.port URL.path URL.query URL.fragment].
  rewrite Hq, Hf. cbn [query_part fragment_part]. rewrite !sapp_nil_r.
  rewrite serialize_path_last. f_equal.
  rewrite <- !sapp_assoc. unfold replace_last_slash at 1.
  rewrite (endsWith_app _ "/"), slice_0_m1_app.
  unfold replace_last_slash.
  now rewrite serialize_path_no_last_slash.
Qed.

Lemma X11_normalizeUrl_trailing_slash_witness :
  normalizeUrl "https://example.com/a/b/" = normalizeUrl "https://example.com/a/b".
Proof.
  exact (X11_normalizeUrl_trailing_slash "https://example.com/a/b"
           (URL.mk "https" "example.com" None ["a"; "b"] None None)
           eq_refl eq_refl eq_refl ltac:(discriminate)).
Defined.

(** X12: [normalizeUrl] keeps the query of the URL as it is, the tracking
    parameters of [paramsToRemove] included: they are deleted on a second URL
    object that the function does not read again. *)
Theorem X12_normalizeUrl_keeps_query (x : string) (u : URL.t) (q : string) :
  URL.parse x = URL.ParseOk u ->
  URL.query u = Some q -> URL.fragment u = None ->
  Str.endsWith q "/" = false ->
  exists n, normalizeUrl x = Some n /\ Str.endsWith n ("?" ++ q) = true.
Proof.
  intros P Hq Hf Hs. eexists.
  split; [exact (normalizeUrl_parsed x u P)|].
  unfold after_host. rewrite Hq, Hf. cbn [query_part fragment_part].
  rewrite sapp_nil_r. unfold replace_last_slash.
  set (hw := replace_www (URL.host u)). set (pp := port_part (URL.port u)).
  set (sp := URL.serialize_path (URL.path u)).
  assert (R : hw ++ pp ++ sp ++ "?" ++ q = (hw ++ pp ++ sp) ++ String "?" q)
    by now rewrite !sapp_assoc.
  rewrite R, endsWith_app_nonempty.
  assert (E : Str.endsWith (String "?" q) "/" = false).
  { cbn [Str.endsWith]. rewrite Hs.
    destruct q; reflexivity. }
  rewrite E. apply (endsWith_app (hw ++ pp ++ sp) (String "?" q)).
Qed.

Lemma X12_normalizeUrl_keeps_query_witness :
  exists n,
    normalizeUrl "https://www.example.com/a?utm_source=news&ref=x" = Some n
    /\ Str.endsWith n "?utm_source=news&ref=x" = true.
Proof.
  exact (X12_normalizeUrl_keeps_query
           "https://www.example.com/a?utm_source=news&ref=x"
           (URL.mk "https" "www.example.com" None ["a"]
                   (Some "utm_source=news&ref=x") None)
           "utm_source=news&ref=x" eq_refl eq_refl eq_refl eq_refl).
Defined.

(* ================================================================== *)
(** * Trimming and splitting *)

Lemma split_from_nonempty (sep : string) (skip : nat) (s : string) :
  Text.split_from sep skip s <> [].
Proof.
  revert skip. induction s as [|c s IH]; intros skip; [discriminate|].
  cbn [Text.split_from]. destruct skip as [|k]; [|apply IH].
  destruct (Str.startsWith (String c s) sep); discriminate.
Qed.

Lemma includes_nil (s : string) : Str.includes s "" = true.
Proof. destruct s; reflexivity. Qed.

(** A string without an occurrence of the separator is one piece. *)
Lemma split_no_sep (sep s : string) :
  Str.includes s sep = false -> Text.split sep s = [s].
Proof.
  unfold Text.split. induction s as [|c s IH]; intros H; [reflexivity|].
  cbn [Str.includes] in H. apply orb_false_iff in H as [H1 H2].
  cbn [Text.split_from]. rewrite H1, (IH H2). reflexivity.
Qed.

(** A piece that ends at the first [": "]. *)
Lemma split_colon_app (a t : string) :
  Str.includes a ": " = false ->
  Text.split ": " (a ++ ": " ++ t) = a :: Text.split ": " t.
Proof.
  unfold Text.split. induction a as [|x a IH]; intros H.
  - cbn [append Text.split_from Str.startsWith]. simpl Ascii.eqb.
    rewrite startsWith_nil. reflexivity.
  - change (String x a ++ ": " ++ t) with (String x (a ++ ": " ++ t)).
    cbn [Str.includes] in H. apply orb_false_iff in H as [H1 H2].
    cbn [Text.split_from].
    assert (S : Str.startsWith (String x (a ++ ": " ++ t)) ": " = false).
    { cbn [Str.startsWith] in *. destruct (Ascii.eqb ":" x); [|reflexivity].
      cbn [andb] in *. destruct a as [|y a]; [reflexivity|].
      cbn [append Str.startsWith] in *. now rewrite startsWith_nil in *. }
    rewrite S, (IH H2). reflexivity.
Qed.

Lemma includes_app_sep (a sep t : string) :
  Str.includes (a ++ sep ++ t) sep = true.
Proof.
  induction a as [|x a IH].
  - cbn [append]. destruct (sep ++ t) eqn:E.
    + destruct sep; [reflexivity|discriminate E].
    + cbn [Str.includes]. rewrite <- E, startsWith_app. reflexivity.
  - change (String x a ++ sep ++ t) with (String x (a ++ sep ++ t)).
    cbn [Str.includes]. rewrite IH. apply orb_true_r.
Qed.

(** A string with an occurrence of the separator is two pieces or more. *)
Lemma split_includes (sep s : string) :
  sep <> "" ->
  Str.includes s sep = true -> 2 <= List.length (Text.split sep s).
Proof.
  unfold Text.split. intros Hs. induction s as [|c s IH]; intros H.
  - destruct sep; [congruence|discriminate H].
  - cbn [Text.split_from].
    destruct (Str.startsWith (String c s) sep) eqn:S.
    + cbn [List.length].
      pose proof (split_from_nonempty sep (String.length sep - 1) s) as N.
      destruct (Text.split_from sep (String.length sep - 1) s);
        [congruence|cbn [List.length]; lia].
    + cbn [Str.includes] in H. rewrite S in H. cbn [orb] in H.
      specialize (IH H). cbv zeta.
      destruct (Text.split_from sep 0 s) as [|p r];
        cbn [List.length hd tl] in *; lia.
Qed.

(* ================================================================== *)
(** * [markdownToNotionBlocks] *)

Lemma trimEnd_last (s x : string) (c : ascii) :
  Text.trimEnd s = x ++ String c EmptyString -> Text.is_white_space c = false.
Proof.
  revert x. induction s as [|a s IH]; intros x E; cbn [Text.trimEnd] in E.
  - now destruct x.
  - destruct (Text.trimEnd s) as [|b r] eqn:T.
    + destruct (Text.is_white_space a) eqn:W; [now destruct x|].
      destruct x as [|y x]; cbn [append] in E.
      * now injection E as <-.
      * injection E as _ E. now destruct x.
    + destruct x as [|y x]; cbn [append] in E; [discriminate E|].
      injection E as _ E. now apply (IH x).
Qed.

Lemma forallb_trimStart (p : ascii -> bool) (s : string) :
  Str.forallb p s = true -> Str.forallb p (Text.trimStart s) = true.
Proof.
  induction s as [|c s IH]; [reflexivity|]. intros H.
  cbn [Text.trimStart]. destruct (Text.is_white_space c); [|exact H].
  cbn [Str.forallb] in H. apply andb_true_iff in H as [_ H]. now apply IH.
Qed.

Lemma forallb_trimEnd (p : ascii -> bool) (s : string) :
  Str.forallb p s = true -> Str.forallb p (Text.trimEnd s) = true.
Proof.
  induction s as [|c s IH]; [reflexivity|]. intros H.
  cbn [Str.forallb] in H. apply andb_true_iff in H as [Hc H].
  cbn [Text.trimEnd]. specialize (IH H).
  destruct (Text.trimEnd s) as [|b r].
  - destruct (Text.is_white_space c); [reflexivity|].
    cbn [Str.forallb]. now rewrite Hc.
  - cbn [Str.forallb] in *. now rewrite Hc, IH.
Qed.

Lemma forallb_trim (p : ascii -> bool) (s : string) :
  Str.forallb p s = true -> Str.forallb p (Text.trim s) = true.
Proof. intros H. now apply forallb_trimEnd, forallb_trimStart. Qed.

Lemma forallb_drop (p : ascii -> bool) (n : nat) (s : string) :
  Str.forallb p s = true -> Str.forallb p (Str.drop n s) = true.
Proof.
  revert s. induction n as [|n IH]; intros s H; [now destruct s|].
  destruct s as [|c s]; [reflexivity|]. cbn [Str.drop].
  cbn [Str.forallb] in H. apply andb_true_iff in H as [_ H]. now apply IH.
Qed.

Lemma forallb_split (p : ascii -> bool) (sep : string) (skip : nat)
      (s : string) :
  Str.forallb p s = true ->
  forallb (Str.forallb p) (Text.split_from sep skip s) = true.
Proof.
  revert skip. induction s as [|c s IH]; intros skip H; [reflexivity|].
  cbn [Str.forallb] in H. apply andb_true_iff in H as [Hc H].
  cbn [Text.split_from]. destruct skip as [|k]; [|now apply IH].
  destruct (Str.startsWith (String c s) sep); [now apply (IH _ H)|].
  specialize (IH 0 H). cbv zeta.
  destruct (Text.split_from sep 0 s) as [|x r]; cbn [hd tl forallb Str.forallb] in *.
  - now rewrite Hc.
  - apply andb_true_iff in IH as [Hx Hr]. now rewrite Hc, Hx, Hr.
Qed.

(** The lines of a text hold no line feed. *)
Lemma split_lines (content : string) :
  forallb one_line (Text.split Text.LF content) = true.
Proof.
  unfold Text.split. induction content as [|c s IH]; [reflexivity|].
  cbn [Text.split_from]. unfold Text.LF at 1.
  cbn [Str.startsWith]. rewrite startsWith_nil, andb_true_r.
  destruct (Ascii.eqb "010" c) eqn:E.
  - exact IH.
  - cbv zeta.
    destruct (Text.split_from Text.LF 0 s) as [|x r];
      cbn [hd tl forallb] in *; unfold one_line at 1; cbn [Str.forallb];
      rewrite Ascii.eqb_sym, E; [reflexivity|exact IH].
Qed.

(** A trimmed line that starts with ["# "] goes on after it. *)
Lemma heading_text (line : string) :
  Str.startsWith (Text.trim line) "# " = true ->
  nonempty (Str.drop 2 (Text.trim line)) = true.
Proof.
  intros H. pose proof (startsWith_drop _ _ H) as E.
  change (String.length "# ") with 2 in E.
  destruct (Str.drop 2 (Text.trim line)) as [|c r]; [|reflexivity].
  unfold Text.trim in E.
  now pose proof (trimEnd_last _ "#" " " E).
Qed.

Lemma push_line_shape (blocks : list block) (line : string) :
  forallb block_shape blocks = true -> one_line line = true ->
  forallb block_shape (push_line blocks line) = true.
Proof.
  intros Hb Hl. unfold push_line. cbv zeta.
  pose proof (forallb_trim _ _ Hl) as Ht. fold (one_line (Text.trim line)) in Ht.
  destruct (String.eqb (Text.trim line) "") eqn:E; [exact Hb|].
  destruct (Str.startsWith (Text.trim line) "# ") eqn:S.
  { rewrite forallb_app, Hb. cbn [forallb block_shape].
    rewrite (heading_text _ S). unfold one_line.
    rewrite forallb_drop by exact Ht. reflexivity. }
  destruct (Str.includes (Text.trim line) ": ") eqn:I.
  - rewrite forallb_app, Hb. cbn [forallb].
    pose proof (split_includes ": " _ ltac:(discriminate) I) as L.
    pose proof (forallb_split _ ": " 0 _ Ht) as F.
    fold (Text.split ": " (Text.trim line)) in F.
    destruct (Text.split ": " (Text.trim line)) as [|k [|v r]];
      cbn [List.length] in L; try lia.
    cbn [map key_value_block block_shape forallb] in *.
    apply andb_true_iff in F as [Fk F]. apply andb_true_iff in F as [Fv _].
    rewrite endsWith_app. unfold one_line.
    rewrite Str_forallb_app, !forallb_trim by assumption. reflexivity.
  - rewrite forallb_app, Hb. cbn [forallb block_shape].
    unfold nonempty. now rewrite E, Ht.
Qed.

Lemma push_line_length (blocks : list block) (line : string) :
  List.length (push_line blocks line)
  = List.length blocks + if blank line then 0 else 1.
Proof.
  unfold push_line, blank. cbv zeta.
  destruct (String.eqb (Text.trim line) ""); [lia|].
  destruct (Str.startsWith _ _); [|destruct (Str.includes _ _)];
    rewrite List.length_app; cbn [List.length]; lia.
Qed.

Lemma fold_push_line (lines : list string) (blocks : list block) :
  forallb block_shape blocks = true -> forallb one_line lines = true ->
  List.length (fold_left push_line lines blocks)
  = List.length blocks
    + List.length (filter (fun line => negb (blank line)) lines)
  /\ forallb block_shape (fold_left push_line lines blocks) = true.
Proof.
  revert blocks. induction lines as [|l lines IH]; intros blocks Hb Hl.
  - cbn. split; [lia|exact Hb].
  - cbn [forallb] in Hl. apply andb_true_iff in Hl as [H1 H2].
    cbn [fold_left filter].
    destruct (IH (push_line blocks l) (push_line_shape _ _ Hb H1) H2)
      as [IH1 IH2].
    split; [|exact IH2]. rewrite IH1, push_line_length.
    destruct (blank l); cbn [negb List.length]; lia.
Qed.

(** X13: [markdownToNotionBlocks] builds one block for each line that is not
    blank, and every block is a heading or a paragraph of one text that is
    not empty, or a paragraph of a bold key that ends with a colon and a
    space followed by a value. *)
Theorem X13_markdown_blocks (content : string) :
  List.length (markdownToNotionBlocks content)
  = List.length (filter (fun line => negb (blank line))
                        (Text.split Text.LF content))
  /\ forallb block_shape (markdownToNotionBlocks content) = true.
Proof.
  unfold markdownToNotionBlocks.
  destruct (fold_push_line (Text.split Text.LF content) [] eq_refl
                           (split_lines content)) as [H1 H2].
  split; [exact H1|exact H2].
Qed.

Lemma one_line_split (s : string) :
  one_line s = true -> Text.split Text.LF s = [s].
Proof.
  intros H. apply split_no_sep. apply no_char_includes.
  unfold one_line in H. revert H. apply Str_forallb_impl.
  intros c. rewrite (Ascii.eqb_sym c). now destruct (Ascii.eqb "010" c).
Qed.

(** X14: on a trimmed line made of a key, a colon and a space, a value and
    possibly more text after a second colon and space, the block holds the
    key and the value only: the text after the second colon is left out. *)
Theorem X14_key_value_line (a b rest : string) :
  one_line (a ++ ": " ++ b ++ rest) = true ->
  Text.trim (a ++ ": " ++ b ++ rest) = a ++ ": " ++ b ++ rest ->
  Str.startsWith (a ++ ": " ++ b ++ rest) "# " = false ->
  Str.includes a ": " = false -> Str.includes b ": " = false ->
  rest = "" \/ Str.startsWith rest ": " = true ->
  markdownToNotionBlocks (a ++ ": " ++ b ++ rest)
  = [paragraph [bold_text (Text.trim a ++ ": "); text (Text.trim b)]].
Proof.
  intros Hl Ht Hh Ha Hb Hr. unfold markdownToNotionBlocks.
  rewrite (one_line_split _ Hl). cbn [fold_left]. unfold push_line.
  cbv zeta. rewrite Ht, Hh, includes_app_sep.
  assert (E : String.eqb (a ++ ": " ++ b ++ rest) "" = false)
    by (now destruct a).
  rewrite E, (split_colon_app _ _ Ha). cbn [app]. do 2 f_equal.
  destruct Hr as [-> | Hr].
  - rewrite sapp_nil_r, (split_no_sep _ _ Hb). reflexivity.
  - rewrite (startsWith_drop _ _ Hr), (split_colon_app _ _ Hb). reflexivity.
Qed.

Lemma X14_key_value_line_witness :
  markdownToNotionBlocks "Time: 10: 30 PM"
  = [paragraph [bold_text "Time: "; text "10"]].
Proof.
  exact (X14_key_value_line "Time" "10" ": 30 PM" eq_refl eq_refl eq_refl
           eq_refl eq_refl (or_intror eq_refl)).
Defined.

(* ================================================================== *)
(** * The front matter and the title *)

(** [splitFirst] cuts at the leftmost occurrence of the separator. *)
Lemma splitFirst_spec (sep s a b : string) :
  Text.splitFirst sep s = Some (a, b) <->
  s = a ++ sep ++ b
  /\ forall a' b', s = a' ++ sep ++ b' -> String.length a <= String.length a'.
Proof.
  split.
  - revert a b. induction s as [|c s IH]; intros a b H.
    + cbn [Text.splitFirst] in H.
      destruct (Str.startsWith "" sep) eqn:S; [|discriminate H].
      injection H as <- <-. split; [|intros; cbn; lia].
      exact (startsWith_drop _ _ S).
    + cbn [Text.splitFirst] in H.
      destruct (Str.startsWith (String c s) sep) eqn:S.
      * injection H as <- <-. split; [|intros; cbn; lia].
        exact (startsWith_drop _ _ S).
      * destruct (Text.splitFirst sep s) as [[a0 b0]|] eqn:R;
          [|discriminate H].
        injection H as <- <-. destruct (IH _ _ eq_refl) as [E M].
        split; [cbn [append]; now rewrite <- E|].
        intros a' b' E'. destruct a' as [|x a'].
        -- cbn [append] in E'. rewrite E', startsWith_app in S.
           discriminate S.
        -- cbn [append] in E'. injection E' as _ E'.
           specialize (M _ _ E'). cbn [String.length]. lia.
  - revert s. induction a as [|c a IH]; intros s [E M].
    + cbn [append] in E. subst s.
      destruct (sep ++ b) as [|x r] eqn:D; cbn [Text.splitFirst];
        rewrite <- D, startsWith_app, drop_app; reflexivity.
    + cbn [append] in E. subst s. cbn [Text.splitFirst].
      destruct (Str.startsWith (String c (a ++ sep ++ b)) sep) eqn:S.
      * pose proof (startsWith_drop _ _ S) as D.
        specialize (M "" _ D). cbn in M. lia.
      * rewrite (IH (a ++ sep ++ b)); [reflexivity|].
        split; [reflexivity|]. intros a' b' E'.
        specialize (M (String c a') b'). cbn [append String.length] in M.
        rewrite E' in M. specialize (M eq_refl). lia.
Qed.

(** X15: the pattern of the front matter matches exactly the contents that
    start with a line of three dashes, followed by the front matter, a line
    feed, a line of three dashes and the rest; the front matter captured is
    the shortest one for which the content has this form. *)
Theorem X15_front_matter (content frontMatter markdownContent : string) :
  frontMatterMatch content = Some (frontMatter, markdownContent) <->
  content = "---" ++ Text.LF ++ frontMatter
            ++ Text.LF ++ "---" ++ Text.LF ++ markdownContent
  /\ forall frontMatter' markdownContent',
       content = "---" ++ Text.LF ++ frontMatter'
                 ++ Text.LF ++ "---" ++ Text.LF ++ markdownContent' ->
       String.length frontMatter <= String.length frontMatter'.
Proof.
  unfold frontMatterMatch. split.
  - destruct (Str.startsWith content ("---" ++ Text.LF)) eqn:S;
      [|discriminate].
    pose proof (startsWith_drop _ _ S) as E.
    change (String.length ("---" ++ Text.LF)) with 4 in E.
    intros H. apply splitFirst_spec in H as [H M]. split.
    + rewrite E at 1. rewrite H. reflexivity.
    + intros f' m' E'. apply (M f' m'). rewrite E'. reflexivity.
  - intros [E M]. subst content.
    change (Str.startsWith _ ("---" ++ Text.LF))
      with (Str.startsWith
              (frontMatter ++ Text.LF ++ "---" ++ Text.LF ++ markdownContent)
              "").
    rewrite startsWith_nil.
    change (Str.drop 4 _)
      with (frontMatter ++ (Text.LF ++ "---" ++ Text.LF) ++ markdownContent).
    apply splitFirst_spec. split; [reflexivity|].
    intros a' b' E'. apply (M a' b').
    change ("---" ++ Text.LF ++ frontMatter
            ++ Text.LF ++ "---" ++ Text.LF ++ markdownContent)
      with (("---" ++ Text.LF)
            ++ (frontMatter
                ++ (Text.LF ++ "---" ++ Text.LF) ++ markdownContent)).
    rewrite E'. reflexivity.
Qed.

(** A text that [trimEnd] leaves alone and that is not empty stops the run
    of white space that starts it. *)
Lemma span_white_trimmed (p t : string) :
  Text.trimEnd p = p -> p <> "" ->
  exists w r, Str.span Text.is_white_space (p ++ t) = (w, r ++ t) /\ r <> "".
Proof.
  induction p as [|c p IH]; [congruence|]. intros E _.
  change (String c p ++ t) with (String c (p ++ t)). cbn [Str.span].
  destruct (Text.is_white_space c) eqn:W.
  - cbn [Text.trimEnd] in E.
    destruct (Text.trimEnd p) as [|b r] eqn:T.
    + rewrite W in E. discriminate E.
    + injection E as E. destruct IH as (w & r' & S & N);
        [exact E | now rewrite <- E |].
      rewrite S. exists (String c w), r'. now split.
  - exists "", (String c p). split; [reflexivity|discriminate].
Qed.

Lemma trimEnd_tail (c : ascii) (p : string) :
  Text.trimEnd (String c p) = String c p -> Text.trimEnd p = p.
Proof.
  cbn [Text.trimEnd]. destruct (Text.trimEnd p) as [|b r] eqn:T.
  - destruct (Text.is_white_space c); [discriminate|]. now intros [= <-].
  - now intros [= <-].
Qed.

Lemma hex_char_not_white (c : ascii) :
  implb (URL.is_hex_digit c) (negb (Text.is_white_space c)) = true.
Proof. all_chars c. Qed.

Lemma hex_not_white (h : string) :
  Str.forallb URL.is_hex_digit h = true ->
  match h with
  | EmptyString => true
  | String c _ => negb (Text.is_white_space c)
  end = true.
Proof.
  destruct h as [|c h]; [reflexivity|]. cbn [Str.forallb]. intros H.
  apply andb_true_iff in H as [H _].
  exact (implb_elim _ _ (hex_char_not_white c) H).
Qed.

Lemma replace_id_suffix_spec (p ws h : string) :
  Text.trimEnd p = p ->
  ws <> "" -> Str.forallb Text.is_white_space ws = true ->
  String.length h = 32 -> Str.forallb URL.is_hex_digit h = true ->
  replace_id_suffix (p ++ ws ++ h) = p.
Proof.
  intros Hp Hw Hws Hl Hh. induction p as [|c p IH].
  - cbn [append].
    assert (I : id_suffix_here (ws ++ h) = true).
    { unfold id_suffix_here.
      rewrite (span_app _ _ _ Hws (hex_not_white _ Hh)), Hl, Hh.
      destruct ws; [congruence|reflexivity]. }
    destruct (ws ++ h); cbn [replace_id_suffix]; now rewrite I.
  - change (String c p ++ ws ++ h) with (String c (p ++ ws ++ h)).
    cbn [replace_id_suffix].
    assert (I : id_suffix_here (String c (p ++ ws ++ h)) = false).
    { unfold id_suffix_here.
      destruct (span_white_trimmed (String c p) (ws ++ h) Hp
                  ltac:(discriminate)) as (w & r & Sp & N).
      change (String c p ++ ws ++ h) with (String c (p ++ ws ++ h)) in Sp.
      rewrite Sp.
      assert (L : (String.length (r ++ ws ++ h) =? 32) = false).
      { apply Nat.eqb_neq. rewrite !length_app, Hl.
        destruct r; [congruence|]. cbn [String.length]. lia. }
      now rewrite L, andb_false_r. }
    rewrite I. f_equal. apply IH. exact (trimEnd_tail _ _ Hp).
Qed.

(** X16: the title of a page loses a trailing identifier: for a title made of
    a text that does not end with white space, then white space, then
    thirty-two hexadecimal digits, the content of the title is the text. *)
Theorem X16_title_id_suffix (p ws h : string) :
  Text.trimEnd p = p ->
  ws <> "" -> Str.forallb Text.is_white_space ws = true ->
  String.length h = 32 -> Str.forallb URL.is_hex_digit h = true ->
  title_content (Some (p ++ ws ++ h)) = p.
Proof.
  intros Hp Hw Hws Hl Hh. unfold title_content.
  destruct (p ++ ws ++ h) as [|c t] eqn:E.
  - apply (f_equal String.length) in E. rewrite !length_app, Hl in E.
    cbn in E. lia.
  - rewrite <- E. now apply replace_id_suffix_spec.
Qed.

Lemma X16_title_id_suffix_witness :
  title_content (Some "Reading list 0123456789abcdef0123456789ABCDEF")
  = "Reading list".
Proof.
  exact (X16_title_id_suffix "Reading list" " "
           "0123456789abcdef0123456789ABCDEF"
           eq_refl ltac:(discriminate) eq_refl eq_refl eq_refl).
Defined.

(* ================================================================== *)
(** * The schema and the pages of a database *)

Lemma findUrlProperties_from (s : schema) (acc : list urlProp) :
  fold_left push_url_property s acc = (acc ++ findUrlProperties s)%list.
Proof.
  unfold findUrlProperties. revert acc.
  induction s as [|e s IH]; intros acc; [now rewrite app_nil_r|].
  cbn [fold_left]. rewrite IH, (IH (push_url_property [] e)).
  rewrite app_assoc. f_equal. unfold push_url_property. destruct e as [i p].
  destruct (String.eqb (property_type p) "url");
    [reflexivity|now rewrite app_nil_r].
Qed.

Lemma findUrlProperties_cons (i : string) (p : property) (s : schema) :
  findUrlProperties ((i, p) :: s)
  = if String.eqb (property_type p) "url"
    then {| prop_id := i; prop_name := property_name p |}
         :: findUrlProperties s
    else findUrlProperties s.
Proof.
  unfold findUrlProperties at 1. cbn [fold_left].
  rewrite findUrlProperties_from. unfold push_url_property.
  now destruct (String.eqb (property_type p) "url").
Qed.

(** X17: [findUrlProperty] returns the id of the first property that
    [findUrlProperties] lists, and [null] exactly when the list is empty;
    [findUrlProperties] lists the id and the name of each property of type
    [url] and of no other. *)
Theorem X17_url_properties (s : schema) :
  findUrlProperty s = option_map prop_id (hd_error (findUrlProperties s))
  /\ (findUrlProperties s = [] <-> findUrlProperty s = None)
  /\ forall i n,
       In {| prop_id := i; prop_name := n |} (findUrlProperties s) <->
       In (i, {| property_type := "url"; property_name := n |}) s.
Proof.
  assert (H : findUrlProperty s
              = option_map prop_id (hd_error (findUrlProperties s))).
  { induction s as [|[i p] s IH]; [reflexivity|].
    rewrite findUrlProperties_cons. cbn [findUrlProperty].
    destruct (String.eqb (property_type p) "url"); [reflexivity|exact IH]. }
  split; [exact H|]. split.
  - rewrite H. destruct (findUrlProperties s); cbn; split; congruence.
  - clear H. intros i n. induction s as [|[j p] s IH]; [reflexivity|].
    rewrite findUrlProperties_cons. cbn [In].
    destruct (String.eqb (property_type p) "url") eqn:E.
    + cbn [In]. rewrite IH. apply String.eqb_eq in E.
      destruct p as [t m]. cbn [property_type property_name] in *. subst t.
      split; (intros [K|K]; [left|now right]).
      * now injection K as -> ->.
      * now injection K as -> ->.
    + rewrite IH. split; [now right|].
      intros [K|K]; [|exact K]. injection K as _ K. subst p.
      cbn in E. discriminate E.
Qed.

Section PaginationFacts.

Variable page : Type.
Variable query : string -> cursor -> option (response page).
Variable databaseId : string.

Lemma getAllPages_loop_listing (c : cursor) (l : list page) :
  listing page query databaseId c l ->
  exists fuel, forall fuel' pages,
    fuel <= fuel' ->
    getAllPages_loop page query fuel' databaseId pages true c
    = Fetched (pages ++ l)%list.
Proof.
  induction 1 as [c r Q M | c r l Q M L [fuel IH]].
  - exists 1. intros [|fuel'] pages Hf; [lia|].
    cbn [getAllPages_loop]. rewrite Q, M. now destruct fuel'.
  - exists (S fuel). intros [|fuel'] pages Hf; [lia|].
    cbn [getAllPages_loop]. rewrite Q, M.
    rewrite IH by lia. now rewrite app_assoc.
Qed.

Lemma getAllPages_loop_Fetched (fuel : nat) (c : cursor)
      (pages l' : list page) :
  getAllPages_loop page query fuel databaseId pages true c = Fetched l' ->
  exists l, l' = (pages ++ l)%list /\ listing page query databaseId c l.
Proof.
  revert c pages. induction fuel as [|fuel IH]; intros c pages H;
    [discriminate H|].
  cbn [getAllPages_loop] in H.
  destruct (query databaseId c) as [r|] eqn:Q; [|discriminate H].
  destruct (has_more r) eqn:M.
  - destruct (IH _ _ H) as (l & E & L).
    exists (results r ++ l)%list. split; [now rewrite app_assoc|].
    now apply listing_more.
  - destruct fuel; cbn in H; injection H as <-;
      (exists (results r); split; [reflexivity|now apply listing_last]).
Qed.

(** X18: [getAllPages] returns the pages that the service lists, the results
    of its responses one after the other, each query carrying the
    [next_cursor] of the response before, up to the first response whose
    [has_more] is false; and it returns only if the service lists them so. *)
Theorem X18_getAllPages (l : list page) :
  listing page query databaseId undefined l <->
  exists fuel, forall fuel',
    fuel <= fuel' -> getAllPages page query fuel' databaseId = Fetched l.
Proof.
  unfold getAllPages. split.
  - intros L. destruct (getAllPages_loop_listing _ _ L) as [fuel H].
    exists fuel. intros fuel' Hf. exact (H fuel' [] Hf).
  - intros [fuel H]. specialize (H fuel (Nat.le_refl _)).
    destruct (getAllPages_loop_Fetched _ _ _ _ H) as (l0 & E & L).
    cbn in E. now subst.
Qed.

End PaginationFacts.

(** Two responses: the second query carries the cursor of the first. *)
Example getAllPages_two_responses :
  getAllPages nat
    (fun _ c =>
       match c with
       | undefined =>
           Some {| results := [1; 2]; has_more := true;
                   next_cursor := cursor_at "c1" |}
       | cursor_at "c1" =>
           Some {| results := [3]; has_more := false; next_cursor := null |}
       | _ => None
       end) 2 "db"
  = Fetched [1; 2; 3].
Proof. reflexivity. Qed.

(* ================================================================== *)
(** * [detectDuplicates] *)

Lemma assoc_None {V : Type} (k : string) (m : list (string * V)) :
  URL.assoc k m = None <-> ~ In k (List.map fst m).
Proof.
  induction m as [|[k' v] m IH]; cbn [URL.assoc List.map fst In]; [tauto|].
  destruct (String.eqb_spec k k') as [->|D].
  - split; [discriminate|]. intros H. contradiction H. now left.
  - rewrite IH. split; [|tauto]. intros H [E|E]; [congruence|tauto].
Qed.

Lemma assoc_Some {V : Type} (k : string) (m : list (string * V)) (v : V) :
  URL.assoc k m = Some v -> In k (List.map fst m).
Proof.
  intros H. destruct (in_dec string_dec k (List.map fst m)) as [I|N];
    [exact I|].
  apply assoc_None in N. congruence.
Qed.

(** A key that the map has is a duplicate. *)
Lemma counted_seen {V : Type} (m : list (string * V)) (d : nat)
      (keys : list string) (k : string) :
  counted m d keys -> In k (List.map fst m) ->
  counted m (S d) (keys ++ [k]).
Proof.
  intros (N & I & L) H. split; [exact N|]. split.
  - intros k'. rewrite in_app_iff, <- I. cbn [In]. split; [tauto|].
    intros [K|[<-|[]]]; assumption.
  - rewrite List.length_app. cbn [List.length]. lia.
Qed.

(** A key that the map does not have is set. *)
Lemma counted_set {V : Type} (m : list (string * V)) (d : nat)
      (keys : list string) (k : string) (v : V) :
  counted m d keys -> ~ In k (List.map fst m) ->
  counted (m ++ [(k, v)]) d (keys ++ [k]).
Proof.
  intros (N & I & L) H. unfold counted. rewrite List.map_app.
  cbn [List.map fst]. split.
  - apply NoDup_app; [exact N|repeat constructor; intros []|].
    intros x Hx [<-|[]]. now apply H.
  - split.
    + intros k'. rewrite !in_app_iff, I. tauto.
    + rewrite !List.length_app. cbn [List.length]. lia.
Qed.

Lemma counted_report {V : Type} (m : list (string * V)) (d : nat)
      (keys : list string) :
  counted m d keys ->
  d + List.length (nodup string_dec keys) = List.length keys
  /\ (d = 0 <-> NoDup keys).
Proof.
  intros (N & I & L).
  assert (E : List.length (List.map fst m)
              = List.length (nodup string_dec keys)).
  { apply Nat.le_antisymm; apply NoDup_incl_length;
      try exact N; try apply NoDup_nodup;
      intros x Hx; [apply nodup_In|apply nodup_In in Hx]; now apply I. }
  rewrite List.length_map in E. split; [lia|]. split.
  - intros ->.
    eapply NoDup_incl_NoDup; [exact N| |].
    + rewrite List.length_map. lia.
    + intros x Hx. now apply I.
  - intros K.
    assert (List.length keys <= List.length (List.map fst m)).
    { apply NoDup_incl_length; [exact K|]. intros x Hx. now apply I. }
    rewrite List.length_map in *. lia.
Qed.

Lemma title_keys_app (t : string) (a b : list notion_page) :
  title_keys t (a ++ b) = (title_keys t a ++ title_keys t b)%list.
Proof. apply flat_map_app. Qed.

Lemma url_keys_app (u : option string) (a b : list notion_page) :
  url_keys u (a ++ b) = (url_keys u a ++ url_keys u b)%list.
Proof. apply flat_map_app. Qed.

Lemma scan_title_counted (t : string) (u : option string) (s s' : scan)
      (done : list notion_page) (page : notion_page) :
  scan_title t s page = Scanned s' ->
  counted (titleMap s) (List.length (dup_titles s)) (title_keys t done) ->
  counted (titleMap s') (List.length (dup_titles s'))
          (title_keys t (done ++ [page]))
  /\ urlMap s' = urlMap s /\ dup_urls s' = dup_urls s.
Proof.
  intros H C. rewrite title_keys_app. unfold title_keys at 2.
  cbn [flat_map]. rewrite app_nil_r. unfold scan_title in H.
  destruct (titleContent t page) as [[|c k]|]; [| |discriminate H].
  - cbn in H. injection H as <-. now rewrite app_nil_r.
  - cbn [truthy String.eqb negb] in H.
    destruct (URL.assoc (String c k) (titleMap s)) as [first|] eqn:A;
      injection H as <-; cbn [titleMap dup_titles urlMap dup_urls];
      (split; [|split; reflexivity]).
    + rewrite List.length_app. cbn [List.length]. rewrite Nat.add_1_r.
      apply counted_seen; [exact C|]. exact (assoc_Some _ _ _ A).
    + apply counted_set; [exact C|]. now apply assoc_None.
Qed.

Lemma scan_url_counted (t : string) (u : option string) (s s' : scan)
      (done : list notion_page) (page : notion_page) :
  scan_url u s page = Scanned s' ->
  counted (urlMap s) (List.length (dup_urls s)) (url_keys u done) ->
  counted (urlMap s') (List.length (dup_urls s'))
          (url_keys u (done ++ [page]))
  /\ titleMap s' = titleMap s /\ dup_titles s' = dup_titles s.
Proof.
  intros H C. rewrite url_keys_app. unfold url_keys at 2.
  cbn [flat_map]. rewrite app_nil_r. unfold scan_url in H.
  unfold page_link.
  destruct u as [[|c i]|];
    try (injection H as <-; now rewrite app_nil_r).
  destruct (URL.assoc (String c i) (page_properties page)) as [value|];
    [|discriminate H].
  destruct (value_url value) as [[|c' l]|];
    try (injection H as <-; now rewrite app_nil_r).
  cbv zeta in H.
  destruct (normalizeUrl (String c' l)) as [k|]; [|discriminate H].
  destruct (URL.assoc k (urlMap s)) as [first|] eqn:A;
    injection H as <-; cbn [titleMap dup_titles urlMap dup_urls];
    (split; [|split; reflexivity]).
  - rewrite List.length_app. cbn [List.length]. rewrite Nat.add_1_r.
    apply counted_seen; [exact C|]. exact (assoc_Some _ _ _ A).
  - apply counted_set; [exact C|]. now apply assoc_None.
Qed.

Lemma scan_page_counted (t : string) (u : option string) (s s' : scan)
      (done : list notion_page) (page : notion_page) :
  scan_page t u (Scanned s) page = Scanned s' ->
  scan_counted t u s done -> scan_counted t u s' (done ++ [page]).
Proof.
  intros H [Ct Cu]. cbn [scan_page] in H.
  destruct (scan_title t s page) as [s1| |] eqn:T; try discriminate H.
  destruct (scan_title_counted t u _ _ done _ T Ct) as (Ct1 & Eu & Ed).
  rewrite <- Eu, <- Ed in Cu.
  destruct (scan_url_counted t u _ _ done _ H Cu) as (Cu' & Et & Edt).
  split; [|exact Cu']. now rewrite Et, Edt.
Qed.

Lemma scan_page_stop (t : string) (u : option string)
      (pages : list notion_page) (s0 : scanned) (s' : scan) :
  fold_left (scan_page t u) pages s0 = Scanned s' ->
  exists s, s0 = Scanned s.
Proof.
  revert s0. induction pages as [|p pages IH]; intros s0 H.
  - now exists s'.
  - cbn [fold_left] in H. destruct (IH _ H) as [s1 E].
    destruct s0 as [s| |]; [now exists s|discriminate E|discriminate E].
Qed.

Lemma fold_scan_counted (t : string) (u : option string)
      (pages done : list notion_page) (s s' : scan) :
  fold_left (scan_page t u) pages (Scanned s) = Scanned s' ->
  scan_counted t u s done -> scan_counted t u s' (done ++ pages).
Proof.
  revert done s. induction pages as [|p pages IH]; intros done s H C.
  - cbn in H. injection H as <-. now rewrite app_nil_r.
  - cbn [fold_left] in H.
    destruct (scan_page_stop _ _ _ _ _ H) as [s1 E]. rewrite E in H.
    change (p :: pages) with ([p] ++ pages)%list. rewrite app_assoc.
    apply (IH _ _ H). exact (scan_page_counted _ _ _ _ _ _ E C).
Qed.

(** X19: in a scan that ends, the number of title duplicates reported is the
    number of pages with a title less the number of different titles, titles
    being compared in lower case and trimmed; the same holds of the URLs,
    compared as [normalizeUrl] leaves them.  No duplicate is reported
    exactly when the titles, or the URLs, are all different. *)
Theorem X19_duplicate_reports (titlePropertyId : string)
        (urlPropertyId : option string) (pages : list notion_page)
        (s : scan) :
  scan_pages titlePropertyId urlPropertyId pages = Scanned s ->
  let titles := title_keys titlePropertyId pages in
  let urls := url_keys urlPropertyId pages in
  List.length (dup_titles s) + List.length (nodup string_dec titles)
  = List.length titles
  /\ List.length (dup_urls s) + List.length (nodup string_dec urls)
     = List.length urls
  /\ (dup_titles s = [] <-> NoDup titles)
  /\ (dup_urls s = [] <-> NoDup urls).
Proof.
  intros H titles urls. subst titles urls. unfold scan_pages in H.
  assert (C0 : scan_counted titlePropertyId urlPropertyId
                 {| titleMap := []; urlMap := [];
                    dup_titles := []; dup_urls := [] |} []).
  { split; (split; [constructor|split; [reflexivity|reflexivity]]). }
  destruct (fold_scan_counted _ _ _ _ _ _ H C0) as [Ct Cu].
  cbn [app] in Ct, Cu.
  destruct (counted_report _ _ _ Ct) as [Lt It].
  destruct (counted_report _ _ _ Cu) as [Lu Iu].
  split; [exact Lt|]. split; [exact Lu|].
  rewrite <- It, <- Iu. split; symmetry; apply List.length_zero_iff_nil.
Qed.

Lemma X19_duplicate_reports_witness :
  let pages :=
    [ {| page_id := "1"; page_url := "https://www.notion.so/1";
         page_properties :=
           [("Name", {| value_title := Some ["Rocq"]; value_url := None |});
            ("URL", {| value_title := None;
                       value_url := Some "http://www.example.com/a/" |})] |};
      {| page_id := "2"; page_url := "https://www.notion.so/2";
         page_properties :=
           [("Name", {| value_title := Some [" ro"; "cq "];
                        value_url := None |});
            ("URL", {| value_title := None;
                       value_url := Some "https://example.com/a" |})] |};
      {| page_id := "3"; page_url := "https://www.notion.so/3";
         page_properties :=
           [("Name", {| value_title := Some []; value_url := None |});
            ("URL", {| value_title := None; value_url := None |})] |} ] in
  exists s,
    scan_pages "Name" (Some "URL") pages = Scanned s
    /\ List.length (dup_titles s) = 1
    /\ List.length (dup_urls s) = 1
    /\ (dup_titles s = [] <-> NoDup (title_keys "Name" pages)).
Proof.
  intros pages. eexists. split; [vm_compute; reflexivity|].
  split; [reflexivity|]. split; [reflexivity|].
  apply (X19_duplicate_reports "Name" (Some "URL") pages).
  vm_compute. reflexivity.
Defined.

(* ================================================================== *)
(** * [processNotionUrls] *)

Lemma batches_concat (fuel batchSize : nat) (pages : list notion_page)
      (bs : list (list notion_page)) :
  batches fuel batchSize pages = Some bs -> List.concat bs = pages.
Proof.
  revert pages bs. induction fuel as [|fuel IH]; intros pages bs H.
  - destruct pages; [|discriminate H]. now injection H as <-.
  - destruct pages as [|p pages]; [now injection H as <-|].
    cbn [batches] in H.
    destruct (batches fuel batchSize (skipn batchSize (p :: pages)))
      as [rest|] eqn:R; [|discriminate H].
    injection H as <-. cbn [List.concat]. rewrite (IH _ _ R).
    apply firstn_skipn.
Qed.

Lemma batches_enough (batchSize : nat) (pages : list notion_page)
      (fuel : nat) :
  1 <= batchSize -> List.length pages <= fuel ->
  exists bs, batches fuel batchSize pages = Some bs
             /\ Forall (fun b => 1 <= List.length b <= batchSize) bs.
Proof.
  intros Hb. revert pages. induction fuel as [|fuel IH]; intros pages Hl.
  - destruct pages; [|cbn in Hl; lia]. exists []. now split.
  - destruct pages as [|p pages]; [exists []; now split|].
    cbn [batches].
    destruct (IH (skipn batchSize (p :: pages))) as (rest & R & F).
    { rewrite List.length_skipn. cbn [List.length] in *. lia. }
    rewrite R. eexists. split; [reflexivity|]. constructor; [|exact F].
    rewrite List.length_firstn. cbn [List.length]. lia.
Qed.

Lemma batches_zero (fuel : nat) (pages : list notion_page) :
  pages <> [] -> batches fuel 0 pages = None.
Proof.
  induction fuel as [|fuel IH]; intros H;
    (destruct pages as [|p pages]; [congruence|]); [reflexivity|].
  cbn [batches skipn]. now rewrite IH.
Qed.

Lemma batches_more_fuel (batchSize : nat) (fuel fuel' : nat)
      (pages : list notion_page) (bs : list (list notion_page)) :
  batches fuel batchSize pages = Some bs -> fuel <= fuel' ->
  batches fuel' batchSize pages = Some bs.
Proof.
  revert fuel' pages bs. induction fuel as [|fuel IH]; intros fuel' pages bs H L.
  - destruct pages; [|discriminate H]. now destruct fuel'.
  - destruct pages as [|p pages]; [now destruct fuel'|].
    destruct fuel' as [|fuel']; [lia|]. cbn [batches] in *.
    destruct (batches fuel batchSize (skipn batchSize (p :: pages)))
      as [rest|] eqn:R; [|discriminate H].
    rewrite (IH fuel' _ _ R) by lia. exact H.
Qed.

(** X20: with a batch size of at least one the loop over the pages ends, on
    batches that are the pages in their order, each of at least one page and
    of at most the batch size; with a batch size of zero and a page to
    process the loop does not end. *)
Theorem X20_batches (batchSize : nat) (pages : list notion_page) :
  (1 <= batchSize ->
   exists bs,
     (forall fuel, List.length pages <= fuel ->
                   batches fuel batchSize pages = Some bs)
     /\ List.concat bs = pages
     /\ Forall (fun b => 1 <= List.length b <= batchSize) bs)
  /\ (batchSize = 0 -> pages <> [] ->
      forall fuel, batches fuel batchSize pages = None).
Proof.
  split.
  - intros Hb.
    destruct (batches_enough batchSize pages (List.length pages) Hb
                             (Nat.le_refl _)) as (bs & B & F).
    exists bs. split; [|split; [exact (batches_concat _ _ _ _ B)|exact F]].
    intros fuel Hf. exact (batches_more_fuel _ _ _ _ _ B Hf).
  - intros -> Hp fuel. now apply batches_zero.
Qed.

Lemma X20_batches_witness :
  let page i := {| page_id := i; page_url := i; page_properties := [] |} in
  batches 3 2 [page "1"; page "2"; page "3"]
  = Some [[page "1"; page "2"]; [page "3"]]
  /\ batches 3 0 [page "1"] = None.
Proof.
  intros page. split.
  - destruct (proj1 (X20_batches 2 [page "1"; page "2"; page "3"]))
      as (bs & B & _); [lia|].
    rewrite (B 3) by (cbn; lia). symmetry. apply (B 3). cbn. lia.
  - apply (proj2 (X20_batches 0 [page "1"])); [reflexivity|discriminate].
Defined.

Lemma tally_app (t t' : list action) (s : stats) :
  tally (t ++ t') s = tally t' (tally t s).
Proof. apply fold_left_app. Qed.

Lemma apply_action_comm (s : stats) (a b : action) :
  apply_action (apply_action s a) b = apply_action (apply_action s b) a.
Proof. now destruct a, b. Qed.

Lemma tally_Permutation (t t' : list action) :
  Permutation t t' -> forall s, tally t s = tally t' s.
Proof.
  induction 1 as [|a t t' P IH|a b t|t t' t'' P IH P' IH']; intros s.
  - reflexivity.
  - apply IH.
  - cbn. now rewrite apply_action_comm.
  - now rewrite IH.
Qed.

Lemma concat_all_nil {A : Type} (l : list (list A)) :
  Forall (fun c => c = []) l -> List.concat l = [].
Proof.
  induction 1 as [|c l E F IH]; [reflexivity|]. subst c. exact IH.
Qed.

Lemma interleaved_Permutation (closures : list (list (list action)))
      (trace : list action) :
  interleaved closures trace ->
  Permutation trace (List.concat (List.map (@List.concat action) closures)).
Proof.
  induction 1 as [closures F|before segment c after trace I IH].
  - rewrite concat_all_nil; [constructor|].
    induction F as [|c l E F IH]; [constructor|]. subst c.
    constructor; [reflexivity|exact IH].
  - rewrite List.map_app, concat_app in *. cbn [List.map List.concat] in *.
    rewrite <- app_assoc.
    apply Permutation_trans
      with (segment ++ List.concat (List.map (@List.concat action) before)
                    ++ List.concat c ++ List.concat (List.map (@List.concat action) after))%list.
    + now apply Permutation_app_head.
    + rewrite !app_assoc. apply Permutation_app_tail.
      apply Permutation_app_tail. apply Permutation_app_comm.
Qed.

Lemma sequence_app {A : Type} (l l' : list (option A)) (r r' : list A) :
  sequence l = Some r -> sequence l' = Some r' ->
  sequence (l ++ l') = Some (r ++ r')%list.
Proof.
  revert r. induction l as [|x l IH]; intros r H H'.
  - now injection H as <-.
  - cbn [sequence app] in *. destruct x as [a|]; [|discriminate H].
    destruct (sequence l) as [r0|]; [|discriminate H].
    injection H as <-. now rewrite (IH r0 eq_refl H').
Qed.

Lemma links_app (urlProperties : list urlProp) (b b' : list notion_page) :
  links urlProperties (b ++ b')
  = (links urlProperties b ++ links urlProperties b')%list.
Proof. apply flat_map_app. Qed.

Lemma updates_app (t t' : list action) :
  updates (t ++ t') = (updates t ++ updates t')%list.
Proof. apply flat_map_app. Qed.

Lemma count_app {A : Type} (f : A -> bool) (l l' : list A) :
  count_if f (l ++ l') = count_if f l + count_if f l'.
Proof. unfold count_if. now rewrite filter_app, List.length_app. Qed.

Lemma count_cons {A : Type} (f : A -> bool) (x : A) (l : list A) :
  count_if f (x :: l) = Nat.b2n (f x) + count_if f l.
Proof. unfold count_if. cbn [filter]. now destruct (f x). Qed.

Lemma count_le {A : Type} (f g : A -> bool) (l : list A) :
  (forall x, f x = true -> g x = true) -> count_if f l <= count_if g l.
Proof.
  intros H. induction l as [|x l IH]; [reflexivity|].
  rewrite !count_cons. specialize (H x).
  destruct (f x); [rewrite H by reflexivity|]; cbn; lia.
Qed.

(** A second cleaning changes nothing when it does not upgrade the scheme
    and the host has lost its only [www.]. *)
Lemma cleaned_url_fixed (fetch : string -> option bool) (o : Flags)
      (u : URL.t) :
  wf u = true ->
  (removeWww o = true -> Str.startsWith (URL.host u) "www.www." = false) ->
  upgrades fetch o (cleaned_url fetch o u) = false ->
  cleaned_url fetch o (cleaned_url fetch o u) = cleaned_url fetch o u.
Proof.
  intros W Hw Up. set (u' := cleaned_url fetch o u) in *.
  assert (Sw : (if strips_www o u' then stripped u' else u') = u').
  { destruct (strips_www o u') eqn:E; [|reflexivity].
    unfold strips_www in E. apply andb_true_iff in E as [Er E].
    unfold stripped.
    destruct (String.eqb (Str.drop 4 (URL.host u')) "") eqn:Ed; [reflexivity|].
    exfalso. subst u'. rewrite cleaned_url_host in E, Ed.
    unfold strips_www in E, Ed. rewrite Er in E, Ed. cbn [andb] in E, Ed.
    destruct (Str.startsWith (URL.host u) "www.") eqn:E1.
    - pose proof (startsWith_drop _ _ E1) as D. simpl String.length in D.
      specialize (Hw Er).
      remember (Str.drop 4 (URL.host u)) as v eqn:Hv.
      rewrite D in Hw. simpl in Hw.
      destruct (String.eqb v "") eqn:E2; cbn [negb andb] in E, Ed.
      + congruence.
      + congruence.
    - cbn [andb] in E. congruence. }
  unfold cleaned_url at 1. cbv zeta. rewrite Up, Sw.
  subst u'. rewrite cleaned_url_path, cleaned_url_query, cleaned_url_fragment.
  pose proof (wf_inv _ W) as (_ & _ & _ & Hn & _).
  rewrite normalized_path_idem, cleaned_query_idem, cleaned_fragment_idem
    by exact Hn.
  symmetry. etransitivity; [apply url_eta|].
  now rewrite cleaned_url_path, cleaned_url_query, cleaned_url_fragment.
Qed.

Lemma cleanUrl_empty (fetch : string -> option bool)
      (options : option Options) (r : CleaningResult) :
  cleanUrl fetch "" options <> Returned r.
Proof. discriminate. Qed.

Lemma interleaved_finished (closures : list (list (list action)))
      (trace : list action) :
  interleaved closures trace -> interleaved ([] :: closures) trace.
Proof.
  induction 1 as [closures F|before segment c after trace I IH].
  - apply interleaved_done. now constructor.
  - exact (interleaved_step ([] :: before) segment c after trace IH).
Qed.

(** The closures one after the other is one of the interleavings. *)
Lemma interleaved_sequential (closures : list (list (list action))) :
  interleaved closures
              (List.concat (List.map (@List.concat action) closures)).
Proof.
  induction closures as [|c closures IH].
  - apply interleaved_done. constructor.
  - cbn [List.map List.concat].
    induction c as [|segment c IHc].
    + now apply interleaved_finished.
    + cbn [List.concat]. rewrite <- app_assoc.
      exact (interleaved_step [] segment c closures _ IHc).
Qed.

Lemma sequence_Some {A : Type} (l : list (option A)) :
  (forall x, In x l -> x <> None) -> exists r, sequence l = Some r.
Proof.
  induction l as [|x l IH]; intros H; [now exists []|].
  destruct x as [a|]; [|now contradiction (H None (or_introl eq_refl))].
  destruct IH as [r R]; [intros y Hy; apply H; now right|].
  exists (a :: r). cbn [sequence]. now rewrite R.
Qed.

Section TidyFacts.

Variable fetch : string -> option bool.
Variable update_ok : string -> string -> string -> bool.
Variable dryRun : bool.

Lemma closure_tally (link : notion_page * urlProp)
      (segments : list (list action)) (s : stats) :
  closure fetch update_ok dryRun link = Some segments ->
  tally (List.concat segments) s = bump fetch update_ok dryRun s link.
Proof.
  unfold closure, bump, has_url, is_changed, is_error.
  destruct link as [page prop]. cbn [fst snd].
  destruct s as [d p u c e].
  cbn [totalDatabases totalPages totalUrlsProcessed totalUrlsChanged errors].
  destruct (currentUrl page prop) as [[|ch url]|].
  - intros H. injection H as <-. cbn. now rewrite !Nat.add_0_r.
  - cbv zeta.
    destruct (cleanUrl fetch (String ch url) (Some CLEANING_OPTIONS))
      as [r|m|]; [| |discriminate].
    + destruct (negb (cleaned r =? String ch url)%string).
      * destruct dryRun; cbn [negb].
        -- intros H. injection H as <-. cbn. f_equal; lia.
        -- destruct (update_ok (page_id page) (prop_id prop) (cleaned r));
             intros H; injection H as <-; cbn; f_equal; lia.
      * intros H. injection H as <-. cbn. f_equal; lia.
    + intros H. injection H as <-. cbn. f_equal; lia.
  - intros H. injection H as <-. cbn. now rewrite !Nat.add_0_r.
Qed.

Lemma closure_updates (link : notion_page * urlProp)
      (segments : list (list action)) :
  closure fetch update_ok dryRun link = Some segments ->
  updates (List.concat segments) = update_of fetch dryRun link.
Proof.
  unfold closure, update_of.
  destruct link as [page prop]. cbn [fst snd].
  destruct (currentUrl page prop) as [[|ch url]|].
  - intros H. now injection H as <-.
  - cbv zeta.
    destruct (cleanUrl fetch (String ch url) (Some CLEANING_OPTIONS))
      as [r|m|]; [| |discriminate].
    + destruct (negb (cleaned r =? String ch url)%string).
      * destruct dryRun; cbn [negb andb].
        -- intros H. now injection H as <-.
        -- destruct (update_ok (page_id page) (prop_id prop) (cleaned r));
             intros H; now injection H as <-.
      * intros H. now injection H as <-.
    + intros H. now injection H as <-.
  - intros H. now injection H as <-.
Qed.

Lemma closures_tally (ls : list (notion_page * urlProp))
      (closures : list (list (list action))) (s : stats) :
  sequence (List.map (closure fetch update_ok dryRun) ls) = Some closures ->
  tally (List.concat (List.map (@List.concat action) closures)) s
  = fold_left (bump fetch update_ok dryRun) ls s.
Proof.
  revert closures s. induction ls as [|l ls IH]; intros closures s H.
  - now injection H as <-.
  - cbn [List.map sequence] in H.
    destruct (closure fetch update_ok dryRun l) as [c|] eqn:C;
      [|discriminate H].
    destruct (sequence _) as [cs|] eqn:Q; [|discriminate H].
    injection H as <-. cbn [List.map List.concat fold_left].
    rewrite tally_app, (closure_tally _ _ _ C). now apply IH.
Qed.

Lemma closures_updates (ls : list (notion_page * urlProp))
      (closures : list (list (list action))) :
  sequence (List.map (closure fetch update_ok dryRun) ls) = Some closures ->
  updates (List.concat (List.map (@List.concat action) closures))
  = flat_map (update_of fetch dryRun) ls.
Proof.
  revert closures. induction ls as [|l ls IH]; intros closures H.
  - now injection H as <-.
  - cbn [List.map sequence] in H.
    destruct (closure fetch update_ok dryRun l) as [c|] eqn:C;
      [|discriminate H].
    destruct (sequence _) as [cs|] eqn:Q; [|discriminate H].
    injection H as <-. cbn [List.map List.concat flat_map].
    rewrite updates_app, (closure_updates _ _ C). f_equal. now apply IH.
Qed.

Lemma fold_bump (ls : list (notion_page * urlProp)) (s : stats) :
  fold_left (bump fetch update_ok dryRun) ls s
  = {| totalDatabases := totalDatabases s;
       totalPages := totalPages s;
       totalUrlsProcessed := totalUrlsProcessed s + count_if has_url ls;
       totalUrlsChanged := totalUrlsChanged s + count_if (is_changed fetch) ls;
       errors := errors s + count_if (is_error fetch update_ok dryRun) ls |}.
Proof.
  revert s. induction ls as [|l ls IH]; intros s.
  - destruct s. cbn. f_equal; lia.
  - cbn [fold_left]. rewrite IH, !count_cons. unfold bump.
    cbn [totalDatabases totalPages totalUrlsProcessed totalUrlsChanged
         errors].
    f_equal; lia.
Qed.

(** Whatever the batches and the interleaving, a run of the loop is a
    permutation of the actions of the closures taken one after the other. *)
Lemma page_loop_Permutation (urlProperties : list urlProp)
      (bs : list (list notion_page)) (trace : list action) :
  page_loop fetch update_ok dryRun urlProperties bs trace ->
  exists closures,
    sequence (List.map (closure fetch update_ok dryRun)
                       (links urlProperties (List.concat bs)))
    = Some closures
    /\ Permutation trace
         (List.concat (List.map (@List.concat action) closures)).
Proof.
  induction 1 as [|batch rest closures trace trace' Q I L (cs & Q' & P)].
  - exists []. split; [reflexivity|constructor].
  - exists (closures ++ cs)%list. split.
    + cbn [List.concat]. rewrite links_app, List.map_app.
      now apply sequence_app.
    + rewrite List.map_app, List.concat_app.
      apply Permutation_app; [|exact P]. now apply interleaved_Permutation.
Qed.

Lemma process_pages_Permutation (fuel batchSize : nat)
      (urlProperties : list urlProp) (pages : list notion_page)
      (trace : list action) :
  process_pages fetch update_ok dryRun fuel batchSize urlProperties pages
                trace ->
  exists closures,
    sequence (List.map (closure fetch update_ok dryRun)
                       (links urlProperties pages))
    = Some closures
    /\ Permutation trace
         (List.concat (List.map (@List.concat action) closures)).
Proof.
  intros (bs & B & L). apply batches_concat in B. subst pages.
  now apply page_loop_Permutation.
Qed.

Lemma is_changed_has_url (link : notion_page * urlProp) :
  is_changed fetch link = true -> has_url link = true.
Proof.
  unfold is_changed, has_url.
  now destruct (currentUrl (fst link) (snd link)) as [[|c u]|].
Qed.

Lemma is_error_has_url (link : notion_page * urlProp) :
  is_error fetch update_ok dryRun link = true -> has_url link = true.
Proof.
  unfold is_error, has_url.
  now destruct (currentUrl (fst link) (snd link)) as [[|c u]|].
Qed.

Lemma page_loop_exists (urlProperties : list urlProp)
      (bs : list (list notion_page)) :
  (forall link, In link (links urlProperties (List.concat bs)) ->
                closure fetch update_ok dryRun link <> None) ->
  exists trace, page_loop fetch update_ok dryRun urlProperties bs trace.
Proof.
  induction bs as [|batch bs IH]; intros H.
  - exists []. constructor.
  - cbn [List.concat] in H. rewrite links_app in H.
    destruct IH as [trace' L];
      [intros link Hl; apply H, in_or_app; now right|].
    destruct (sequence_Some
                (List.map (closure fetch update_ok dryRun)
                          (links urlProperties batch))) as [closures Q].
    { intros x Hx. apply in_map_iff in Hx as (link & <- & Hl).
      apply H, in_or_app. now left. }
    eexists. eapply page_loop_batch; [exact Q| |exact L].
    apply interleaved_sequential.
Qed.

(** With a batch size of at least one and fuel for a turn of the loop on
    each page, the loop has a run, as long as the model of [cleanUrl] is not
    silent on a URL. *)
Lemma process_pages_exists (fuel batchSize : nat)
      (urlProperties : list urlProp) (pages : list notion_page) :
  1 <= batchSize -> List.length pages <= fuel ->
  (forall link, In link (links urlProperties pages) ->
                closure fetch update_ok dryRun link <> None) ->
  exists trace,
    process_pages fetch update_ok dryRun fuel batchSize urlProperties pages
                  trace.
Proof.
  intros Hb Hf H.
  destruct (batches_enough batchSize pages fuel Hb Hf) as (bs & B & _).
  pose proof (batches_concat _ _ _ _ B) as C.
  destruct (page_loop_exists urlProperties bs) as [trace L];
    [now rewrite C|].
  exists trace, bs. now split.
Qed.

(** X21: with a batch size of at least one, fuel for a turn of the loop on
    each page and no URL that the model of [cleanUrl] is silent on, the loop
    over the pages has a run.  On every run, however the closures of a batch
    are interleaved, the loop adds to [totalUrlsProcessed] the number of
    links with a URL, to [totalUrlsChanged] the number of those whose
    cleaned URL is another string, and to [errors] the number of those whose
    URL is not valid or whose update fails; it leaves the two other counters
    alone, and counts no more changes or errors than URLs. *)
Theorem X21_counters (fuel batchSize : nat) (urlProperties : list urlProp)
        (pages : list notion_page) (s : stats) :
  let ls := links urlProperties pages in
  (1 <= batchSize -> List.length pages <= fuel ->
   (forall link, In link ls -> closure fetch update_ok dryRun link <> None) ->
   exists trace,
     process_pages fetch update_ok dryRun fuel batchSize urlProperties pages
                   trace)
  /\ (forall trace,
        process_pages fetch update_ok dryRun fuel batchSize urlProperties
                      pages trace ->
        tally trace s
        = {| totalDatabases := totalDatabases s;
             totalPages := totalPages s;
             totalUrlsProcessed := totalUrlsProcessed s + count_if has_url ls;
             totalUrlsChanged :=
               totalUrlsChanged s + count_if (is_changed fetch) ls;
             errors :=
               errors s + count_if (is_error fetch update_ok dryRun) ls |})
  /\ count_if (is_changed fetch) ls <= count_if has_url ls
  /\ count_if (is_error fetch update_ok dryRun) ls <= count_if has_url ls.
Proof.
  intros ls. subst ls. split; [apply process_pages_exists|].
  split; [|split].
  - intros trace H.
    destruct (process_pages_Permutation _ _ _ _ _ H) as (cs & Q & P).
    rewrite (tally_Permutation _ _ P), (closures_tally _ _ _ Q).
    apply fold_bump.
  - apply count_le, is_changed_has_url.
  - apply count_le, is_error_has_url.
Qed.

Lemma length_update_of (ls : list (notion_page * urlProp)) :
  List.length (flat_map (update_of fetch dryRun) ls)
  = if dryRun then 0 else count_if (is_changed fetch) ls.
Proof.
  induction ls as [|l ls IH]; [now destruct dryRun|].
  cbn [flat_map]. rewrite List.length_app, IH, count_cons.
  unfold update_of, is_changed.
  destruct (currentUrl (fst l) (snd l)) as [[|c u]|];
    try (destruct dryRun; reflexivity).
  destruct (cleanUrl fetch (String c u) (Some CLEANING_OPTIONS))
    as [r|m|]; try (destruct dryRun; reflexivity).
  destruct (negb (cleaned r =? String c u)%string);
    destruct dryRun; reflexivity.
Qed.

(** X22: with a batch size of at least one, fuel for a turn of the loop on
    each page and no URL that the model of [cleanUrl] is silent on, the loop
    over the pages has a run.  On every run the updates that the loop asks
    for are, in some order, one for each link whose cleaned URL differs from
    the stored one, on that page and property with the cleaned URL; in a dry
    run the loop asks for no update at all. *)
Theorem X22_updates (fuel batchSize : nat) (urlProperties : list urlProp)
        (pages : list notion_page) :
  let ls := links urlProperties pages in
  (1 <= batchSize -> List.length pages <= fuel ->
   (forall link, In link ls -> closure fetch update_ok dryRun link <> None) ->
   exists trace,
     process_pages fetch update_ok dryRun fuel batchSize urlProperties pages
                   trace)
  /\ forall trace,
       process_pages fetch update_ok dryRun fuel batchSize urlProperties
                     pages trace ->
       Permutation (updates trace) (flat_map (update_of fetch dryRun) ls)
       /\ List.length (updates trace)
          = (if dryRun then 0 else count_if (is_changed fetch) ls)
       /\ (dryRun = true -> updates trace = []).
Proof.
  intros ls. subst ls. split; [apply process_pages_exists|].
  intros trace H.
  destruct (process_pages_Permutation _ _ _ _ _ H) as (cs & Q & P).
  assert (P' : Permutation (updates trace)
                 (flat_map (update_of fetch dryRun)
                           (links urlProperties pages))).
  { rewrite <- (closures_updates _ _ Q). unfold updates.
    now apply Permutation_flat_map. }
  pose proof (length_update_of (links urlProperties pages)) as L.
  split; [exact P'|]. split.
  - now rewrite (Permutation_length P').
  - intros D. apply List.length_zero_iff_nil.
    rewrite (Permutation_length P'), L. now rewrite D.
Qed.

(** X23: a link that holds the URL that an earlier cleaning returned is
    counted as processed and nothing else, with no update asked for, provided
    that the host of the earlier URL did not start with [www.www.] and that
    the probe fails on the cleaned URL when it is still under [http:]. *)
Theorem X23_second_run (page : notion_page) (prop : urlProp)
        (url : string) (u : URL.t) (r : CleaningResult) :
  URL.parse url = URL.ParseOk u ->
  cleanUrl fetch url (Some CLEANING_OPTIONS) = Returned r ->
  Str.startsWith (URL.hostname u) "www.www." = false ->
  (Str.startsWith (cleaned r) "http:" = true ->
   canUseHttps fetch (cleaned r) = false) ->
  currentUrl page prop = Some (cleaned r) ->
  closure fetch update_ok dryRun (page, prop) = Some [[count_processed]; []].
Proof.
  intros P R Hw Hc Hu. pose proof (parse_wf _ _ P) as W.
  rewrite (cleanUrl_parsed fetch url _ u P) in R. injection R as <-.
  cbn [cleaned] in *.
  set (o := destructure (Some CLEANING_OPTIONS)) in *.
  set (u' := cleaned_url fetch o u) in *.
  pose proof (cleaned_url_wf fetch o u W) as W'. fold u' in W'.
  pose proof (parse_href _ W') as P'.
  assert (Up : upgrades fetch o u' = false).
  { unfold upgrades.
    destruct (String.eqb (URL.scheme u') "http") eqn:E;
      [|now rewrite andb_false_r].
    apply String.eqb_eq in E. rewrite Hc; [now rewrite andb_false_r|].
    rewrite href_unfold, E. reflexivity. }
  assert (F : cleaned_url fetch o u' = u')
    by (apply cleaned_url_fixed; [exact W|intros _; exact Hw|exact Up]).
  unfold closure. rewrite Hu.
  assert (N : exists c t, URL.href u' = String c t).
  { rewrite href_unfold.
    destruct (wf_inv _ W') as ([E|E] & _); rewrite E; now eexists; eexists. }
  destruct N as (c & t & N). rewrite N. cbv zeta. rewrite <- N.
  rewrite (cleanUrl_parsed fetch _ (Some CLEANING_OPTIONS) u' P').
  cbn [cleaned]. fold o. rewrite F, String.eqb_refl. reflexivity.
Qed.

(** X24: a link is left alone exactly when its URL is the serialization that
    the constructor gives it and cleaning changes nothing; a URL that is not
    written as the constructor serializes it is counted as changed even when
    cleaning changes nothing. *)
Theorem X24_changed (page : notion_page) (prop : urlProp) (url : string)
        (r : CleaningResult) :
  currentUrl page prop = Some url ->
  cleanUrl fetch url (Some CLEANING_OPTIONS) = Returned r ->
  (is_changed fetch (page, prop) = false <->
   original r = url /\ cleaned r = original r).
Proof.
  intros Hu R. unfold is_changed. cbn [fst snd]. rewrite Hu.
  destruct url as [|c t]; [now apply cleanUrl_empty in R|].
  rewrite R. rewrite negb_false_iff, String.eqb_eq.
  split; [|intros [E1 E2]; congruence].
  intros E. destruct (cleanUrl_Returned _ _ _ _ R) as [u P].
  destruct (cleanUrl_reparsed fetch _ (Some CLEANING_OPTIONS) u P)
    as (r' & R' & O & _ & P').
  rewrite R in R'. injection R' as <-.
  rewrite E, P in P'. injection P' as F.
  rewrite (cleanUrl_parsed fetch _ (Some CLEANING_OPTIONS) u P) in R.
  injection R as <-. cbn [cleaned original] in *.
  rewrite <- F in E |- *. now split.
Qed.

End TidyFacts.

(** Two closures of one batch, interleaved: the first page is cleaned and
    its update fails, the URL of the second page is not valid. *)
Example process_pages_example :
  process_pages (fun _ => None) (fun _ _ _ => false) false 2 2
    [example_property]
    [example_page "1" "http://www.example.com/?utm_source=x";
     example_page "2" "not a url"]
    [count_processed; count_processed; count_error; count_changed;
     update_page "1" "URL" "http://example.com/"; count_error].
Proof.
  eexists. split; [reflexivity|].
  match goal with
  | |- page_loop _ _ _ _ _ ?t => change t with (t ++ [])%list
  end.
  eapply page_loop_batch; [vm_compute; reflexivity| |constructor].
  apply (interleaved_step
           [] [count_processed]
           [[count_changed; update_page "1" "URL" "http://example.com/"];
            [count_error]]
           [[[count_processed]; [count_error]]]
           [count_processed; count_error; count_changed;
            update_page "1" "URL" "http://example.com/"; count_error]).
  apply (interleaved_step
           [[[count_changed; update_page "1" "URL" "http://example.com/"];
             [count_error]]]
           [count_processed] [[count_error]] []
           [count_error; count_changed;
            update_page "1" "URL" "http://example.com/"; count_error]).
  apply (interleaved_step
           [[[count_changed; update_page "1" "URL" "http://example.com/"];
             [count_error]]]
           [count_error] [] []
           [count_changed; update_page "1" "URL" "http://example.com/";
            count_error]).
  apply (interleaved_step
           []
           [count_changed; update_page "1" "URL" "http://example.com/"]
           [[count_error]] [[]] [count_error]).
  apply (interleaved_step [] [count_error] [] [[]] []).
  apply interleaved_done. repeat constructor.
Qed.

Lemma X21_counters_witness :
  (exists trace,
     process_pages (fun _ => None) (fun _ _ _ => false) false 2 2
       [example_property]
       [example_page "1" "http://www.example.com/?utm_source=x";
        example_page "2" "not a url"]
       trace)
  /\ (forall trace,
        process_pages (fun _ => None) (fun _ _ _ => false) false 2 2
          [example_property]
          [example_page "1" "http://www.example.com/?utm_source=x";
           example_page "2" "not a url"]
          trace ->
        tally trace
              {| totalDatabases := 1; totalPages := 2;
                 totalUrlsProcessed := 0; totalUrlsChanged := 0;
                 errors := 0 |}
        = {| totalDatabases := 1; totalPages := 2; totalUrlsProcessed := 2;
             totalUrlsChanged := 1; errors := 2 |})
  /\ tally [count_processed; count_processed; count_error; count_changed;
            update_page "1" "URL" "http://example.com/"; count_error]
           {| totalDatabases := 1; totalPages := 2; totalUrlsProcessed := 0;
              totalUrlsChanged := 0; errors := 0 |}
     = {| totalDatabases := 1; totalPages := 2; totalUrlsProcessed := 2;
          totalUrlsChanged := 1; errors := 2 |}.
Proof.
  destruct (X21_counters
              (fun _ => None) (fun _ _ _ => false) false 2 2
              [example_property]
              [example_page "1" "http://www.example.com/?utm_source=x";
               example_page "2" "not a url"]
              {| totalDatabases := 1; totalPages := 2;
                 totalUrlsProcessed := 0; totalUrlsChanged := 0;
                 errors := 0 |}) as (Ex & All & _).
  split; [|split].
  - apply Ex; [lia|cbn; lia|].
    intros link [<-|[<-|[]]]; vm_compute; discriminate.
  - intros trace H. rewrite (All trace H). vm_compute. reflexivity.
  - rewrite (All _ process_pages_example). vm_compute. reflexivity.
Defined.

Lemma X22_updates_witness :
  (exists trace,
     process_pages (fun _ => None) (fun _ _ _ => false) false 2 2
       [example_property]
       [example_page "1" "http://www.example.com/?utm_source=x";
        example_page "2" "not a url"]
       trace)
  /\ forall trace,
       process_pages (fun _ => None) (fun _ _ _ => false) false 2 2
         [example_property]
         [example_page "1" "http://www.example.com/?utm_source=x";
          example_page "2" "not a url"]
         trace ->
       Permutation (updates trace) [("1", "URL", "http://example.com/")].
Proof.
  destruct (X22_updates
              (fun _ => None) (fun _ _ _ => false) false 2 2
              [example_property]
              [example_page "1" "http://www.example.com/?utm_source=x";
               example_page "2" "not a url"]) as (Ex & All).
  split.
  - apply Ex; [lia|cbn; lia|].
    intros link [<-|[<-|[]]]; vm_compute; discriminate.
  - intros trace H. destruct (All trace H) as (P & _). exact P.
Defined.

Lemma X23_second_run_witness :
  closure (fun _ => None) (fun _ _ _ => false) false
          (example_page "1" "http://example.com/a", example_property)
  = Some [[count_processed]; []].
Proof.
  apply (X23_second_run
           (fun _ => None) (fun _ _ _ => false) false
           (example_page "1" "http://example.com/a") example_property
           "http://www.example.com/a/?utm_source=x#f"
           (URL.mk "http" "www.example.com" None ["a"; ""]
                   (Some "utm_source=x") (Some "f"))
           {| original := "http://www.example.com/a/?utm_source=x#f";
              cleaned := "http://example.com/a";
              changes := ["Removed www prefix"; "Removed tracking parameters";
                          "Removed URL fragment"; "Normalized path"] |}).
  - vm_compute. reflexivity.
  - vm_compute. reflexivity.
  - reflexivity.
  - intros _. reflexivity.
  - reflexivity.
Defined.

Lemma X24_changed_witness :
  is_changed (fun _ => None)
             (example_page "1" "https://example.com", example_property)
  = true.
Proof.
  destruct (is_changed (fun _ => None)
              (example_page "1" "https://example.com", example_property))
    eqn:E; [reflexivity|].
  apply (X24_changed
           (fun _ => None)
           (example_page "1" "https://example.com") example_property
           "https://example.com"
           {| original := "https://example.com/";
              cleaned := "https://example.com/";
              changes := [] |}) in E.
  - destruct E as [E _]. discriminate E.
  - reflexivity.
  - vm_compute. reflexivity.
Defined.

(* ================================================================== *)
(** * The URL of a bookmark *)

Lemma trimStart_white (s : string) :
  Text.trimStart s = "" <-> Str.forallb Text.is_white_space s = true.
Proof.
  induction s as [|c s IH]; [now split|].
  cbn [Text.trimStart Str.forallb].
  destruct (Text.is_white_space c); [exact IH|]. now split.
Qed.

Lemma trimStart_head (s : string) (c : ascii) (t : string) :
  Text.trimStart s = String c t -> Text.is_white_space c = false.
Proof.
  induction s as [|a s IH]; [discriminate|]. cbn [Text.trimStart].
  destruct (Text.is_white_space a) eqn:W; [exact IH|].
  intros E. injection E as <- _. exact W.
Qed.

Lemma trimEnd_head (c : ascii) (s : string) :
  Text.is_white_space c = false ->
  exists t, Text.trimEnd (String c s) = String c t.
Proof.
  intros W. cbn [Text.trimEnd]. rewrite W.
  destruct (Text.trimEnd s); now eexists.
Qed.

Lemma trim_head (s : string) :
  Text.trim s = ""
  \/ exists c t, Text.trim s = String c t /\ Text.is_white_space c = false.
Proof.
  unfold Text.trim. destruct (Text.trimStart s) as [|c t] eqn:E;
    [now left|right].
  pose proof (trimStart_head _ _ _ E) as W.
  destruct (trimEnd_head c t W) as [t' T]. now exists c, t'.
Qed.

Lemma trim_white (s : string) :
  Text.trim s = "" <-> Str.forallb Text.is_white_space s = true.
Proof.
  rewrite <- trimStart_white. unfold Text.trim.
  destruct (Text.trimStart s) as [|c t] eqn:E; [now split|].
  pose proof (trimStart_head _ _ _ E) as W.
  destruct (trimEnd_head c t W) as [t' T]. rewrite T. now split.
Qed.

Lemma trimEnd_app (x r : string) :
  Text.trimEnd r <> "" -> Text.trimEnd (x ++ r) = x ++ Text.trimEnd r.
Proof.
  intros H. induction x as [|c x IH]; [reflexivity|].
  change (String c x ++ r) with (String c (x ++ r)).
  cbn [Text.trimEnd]. rewrite IH.
  destruct (x ++ Text.trimEnd r) eqn:E; [|now rewrite <- E].
  destruct x; [cbn in E; congruence|discriminate E].
Qed.

Lemma startsWith_LF (c : ascii) (s : string) :
  Str.startsWith (String c s) Text.LF = Ascii.eqb "010" c.
Proof.
  unfold Text.LF. cbn [Str.startsWith]. now rewrite startsWith_nil, andb_true_r.
Qed.

Lemma split_line_app (l t : string) :
  one_line l = true ->
  Text.split Text.LF (l ++ Text.LF ++ t) = l :: Text.split Text.LF t.
Proof.
  unfold Text.split, one_line. induction l as [|c l IH]; intros H.
  - change ("" ++ Text.LF ++ t) with (String "010" t).
    cbn [Text.split_from]. now rewrite startsWith_LF.
  - cbn [Str.forallb] in H. apply andb_true_iff in H as [Hc H].
    change (String c l ++ Text.LF ++ t) with (String c (l ++ Text.LF ++ t)).
    cbn [Text.split_from]. rewrite startsWith_LF, (Ascii.eqb_sym "010" c).
    apply negb_true_iff in Hc. rewrite Hc. now rewrite (IH H).
Qed.

(** The first piece of a split starts the string, and the separator follows
    it when the string goes on. *)
Lemma hd_split_line (s : string) :
  s = hd "" (Text.split Text.LF s)
  \/ exists rest, s = hd "" (Text.split Text.LF s) ++ Text.LF ++ rest.
Proof.
  unfold Text.split. induction s as [|c s IH]; [now left|].
  cbn [Text.split_from]. rewrite startsWith_LF.
  destruct (Ascii.eqb "010" c) eqn:Q.
  - apply Ascii.eqb_eq in Q. subst c. right. exists s. reflexivity.
  - cbn [hd]. destruct IH as [E|[rest E]].
    + left. now rewrite <- E.
    + right. exists rest.
      change (String c ?x ++ ?y) with (String c (x ++ y)). now rewrite <- E.
Qed.

(** X25: the URL of a bookmark is the first line of the trimmed body: it is
    on one line, and the trimmed body is this line, or this line followed by
    a line feed and more text.  It does not start with white space, and it
    is empty exactly when the body is white space only. *)
Theorem X25_bookmark_url (markdownContent : string) :
  one_line (bookmark_url markdownContent) = true
  /\ (Text.trim markdownContent = bookmark_url markdownContent
      \/ exists rest,
           Text.trim markdownContent
           = bookmark_url markdownContent ++ Text.LF ++ rest)
  /\ Text.trimStart (bookmark_url markdownContent)
     = bookmark_url markdownContent
  /\ (bookmark_url markdownContent = "" <->
      Str.forallb Text.is_white_space markdownContent = true).
Proof.
  unfold bookmark_url.
  pose proof (split_lines (Text.trim markdownContent)) as L.
  pose proof (hd_split_line (Text.trim markdownContent)) as P.
  assert (N : hd "" (Text.split Text.LF (Text.trim markdownContent)) = ""
              /\ Text.trim markdownContent = ""
              \/ exists c t,
                   hd "" (Text.split Text.LF (Text.trim markdownContent))
                   = String c t
                   /\ Text.is_white_space c = false
                   /\ Text.trim markdownContent <> "").
  { destruct (trim_head markdownContent) as [E|(c & t & E & W)].
    - left. now rewrite E.
    - right. rewrite E. unfold Text.split. cbn [Text.split_from].
      rewrite startsWith_LF.
      destruct (Ascii.eqb "010" c) eqn:Q.
      + apply Ascii.eqb_eq in Q. subst c. discriminate W.
      + cbn [hd]. eexists; eexists. split; [reflexivity|].
        split; [exact W|discriminate]. }
  split; [|split; [exact P|split]].
  - destruct (Text.split Text.LF (Text.trim markdownContent)) as [|l ls];
      [reflexivity|].
    cbn [forallb] in L. now apply andb_true_iff in L as [L _].
  - destruct N as [[E _]|(c & t & E & W & _)]; rewrite E; [reflexivity|].
    cbn [Text.trimStart]. now rewrite W.
  - rewrite <- trim_white.
    destruct N as [[E T]|(c & t & E & W & T)]; rewrite E; [now split|].
    split; [discriminate|]. intros K. now contradiction T.
Qed.

Lemma X25_bookmark_url_witness :
  let body := String "010" ("  https://example.com/a" ++ String "010" "") in
  one_line (bookmark_url body) = true
  /\ (Text.trim body = bookmark_url body
      \/ exists rest, Text.trim body = bookmark_url body ++ Text.LF ++ rest)
  /\ bookmark_url body = "https://example.com/a".
Proof.
  intros body. destruct (X25_bookmark_url body) as (A & B & _).
  split; [exact A|]. split; [exact B|reflexivity].
Defined.

(** X26: the URL of a bookmark is the first line of the body that is not
    blank, as it stands, white space at its end included, when more text
    follows on later lines. *)
Theorem X26_bookmark_url_first_line (before line rest : string) :
  Str.forallb Text.is_white_space before = true ->
  one_line line = true ->
  Text.trimStart line = line -> line <> "" ->
  Text.trimEnd rest <> "" ->
  bookmark_url (before ++ line ++ Text.LF ++ rest) = line.
Proof.
  intros Hb Hl Hs Hn Hr. unfold bookmark_url, Text.trim.
  assert (S1 : Text.trimStart (before ++ line ++ Text.LF ++ rest)
               = line ++ Text.LF ++ rest).
  { clear Hl Hr. induction before as [|c b IH].
    - cbn [append]. destruct line as [|a l]; [congruence|].
      cbn [Text.trimStart] in Hs.
      change (String a l ++ Text.LF ++ rest)
        with (String a (l ++ Text.LF ++ rest)).
      cbn [Text.trimStart].
      destruct (Text.is_white_space a); [|reflexivity].
      exfalso. clear -Hs.
      assert (L : forall s, String.length (Text.trimStart s)
                            <= String.length s).
      { induction s as [|x s IH]; [reflexivity|]. cbn [Text.trimStart].
        destruct (Text.is_white_space x); cbn [String.length]; lia. }
      specialize (L l). rewrite Hs in L. cbn [String.length] in L. lia.
    - cbn [Str.forallb] in Hb. apply andb_true_iff in Hb as [Hc Hb].
      change (String c b ++ line ++ Text.LF ++ rest)
        with (String c (b ++ line ++ Text.LF ++ rest)).
      cbn [Text.trimStart]. rewrite Hc. now apply IH. }
  rewrite S1.
  assert (R : line ++ Text.LF ++ rest = (line ++ Text.LF) ++ rest)
    by now rewrite sapp_assoc.
  rewrite R, (trimEnd_app _ _ Hr), sapp_assoc.
  now rewrite split_line_app.
Qed.

Lemma X26_bookmark_url_first_line_witness :
  bookmark_url
    (String "010" ("https://example.com/a" ++ String "013" (String "010" "notes")))
  = "https://example.com/a" ++ String "013" "".
Proof.
  exact (X26_bookmark_url_first_line
           (String "010" "") ("https://example.com/a" ++ String "013" "")
           "notes" eq_refl eq_refl eq_refl
           ltac:(discriminate) ltac:(discriminate)).
Defined.
